(** * serveradmin: the creation pipeline, restore and schema-cache views

    A shallow embedding of
    - [serveradmin/dataset/create.py]   ([create_server], [_insert_server],
      [_type_cast_default]),
    - [serveradmin/serverdb/views.py]   ([restore_deleted], the schema views
      and [_clear_lookups]),
    - [serveradmin/api/views.py]        ([api_call]),
    together with the properties the specification states about them.

    Python dictionaries are objects on a heap (so that [attributes.copy()]
    and the later [del]/item assignments act on a distinct object), values
    are a small tagged union of the Python values the code handles, and the
    code runs in a state-and-exception monad: a raised exception keeps the
    state reached so far, as a database in autocommit mode does. *)

From stdpp Require Import base strings gmap list.
From Stdlib Require Import ZArith Ascii.

Set Default Proof Using "Type".

(** ** Python values *)

Set Warnings "-register-all".

Inductive ip_version := IPv4 | IPv6.

#[global] Instance ip_version_eq_dec : EqDecision ip_version.
Proof. solve_decision. Defined.

(** The number of bits of an address: [max_prefixlen] of [ipaddress]. *)
Definition max_prefixlen (version : ip_version) : Z :=
  match version with
  | IPv4 => 32
  | IPv6 => 128
  end.

Inductive value :=
  | VNone
  | VBool (b : bool)
  | VInt (n : Z)
  | VStr (s : string)
  | VIPAddress (ip : Z)                 (* IPv4Address / IPv6Address *)
  | VIPNetwork (version : ip_version) (ip : Z) (prefixlen : Z)
                                        (* IPv4Network / IPv6Network *)
  | VList (l : list value).

Fixpoint value_eqb (v w : value) : bool :=
  match v, w with
  | VNone, VNone => true
  | VBool a, VBool b => bool_decide (a = b)
  | VInt a, VInt b => bool_decide (a = b)
  | VStr a, VStr b => bool_decide (a = b)
  | VIPAddress a, VIPAddress b => bool_decide (a = b)
  | VIPNetwork u a n, VIPNetwork v b m =>
      bool_decide (u = v) && bool_decide (a = b) && bool_decide (n = m)
  | VList l, VList k =>
      (fix go (l k : list value) : bool :=
         match l, k with
         | [], [] => true
         | x :: l', y :: k' => value_eqb x y && go l' k'
         | _, _ => false
         end) l k
  | _, _ => false
  end.

(** Python truthiness, as used by [if segment_id:]. Address and network
    objects define neither [__bool__] nor [__len__], so they are true. *)
Definition truthy (v : value) : bool :=
  match v with
  | VNone => false
  | VBool b => b
  | VInt n => negb (n =? 0)%Z
  | VStr s => negb (String.eqb s "")
  | VIPAddress _ | VIPNetwork _ _ _ => true
  | VList l => match l with [] => false | _ => true end
  end.

(** [isinstance(v, (IPv4Address, IPv6Address, IPv4Network, IPv6Network))] *)
Definition is_ip_object (v : value) : bool :=
  match v with
  | VIPAddress _ | VIPNetwork _ _ _ => true
  | _ => false
  end.

(** The integer the store compares in [min__lte] / [max__gte]. *)
Definition ip_int (v : value) : Z :=
  match v with
  | VIPAddress ip | VIPNetwork _ ip _ => ip
  | _ => 0%Z
  end.

(** ** Exceptions *)

(** The exceptions that the code raises or lets through, by the names the
    sources and the specification give them; [ValidationError] is the one
    of [handle_violations] and carries its three lists. *)
Inductive exception :=
  | CommitError (msg : string)
  | ValidationError
      (violations_regexp violations_required violations_attribs : list string)
  | KeyError (key : string)
  | IndexError
  | ValueError (msg : string)
  | TypeError (msg : string)
  | Http404.

Inductive result (A : Type) :=
  | Ok (a : A)
  | Raise (e : exception).
Arguments Ok {A} a.
Arguments Raise {A} e.

(** ** Schema objects held by [lookups] *)

Record Attribute := {
  attr_pk : string;
  attr_type : string;
  attr_multi : bool;
}.

Record ServerTypeAttribute := {
  sta_required : bool;
  sta_default : option string;
  sta_regexp : option (string → bool);   (* compiled pattern: its [match] *)
}.

Record ServerType := {
  st_pk : string;
  st_attributes : list Attribute;
}.

Record Lookups := {
  servertypes : gmap string ServerType;
  stype_attrs : gmap (string * string) ServerTypeAttribute;
  attributes : gmap string Attribute;
}.

(** ** The store and the heap *)

Record ServerObject := {
  server_id : Z;
  so_hostname : value;
  so_intern_ip : value;
  so_project_id : value;
  so_servertype_id : string;
  so_segment_id : value;
}.

Record IPRange := {
  range_min : Z;
  range_max : Z;
  range_segment : string;
}.

Record ChangeCommit := {
  commit_id : Z;
  commit_app : option string;
  commit_user : option string;
}.

Record ChangeAdd := {
  add_commit : Z;
  add_hostname : value;
  add_attributes_json : string;
}.

(** The old-style [Change] row read by [restore_deleted]: its decoded
    [changes] carry the snapshots of the deleted objects. *)
Record Change := {
  change_pk : Z;
  change_deleted : list (gmap string value);
}.

Inductive message :=
  | MsgError (text : string)
  | MsgSuccess (text : string).

Inductive response :=
  | Redirect (view : string).

Record database := {
  server_objects : list ServerObject;
  next_server_id : Z;
  attribute_values : list (Z * string * value);
  ip_ranges : list IPRange;
  change_commits : list ChangeCommit;
  change_adds : list ChangeAdd;
  changes : list Change;
  messages : list message;
}.

Record state := {
  heap : list (gmap string value);   (* the dict objects, by reference *)
  db : database;
}.

Definition set_heap (h : list (gmap string value)) (σ : state) : state :=
  {| heap := h; db := db σ |}.
Definition set_db (d : database) (σ : state) : state :=
  {| heap := heap σ; db := d |}.

(** ** The monad: state and exceptions *)

Definition St (S A : Type) : Type := S → result A * S.

#[global] Instance St_ret {S} : MRet (St S) := λ A a s, (Ok a, s).
#[global] Instance St_bind {S} : MBind (St S) :=
  λ A B f m s, match m s with
               | (Ok a, s') => f a s'
               | (Raise e, s') => (Raise e, s')
               end.

Definition raise {S A} (e : exception) : St S A := λ s, (Raise e, s).

(** [try: m except <the e with h e = Some handler>: handler] *)
Definition try_except {S A} (m : St S A) (h : exception → option (St S A))
  : St S A :=
  λ s, match m s with
       | (Ok a, s') => (Ok a, s')
       | (Raise e, s') =>
           match h e with
           | Some handler => handler s'
           | None => (Raise e, s')
           end
       end.

Definition lift {S A} (r : result A) : St S A := λ s, (r, s).
Definition gets {S A} (f : S → A) : St S A := λ s, (Ok (f s), s).
Definition modify {S} (f : S → S) : St S () := λ s, (Ok (), f s).

Definition when {S} (c : bool) (m : St S ()) : St S () :=
  if c then m else mret ().

Fixpoint for_ {S A} (l : list A) (body : A → St S ()) : St S () :=
  match l with
  | [] => mret ()
  | x :: l' => body x;; for_ l' body
  end.

(** A [for] loop that threads the local variables it updates. *)
Fixpoint for_acc {S A B} (l : list A) (body : B → A → St S B) (b : B) : St S B :=
  match l with
  | [] => mret b
  | x :: l' => b' ← body b x; for_acc l' body b'
  end.

(** The whole program runs on the heap and the database. *)
Abbreviation M := (St state).

Definition deref (l : nat) (σ : state) : gmap string value :=
  default ∅ (heap σ !! l).

(** Code that works on one dictionary object runs on the object that the
    reference [d] designates ... *)
Definition on {A} (d : nat) (m : St (gmap string value) A) : M A :=
  λ σ, let (r, items) := m (deref d σ) in
       (r, set_heap (<[d := items]> (heap σ)) σ).

(** ... and the calls of the ORM run on the database. *)
Definition on_db {A} (m : St database A) : M A :=
  λ σ, let (r, d) := m (db σ) in (r, set_db d σ).

(** [d.copy()]: a new object with the same items. *)
Definition dict_copy (d : nat) : M nat :=
  λ σ, (Ok (length (heap σ)), set_heap (heap σ ++ [deref d σ]) σ).

(** A dictionary that reaches the program from outside (decoded JSON). *)
Definition dict_new (items : gmap string value) : M nat :=
  λ σ, (Ok (length (heap σ)), set_heap (heap σ ++ [items]) σ).

(** ** Dictionary methods *)

(** [k in d] *)
Definition contains (k : string) : St (gmap string value) bool :=
  gets (λ d, bool_decide (is_Some (d !! k))).

(** [d[k]] *)
Definition getitem (k : string) : St (gmap string value) value :=
  λ d, match d !! k with
       | Some v => (Ok v, d)
       | None => (Raise (KeyError k), d)
       end.

(** [d.get(k)] *)
Definition get (k : string) : St (gmap string value) value :=
  gets (λ d, default VNone (d !! k)).

(** [d[k] = v] *)
Definition setitem (k : string) (v : value) : St (gmap string value) () :=
  modify (insert k v).

(** [del d[k]] *)
Definition delitem (k : string) : St (gmap string value) () :=
  λ d, match d !! k with
       | Some _ => (Ok (), delete k d)
       | None => (Raise (KeyError k), d)
       end.

(** Iteration over a dictionary, in the order of the map's listing. *)
Definition keys : St (gmap string value) (list string) :=
  gets (λ d, (map_to_list d).*1).

Definition iteritems : St (gmap string value) (list (string * value)) :=
  gets map_to_list.

(** ** Python built-ins used by the code *)

(** [s.split(',')] *)
Fixpoint split_comma (s : string) : list string :=
  match s with
  | EmptyString => [EmptyString]
  | String c s' =>
      if Ascii.eqb c ","%char then EmptyString :: split_comma s'
      else match split_comma s' with
           | piece :: rest => String c piece :: rest
           | [] => [String c EmptyString]
           end
  end.

(** [','.join(l)], the inverse used to state what the split preserves. *)
Fixpoint join_comma (l : list string) : string :=
  match l with
  | [] => EmptyString
  | [piece] => piece
  | piece :: rest => piece +:+ String ","%char (join_comma rest)
  end.

Fixpoint count_commas (s : string) : nat :=
  match s with
  | EmptyString => 0
  | String c s' => (if Ascii.eqb c ","%char then 1 else 0) + count_commas s'
  end.

Fixpoint has_comma (s : string) : bool :=
  match s with
  | EmptyString => false
  | String c s' => Ascii.eqb c ","%char || has_comma s'
  end.

Fixpoint chars (s : string) : list value :=
  match s with
  | EmptyString => []
  | String c s' => VStr (String c EmptyString) :: chars s'
  end.

(** [iter(network)]: the addresses from the network address to the
    broadcast address, which is the network address with the host bits
    set. *)
Definition network_addresses (version : ip_version) (ip prefixlen : Z)
  : list value :=
  let hostmask := (2 ^ (max_prefixlen version - prefixlen) - 1)%Z in
  let broadcast := Z.lor ip hostmask in
  (λ i, VIPAddress (ip + Z.of_nat i)) <$> seq 0 (Z.to_nat (broadcast + 1 - ip)).

(** [for val in value]: a list gives its elements, a string its characters,
    a network its addresses; nothing else is iterable. *)
Definition py_iter (v : value) : result (list value) :=
  match v with
  | VList l => Ok l
  | VStr s => Ok (chars s)
  | VIPNetwork version ip prefixlen =>
      Ok (network_addresses version ip prefixlen)
  | _ => Raise (TypeError "object is not iterable")
  end.


(** ** The object store *)

(** [ServerObject.objects.filter(hostname=hostname).exists()] *)
Definition hostname_exists (hostname : value) (d : database) : bool :=
  existsb (λ o, value_eqb (so_hostname o) hostname) (server_objects d).

Definition db_insert_server (server : ServerObject) (d : database) : database :=
  {| server_objects := server_objects d ++ [server];
     next_server_id := (next_server_id d + 1)%Z;
     attribute_values := attribute_values d;
     ip_ranges := ip_ranges d;
     change_commits := change_commits d;
     change_adds := change_adds d;
     changes := changes d;
     messages := messages d |}.

Definition db_add_value (row : Z * string * value) (d : database) : database :=
  {| server_objects := server_objects d;
     next_server_id := next_server_id d;
     attribute_values := attribute_values d ++ [row];
     ip_ranges := ip_ranges d;
     change_commits := change_commits d;
     change_adds := change_adds d;
     changes := changes d;
     messages := messages d |}.

Definition db_add_commit (commit : ChangeCommit) (d : database) : database :=
  {| server_objects := server_objects d;
     next_server_id := next_server_id d;
     attribute_values := attribute_values d;
     ip_ranges := ip_ranges d;
     change_commits := change_commits d ++ [commit];
     change_adds := change_adds d;
     changes := changes d;
     messages := messages d |}.

Definition db_add_change_add (record : ChangeAdd) (d : database) : database :=
  {| server_objects := server_objects d;
     next_server_id := next_server_id d;
     attribute_values := attribute_values d;
     ip_ranges := ip_ranges d;
     change_commits := change_commits d;
     change_adds := change_adds d ++ [record];
     changes := changes d;
     messages := messages d |}.

Definition db_add_message (m : message) (d : database) : database :=
  {| server_objects := server_objects d;
     next_server_id := next_server_id d;
     attribute_values := attribute_values d;
     ip_ranges := ip_ranges d;
     change_commits := change_commits d;
     change_adds := change_adds d;
     changes := changes d;
     messages := messages d ++ [m] |}.

(** [ServerObject.objects.create(...)]: the row is inserted at once, under
    an id the store generates. *)
Definition ServerObject_create
    (hostname intern_ip project_id : value) (servertype_id : string)
    (segment_id : value) : St database ServerObject :=
  λ d, let server := {| server_id := next_server_id d;
                        so_hostname := hostname;
                        so_intern_ip := intern_ip;
                        so_project_id := project_id;
                        so_servertype_id := servertype_id;
                        so_segment_id := segment_id |} in
       (Ok server, db_insert_server server d).

(** Modelled from the spec: [ServerObject.add_attribute] of
    [serverdb.models], which is not part of the sources at hand; it stores
    one value of one attribute of the object. *)
Definition add_attribute (server : ServerObject) (attribute : Attribute)
    (v : value) : St database () :=
  modify (db_add_value (server_id server, attr_pk attribute, v)).

(** [ChangeCommit.objects.create(app=app, user=user)] *)
Definition ChangeCommit_create (app user : option string)
  : St database ChangeCommit :=
  λ d, let commit := {| commit_id := Z.of_nat (length (change_commits d)) + 1;
                        commit_app := app;
                        commit_user := user |} in
       (Ok commit, db_add_commit commit d).

(** [ChangeAdd.objects.create(commit=..., hostname=..., attributes_json=...)] *)
Definition ChangeAdd_create (commit : ChangeCommit) (hostname : value)
    (attributes_json : string) : St database () :=
  modify (db_add_change_add {| add_commit := commit_id commit;
                               add_hostname := hostname;
                               add_attributes_json := attributes_json |}).

(** [messages.error] / [messages.success] *)
Definition add_message (m : message) : St database () :=
  modify (db_add_message m).

(** The ranges that contain an address, in the order of the store. *)
Definition containing_ranges (intern_ip : value) (ranges : list IPRange)
  : list IPRange :=
  filter (λ r, (range_min r ≤ ip_int intern_ip)%Z
               ∧ (ip_int intern_ip ≤ range_max r)%Z) ranges.

(** [IPRange.objects.filter(min__lte=intern_ip, max__gte=intern_ip)] *)
Definition iprange_filter (intern_ip : value) : St database (list IPRange) :=
  gets (λ d, containing_ranges intern_ip (ip_ranges d)).

(** The same state over another IP-range table. *)
Definition with_ip_ranges (ranges : list IPRange) (σ : state) : state :=
  set_db {| server_objects := server_objects (db σ);
            next_server_id := next_server_id (db σ);
            attribute_values := attribute_values (db σ);
            ip_ranges := ranges;
            change_commits := change_commits (db σ);
            change_adds := change_adds (db σ);
            changes := changes (db σ);
            messages := messages (db σ) |} σ.

(** [l[0]] *)
Definition first_item {S A} (l : list A) : St S A :=
  match l with
  | x :: _ => mret x
  | [] => raise IndexError
  end.

(** ** The creation pipeline ([serveradmin/dataset/create.py]) *)

Definition reserved_keys : list string :=
  ["hostname"; "intern_ip"; "comment"; "servertype"; "segment"; "project"].

(** A dictionary without the reserved keys. *)
Definition stripped (d : gmap string value) : gmap string value :=
  foldl (λ d key, delete key d) d reserved_keys.

(** [stype_attr.default not in ('', None)] *)
Definition usable_default (stype_attr : ServerTypeAttribute) : option string :=
  match sta_default stype_attr with
  | Some d => if String.eqb d "" then None else Some d
  | None => None
  end.

Section create.

(** The schema registry [lookups] and the helpers of the modules that
    [create.py] imports: [check_attribute_type] of [dataset.validation]
    ([None] when it returns, [Some e] when it raises [e]), [typecast] of
    [dataset.typecast], the standard library's [ip_address] ([None] for
    its [ValueError]), [unicode] on values that are not strings, and
    [json.dumps] with [json_encode_extra]. *)
Variable lookups : Lookups.
Variable check_attribute_type : string → value → option exception.
Variable typecast : Attribute → string → bool → result value.
Variable ip_address : value → option Z.
Variable repr : value → string.
Variable json_dumps : gmap string value → string.

Definition unicode (v : value) : string :=
  match v with
  | VStr s => s
  | _ => repr v
  end.

Definition check_type {S} (attr : string) (v : value) : St S () :=
  match check_attribute_type attr v with
  | None => mret ()
  | Some e => raise e
  end.

(** Modelled from the spec: [handle_violations] of [dataset.validation],
    which is not part of the sources at hand. When [skip_validation] is
    false and any list is non-empty it fails with a [ValidationError]
    naming every offending attribute per category; when true, all
    violations are accepted. *)
Definition handle_violations {S} (skip_validation : bool)
    (violations_regexp violations_required violations_attribs : list string)
  : St S () :=
  if skip_validation then mret ()
  else match violations_regexp, violations_required, violations_attribs with
       | [], [], [] => mret ()
       | _, _, _ =>
           raise (ValidationError violations_regexp violations_required
                    violations_attribs)
       end.

(** The comprehension of lines 198-201. *)
Fixpoint typecast_each (attribute : Attribute) (vals : list string)
  : result (list value) :=
  match vals with
  | [] => Ok []
  | val :: rest =>
      match typecast attribute val true with
      | Raise e => Raise e
      | Ok v =>
          match typecast_each attribute rest with
          | Raise e => Raise e
          | Ok vs => Ok (v :: vs)
          end
      end
  end.

(** [_type_cast_default] (lines 196-203) *)
Definition _type_cast_default (attribute : Attribute) (default : string)
  : result value :=
  if attr_multi attribute then
    match typecast_each attribute (split_comma default) with
    | Ok vs => Ok (VList vs)
    | Raise e => Raise e
    end
  else typecast attribute default true.

(** Lines 33-43, on the dictionary [attributes]: the four identity fields
    are required and type-checked. *)
Definition require_identity : St (gmap string value) () :=
  b ← contains "hostname";
  when (negb b) (raise (CommitError "Hostname is required"));;
  b ← contains "servertype";
  when (negb b) (raise (CommitError "Servertype is required"));;
  b ← contains "project";
  when (negb b) (raise (CommitError "Project is required"));;
  b ← contains "intern_ip";
  when (negb b) (raise (CommitError "Internal IP (intern_ip) is required"));;
  for_ ["hostname"; "servertype"; "project"; "intern_ip"]
    (λ attr, v ← getitem attr; check_type attr v).

(** Lines 45-48. Only a string can be a key of [lookups.servertypes];
    concatenating the message with another value is a [TypeError]. *)
Definition resolve_servertype : St (gmap string value) ServerType :=
  name ← getitem "servertype";
  match name with
  | VStr s =>
      match servertypes lookups !! s with
      | Some servertype => mret servertype
      | None => raise (CommitError ("Unknown servertype: " +:+ s))
      end
  | VList _ => raise (TypeError "unhashable type")
  | _ => raise (TypeError "cannot concatenate")
  end.

(** Lines 51-59. *)
Definition resolve_intern_ip : St (gmap string value) value :=
  v ← getitem "intern_ip";
  if is_ip_object v then mret v
  else match ip_address v with
       | Some ip => mret (VIPAddress ip)
       | None =>
           raise (ValueError "does not appear to be an IPv4 or IPv6 address")
       end.

(** Lines 61-72. *)
Definition resolve_segment (attributes : nat) (intern_ip : value) : M value :=
  segment_id ← on attributes (get "segment");
  if truthy segment_id then
    check_type "segment" segment_id;; mret segment_id
  else
    try_except
      (ranges ← on_db (iprange_filter intern_ip);
       r ← first_item ranges;
       mret (VStr (range_segment r)))
      (λ e, match e with
            | IndexError =>
                Some (raise (CommitError "Could not determine segment"))
            | _ => None
            end).

(** Lines 77-86, on the copy [real_attributes]. *)
Definition strip_reserved : St (gmap string value) () :=
  for_ reserved_keys (λ key, b ← contains key; when b (delitem key)).

Definition lookup_stype_attr {S} (servertype_pk attribute_pk : string)
  : St S ServerTypeAttribute :=
  match stype_attrs lookups !! (servertype_pk, attribute_pk) with
  | Some stype_attr => mret stype_attr
  | None => raise (KeyError attribute_pk)
  end.

(** Lines 94-117: what the loop does with an attribute that is not in
    [real_attributes]. The boolean is false where the source says
    [continue]; the list is [violations_required]. *)
Definition fill_missing (attribute : Attribute)
    (stype_attr : ServerTypeAttribute) (fill_defaults fill_defaults_all : bool)
    (violations_required : list string)
  : St (gmap string value) (bool * list string) :=
  if attr_multi attribute then
    match usable_default stype_attr with
    | None =>
        setitem (attr_pk attribute) (VList []);;
        mret (true, violations_required)
    | Some d =>
        v ← lift (_type_cast_default attribute d);
        setitem (attr_pk attribute) v;;
        mret (true, violations_required)
    end
  else if sta_required stype_attr then
    match (if fill_defaults then usable_default stype_attr else None) with
    | Some d =>
        v ← lift (_type_cast_default attribute d);
        setitem (attr_pk attribute) v;;
        mret (true, violations_required)
    | None => mret (false, violations_required ++ [attr_pk attribute])
    end
  else
    match (if fill_defaults_all then usable_default stype_attr else None) with
    | Some d =>
        v ← lift (_type_cast_default attribute d);
        setitem (attr_pk attribute) v;;
        mret (true, violations_required)
    | None => mret (false, violations_required)
    end.

(** The loop of lines 126-128 over the elements of a multi value. *)
Definition match_each (regexp : string → bool) (pk : string)
    (violations_regexp : list string) (vals : list value) : list string :=
  foldl (λ acc val, if regexp (unicode val) then acc else acc ++ [pk])
    violations_regexp vals.

(** Lines 119-131: type check and regular expression of a present value;
    the result is [violations_regexp]. *)
Definition check_value (attribute : Attribute)
    (stype_attr : ServerTypeAttribute) (violations_regexp : list string)
  : St (gmap string value) (list string) :=
  v ← getitem (attr_pk attribute);
  check_type (attr_pk attribute) v;;
  if attr_multi attribute then
    match String.eqb (attr_type attribute) "string", sta_regexp stype_attr with
    | true, Some regexp =>
        vals ← lift (py_iter v);
        mret (match_each regexp (attr_pk attribute) violations_regexp vals)
    | _, _ => mret violations_regexp
    end
  else
    match String.eqb (attr_type attribute) "string", sta_regexp stype_attr with
    | true, Some regexp =>
        match v with
        | VStr s =>
            if regexp s then mret violations_regexp
            else mret (violations_regexp ++ [attr_pk attribute])
        | _ => raise (TypeError "expected string or buffer")
        end
    | _, _ => mret violations_regexp
    end.

(** One iteration of the loop of lines 90-131 over
    [(violations_regexp, violations_required)]. *)
Definition check_attribute (servertype : ServerType)
    (fill_defaults fill_defaults_all : bool)
    (violations : list string * list string) (attribute : Attribute)
  : St (gmap string value) (list string * list string) :=
  stype_attr ← lookup_stype_attr (st_pk servertype) (attr_pk attribute);
  present ← contains (attr_pk attribute);
  (if (present : bool) return St (gmap string value) (bool * list string)
   then mret (true, violations.2)
   else fill_missing attribute stype_attr fill_defaults fill_defaults_all
          violations.2)
  ≫= λ filled : bool * list string,
  if filled.1 then
    violations_regexp ← check_value attribute stype_attr violations.1;
    mret (violations_regexp, filled.2)
  else mret (violations.1, filled.2).

(** Lines 88-131. *)
Definition check_attributes (servertype : ServerType)
    (fill_defaults fill_defaults_all : bool)
  : St (gmap string value) (list string * list string) :=
  for_acc (st_attributes servertype)
    (check_attribute servertype fill_defaults fill_defaults_all) ([], []).

(** Lines 133-138. *)
Definition unknown_attributes (servertype : ServerType)
  : St (gmap string value) (list string) :=
  attrs ← keys;
  mret (filter (λ attr, attr ∉ attr_pk <$> st_attributes servertype) attrs).

(** Lines 77-145, on the copy [real_attributes]: the attribute set of the
    new object is stripped of the identity fields, defaulted and
    validated. *)
Definition validate_attributes (servertype : ServerType)
    (skip_validation fill_defaults fill_defaults_all : bool)
  : St (gmap string value) () :=
  strip_reserved;;
  violations ← check_attributes servertype fill_defaults fill_defaults_all;
  violations_attribs ← unknown_attributes servertype;
  handle_violations skip_validation violations.1 violations.2
    violations_attribs.

(** Lines 76-145. *)
Definition prepare_attributes (attributes : nat) (servertype : ServerType)
    (skip_validation fill_defaults fill_defaults_all : bool) : M nat :=
  real_attributes ← dict_copy attributes;
  on real_attributes
    (validate_attributes servertype skip_validation fill_defaults
       fill_defaults_all);;
  mret real_attributes.

Definition lookup_attribute {S} (attr_name : string) : St S Attribute :=
  match attributes lookups !! attr_name with
  | Some attribute => mret attribute
  | None => raise (KeyError attr_name)
  end.

(** Lines 183-190: one item of [attributes.iteritems()]. *)
Definition insert_attribute (server : ServerObject) (item : string * value)
  : St database () :=
  attribute ← lookup_attribute item.1;
  if attr_multi attribute then
    vals ← lift (py_iter item.2);
    for_ vals (add_attribute server attribute)
  else add_attribute server attribute item.2.

(** [_insert_server] (lines 170-194); [server.save()] writes the row,
    which is unchanged since its creation, once more. *)
Definition _insert_server (hostname intern_ip segment_id : value)
    (servertype_id : string) (project_id : value) (attributes : nat) : M Z :=
  taken ← on_db (gets (hostname_exists hostname));
  when taken (raise (CommitError "Server with that hostname already exists"));;
  server ← on_db (ServerObject_create hostname intern_ip project_id
                    servertype_id segment_id);
  items ← on attributes iteritems;
  on_db (for_ items (insert_attribute server));;
  mret (server_id server).

(** Lines 156-166. *)
Definition record_add (real_attributes : nat) (hostname intern_ip : value)
    (user app : option string) : M () :=
  created_server ← dict_copy real_attributes;
  on created_server (setitem "hostname" hostname);;
  on created_server (setitem "intern_ip" intern_ip);;
  commit ← on_db (ChangeCommit_create app user);
  attributes_json ← on created_server (gets json_dumps);
  h ← on created_server (getitem "hostname");
  on_db (ChangeAdd_create commit h attributes_json).

(** [create_server] (lines 21-168) *)
Definition create_server (attributes : nat)
    (skip_validation fill_defaults fill_defaults_all : bool)
    (user app : option string) : M Z :=
  on attributes require_identity;;
  servertype ← on attributes resolve_servertype;
  hostname ← on attributes (getitem "hostname");
  intern_ip ← on attributes resolve_intern_ip;
  segment_id ← resolve_segment attributes intern_ip;
  project_id ← on attributes (get "project");
  real_attributes ← prepare_attributes attributes servertype
                      skip_validation fill_defaults fill_defaults_all;
  server_id ← _insert_server hostname intern_ip segment_id
                (st_pk servertype) project_id real_attributes;
  record_add real_attributes hostname intern_ip user app;;
  mret server_id.

(** ** Restoring a deleted object ([serverdb/views.py], lines 255-271) *)

(** [get_object_or_404(Change, pk=change_id)] *)
Definition get_change (change_id : Z) : St database Change :=
  rows ← gets changes;
  match filter (λ c, change_pk c = change_id) rows with
  | change :: _ => mret change
  | [] => raise Http404
  end.

(** The comprehension of lines 259-260; [sobj['hostname']] raises
    [KeyError] on a snapshot without a hostname. *)
Fixpoint deleted_with_hostname (deleted : list (gmap string value))
    (hostname : value) : result (list (gmap string value)) :=
  match deleted with
  | [] => Ok []
  | sobj :: rest =>
      match sobj !! "hostname" with
      | None => Raise (KeyError "hostname")
      | Some h =>
          match deleted_with_hostname rest hostname with
          | Raise e => Raise e
          | Ok found =>
              Ok (if value_eqb h hostname then sobj :: found else found)
          end
      end
  end.

(** [request.POST.get('hostname')] *)
Definition post_get (post_hostname : option string) : value :=
  match post_hostname with
  | Some h => VStr h
  | None => VNone
  end.

Definition restore_deleted (post_hostname : option string) (change_id : Z)
  : M response :=
  change ← on_db (get_change change_id);
  snapshot ←
    try_except
      (found ← lift (deleted_with_hostname (change_deleted change)
                       (post_get post_hostname));
       first_item found)
      (λ e, match e with IndexError => Some (raise Http404) | _ => None end);
  server_obj ← dict_new snapshot;
  restored ←
    try_except
      (create_server server_obj true false false None None;; mret true)
      (λ e, match e with
            | CommitError msg =>
                Some (on_db (add_message (MsgError msg));; mret false)
            | _ => None
            end);
  when restored (on_db (add_message (MsgSuccess "Server restored.")));;
  mret (Redirect "serverdb_changes").

End create.

(** ** The schema views and the registry cache ([serverdb/views.py]) *)

(** The views run behind [login_required] and [permission_required]; the
    model starts where the view function is entered. *)
Module schema.

Record ServerTypeAttributes := {
  link_servertype : string;
  link_attrib : string;
  link_required : bool;
  link_attrib_default : option string;
  link_regex : option string;
}.

(** The schema tables, and the attribute values that the views delete. *)
Record tables := {
  servertype_rows : list string;
  attribute_rows : list Attribute;
  link_rows : list ServerTypeAttributes;
  value_rows : list (string * string * value);   (* servertype, attribute *)
}.

(** The store, the shared cache entry ['dataset_lookups_version'], and the
    registry of the process: the version it was loaded for and what it
    holds. *)
Record world := {
  store : tables;
  cache_version : option nat;
  next_version : nat;
  lookups_version : option nat;
  lookups_tables : tables;
  flash : list message;
}.

Record request := {
  method : string;
  POST : gmap string string;
}.

(** The cleaned data of the form of [manage_servertype_attr]. *)
Record link_form := {
  form_attrib : string;
  form_required : bool;
  form_attrib_default : string;
  form_regex : option string;
}.

Definition set_store (t : tables) (w : world) : world :=
  {| store := t;
     cache_version := cache_version w;
     next_version := next_version w;
     lookups_version := lookups_version w;
     lookups_tables := lookups_tables w;
     flash := flash w |}.

Definition add_flash (m : message) : St world () :=
  modify (λ w, {| store := store w;
                  cache_version := cache_version w;
                  next_version := next_version w;
                  lookups_version := lookups_version w;
                  lookups_tables := lookups_tables w;
                  flash := flash w ++ [m] |}).

(** [_clear_lookups] (lines 273-274): [cache.delete('dataset_lookups_version')] *)
Definition _clear_lookups : St world () :=
  modify (λ w, {| store := store w;
                  cache_version := None;
                  next_version := next_version w;
                  lookups_version := lookups_version w;
                  lookups_tables := lookups_tables w;
                  flash := flash w |}).

(** Modelled from the spec: the registry [lookups] of [dataset.base], which
    is not part of the sources at hand. It is backed by a process-wide
    cache keyed by a schema version token; what the process holds is served
    as long as it was loaded for the token in the cache, and a miss
    triggers a full reload from the backing schema store (under a new
    token when the cache has none). *)
Definition read_lookups : St world tables :=
  λ w, match cache_version w with
       | Some v =>
           if bool_decide (lookups_version w = Some v)
           then (Ok (lookups_tables w), w)
           else (Ok (store w),
                 {| store := store w;
                    cache_version := Some v;
                    next_version := next_version w;
                    lookups_version := Some v;
                    lookups_tables := store w;
                    flash := flash w |})
       | None =>
           (Ok (store w),
            {| store := store w;
               cache_version := Some (next_version w);
               next_version := S (next_version w);
               lookups_version := Some (next_version w);
               lookups_tables := store w;
               flash := flash w |})
       end.

Definition on_store (f : tables → tables) : St world () :=
  modify (λ w, set_store (f (store w)) w).

(** [get_object_or_404] on the three tables. *)
Definition get_servertype (name : string) : St world string :=
  λ w, if bool_decide (name ∈ servertype_rows (store w))
       then (Ok name, w) else (Raise Http404, w).

Definition get_attribute (name : string) : St world Attribute :=
  λ w, match filter (λ a, attr_pk a = name) (attribute_rows (store w)) with
       | a :: _ => (Ok a, w)
       | [] => (Raise Http404, w)
       end.

Definition is_link (servertype attrib : string) (l : ServerTypeAttributes)
  : Prop :=
  link_servertype l = servertype ∧ link_attrib l = attrib.

#[global] Instance is_link_dec servertype attrib l :
  Decision (is_link servertype attrib l).
Proof. unfold is_link. apply _. Defined.

Definition get_link (servertype attrib : string)
  : St world ServerTypeAttributes :=
  λ w, match filter (is_link servertype attrib) (link_rows (store w)) with
       | l :: _ => (Ok l, w)
       | [] => (Raise Http404, w)
       end.

(** The writes of the ORM; deleting a row deletes what refers to it. *)
Definition insert_servertype (name : string) (t : tables) : tables :=
  {| servertype_rows := servertype_rows t ++ [name];
     attribute_rows := attribute_rows t;
     link_rows := link_rows t;
     value_rows := value_rows t |}.

Definition remove_servertype (name : string) (t : tables) : tables :=
  {| servertype_rows := filter (λ n, n ≠ name) (servertype_rows t);
     attribute_rows := attribute_rows t;
     link_rows := filter (λ l, link_servertype l ≠ name) (link_rows t);
     value_rows := filter (λ r, r.1.1 ≠ name) (value_rows t) |}.

Definition insert_attribute_row (a : Attribute) (t : tables) : tables :=
  {| servertype_rows := servertype_rows t;
     attribute_rows := attribute_rows t ++ [a];
     link_rows := link_rows t;
     value_rows := value_rows t |}.

Definition remove_attribute (name : string) (t : tables) : tables :=
  {| servertype_rows := servertype_rows t;
     attribute_rows := filter (λ a, attr_pk a ≠ name) (attribute_rows t);
     link_rows := filter (λ l, link_attrib l ≠ name) (link_rows t);
     value_rows := filter (λ r, r.1.2 ≠ name) (value_rows t) |}.

(** [stype_attr.save()]: the row of the link is replaced or added. *)
Definition save_link (l : ServerTypeAttributes) (t : tables) : tables :=
  {| servertype_rows := servertype_rows t;
     attribute_rows := attribute_rows t;
     link_rows :=
       filter (λ l', ¬ is_link (link_servertype l) (link_attrib l) l')
         (link_rows t) ++ [l];
     value_rows := value_rows t |}.

Definition remove_link (servertype attrib : string) (t : tables) : tables :=
  {| servertype_rows := servertype_rows t;
     attribute_rows := attribute_rows t;
     link_rows := filter (λ l, ¬ is_link servertype attrib l) (link_rows t);
     value_rows := value_rows t |}.

Definition remove_values (servertype attrib : string) (t : tables) : tables :=
  {| servertype_rows := servertype_rows t;
     attribute_rows := attribute_rows t;
     link_rows := link_rows t;
     value_rows :=
       filter (λ r, ¬ (r.1.1 = servertype ∧ r.1.2 = attrib)) (value_rows t) |}.

Definition is_post (req : request) : bool := String.eqb (method req) "POST".
Definition confirmed (req : request) : bool :=
  bool_decide (is_Some (POST req !! "confirm")).

Inductive page :=
  | redirect (view : string) (args : list string)
  | TemplateResponse (template : string).

(** [if attrib_name:] on the argument whose default is [None]: the name
    given, unless it is empty. *)
Definition given_name (attrib_name : option string) : option string :=
  match attrib_name with
  | Some name => if String.eqb name "" then None else Some name
  | None => None
  end.

Section views.

(** The validation of the Django forms is taken as given: the cleaned
    data of a valid form, or nothing. *)
Variable servertype_form : request → option string.
Variable attribute_form : request → option Attribute.
Variable link_form_data : request → option link_form.

(** [add_servertype] (lines 52-71) *)
Definition add_servertype (req : request) : St world page :=
  if is_post req then
    match servertype_form req with
    | Some name =>
        on_store (insert_servertype name);;
        _clear_lookups;;
        mret (redirect "serverdb_view_servertype" [name])
    | None => mret (TemplateResponse "serverdb/add_servertype.html")
    end
  else mret (TemplateResponse "serverdb/add_servertype.html").

(** [delete_servertype] (lines 73-86) *)
Definition delete_servertype (req : request) (servertype_name : string)
  : St world page :=
  stype ← get_servertype servertype_name;
  if is_post req then
    if confirmed req then
      on_store (remove_servertype stype);;
      _clear_lookups;;
      add_flash (MsgSuccess "Servertype deleted.");;
      mret (redirect "serverdb_servertypes" [])
    else
      add_flash (MsgError
        "Please confirm the usage of weapons of mass destruction.");;
      mret (redirect "serverdb_view_servertype" [servertype_name])
  else mret (redirect "serverdb_servertypes" []).

(** [manage_servertype_attr] (lines 88-170): the link is edited when
    [attrib_name] is given and not empty, and added otherwise;
    [clean_attrib] rejects an attribute that is on the servertype already.
    The messages are written without their quotation marks. *)
Definition manage_servertype_attr (req : request) (servertype_name : string)
    (attrib_name : option string) : St world page :=
  stype ← get_servertype servertype_name;
  instance ←
    match given_name attrib_name with
    | Some name =>
        attrib ← get_attribute name;
        stype_attr ← get_link stype (attr_pk attrib);
        mret (Some stype_attr)
    | None => mret None
    end;
  if is_post req then
    w ← gets id;
    let cleaned :=
      match link_form_data req, instance with
      | Some data, Some stype_attr =>
          Some (link_attrib stype_attr, data)
      | Some data, None =>
          if bool_decide (filter (is_link stype (form_attrib data))
                            (link_rows (store w)) = [])
          then Some (form_attrib data, data) else None
      | None, _ => None
      end in
    match cleaned with
    | Some (attrib, data) =>
        match filter (λ a, attr_pk a = attrib) (attribute_rows (store w)) with
        | a :: _ =>
            let attrib_default :=
              if negb (String.eqb (attr_type a) "string")
                 && String.eqb (form_attrib_default data) ""
              then None else Some (form_attrib_default data) in
            on_store (save_link {| link_servertype := stype;
                                   link_attrib := attrib;
                                   link_required := form_required data;
                                   link_attrib_default := attrib_default;
                                   link_regex := form_regex data |});;
            _clear_lookups;;
            add_flash (MsgSuccess
              (match instance with
               | Some _ => "Edited attribute " +:+ attrib +:+ " of " +:+ stype
               | None => "Added attribute " +:+ attrib +:+ " to " +:+ stype
               end));;
            mret (redirect "serverdb_view_servertype" [stype])
        | [] => mret (TemplateResponse "serverdb/manage_servertype_attr.html")
        end
    | None => mret (TemplateResponse "serverdb/manage_servertype_attr.html")
    end
  else mret (TemplateResponse "serverdb/manage_servertype_attr.html").

(** [delete_servertype_attr] (lines 172-187) *)
Definition delete_servertype_attr (req : request)
    (servertype_name attrib_name : string) : St world page :=
  stype_attr ← get_link servertype_name attrib_name;
  if is_post req && confirmed req then
    on_store (remove_values (link_servertype stype_attr)
                (link_attrib stype_attr));;
    on_store (remove_link (link_servertype stype_attr)
                (link_attrib stype_attr));;
    add_flash (MsgSuccess ("Deleted attribute " +:+ attrib_name));;
    mret (redirect "serverdb_view_servertype" [servertype_name])
  else mret (TemplateResponse "serverdb/delete_servertype_attr.html").

(** [delete_attribute] (lines 205-218) *)
Definition delete_attribute (req : request) (attribute_name : string)
  : St world page :=
  attribute ← get_attribute attribute_name;
  if is_post req && confirmed req then
    on_store (remove_attribute (attr_pk attribute));;
    _clear_lookups;;
    add_flash (MsgSuccess ("Attribute " +:+ attr_pk attribute +:+ " deleted"));;
    mret (redirect "serverdb_attributes" [])
  else mret (TemplateResponse "serverdb/delete_attribute.html").

(** [add_attribute] (lines 220-240) *)
Definition add_attribute (req : request) : St world page :=
  if is_post req then
    match attribute_form req with
    | Some attribute =>
        on_store (insert_attribute_row attribute);;
        _clear_lookups;;
        add_flash (MsgSuccess ("Attribute " +:+ attr_pk attribute +:+ " added"));;
        mret (redirect "serverdb_attributes" [])
    | None => mret (TemplateResponse "serverdb/add_attribute.html")
    end
  else mret (TemplateResponse "serverdb/add_attribute.html").

End views.

(** What the process holds is what the store holds whenever it would be
    served from the cache. *)
Definition coherent (w : world) : Prop :=
  ∀ v, cache_version w = Some v → lookups_version w = Some v →
       lookups_tables w = store w.

End schema.

(** ** A small installation, to run the code on *)

Module example.

Definition ram : Attribute :=
  {| attr_pk := "ram"; attr_type := "number"; attr_multi := false |}.
Definition tags : Attribute :=
  {| attr_pk := "tags"; attr_type := "string"; attr_multi := true |}.
Definition os : Attribute :=
  {| attr_pk := "os"; attr_type := "string"; attr_multi := false |}.

Definition vm : ServerType :=
  {| st_pk := "vm"; st_attributes := [ram; tags; os] |}.

(** [ram] is required with a default, [tags] has the default [a,b] and a
    pattern that rejects [b], [os] is optional with a default. *)
Definition lookups : Lookups :=
  {| servertypes := {[ "vm" := vm ]};
     stype_attrs :=
       {[ ("vm", "ram") := {| sta_required := true;
                              sta_default := Some "1024";
                              sta_regexp := None |};
          ("vm", "tags") := {| sta_required := false;
                               sta_default := Some "a,b";
                               sta_regexp :=
                                 Some (λ s, negb (String.eqb s "b")) |};
          ("vm", "os") := {| sta_required := false;
                             sta_default := Some "linux";
                             sta_regexp := None |} ]};
     attributes := {[ "ram" := ram; "tags" := tags; "os" := os ]} |}.

Definition check_attribute_type (attr : string) (v : value)
  : option exception := None.

Definition typecast (attribute : Attribute) (s : string) (force_single : bool)
  : result value := Ok (VStr s).

Definition ip_address (v : value) : option Z :=
  match v with
  | VStr "10.0.0.5" => Some 167772165%Z
  | VInt n => Some n
  | _ => None
  end.

Definition repr (v : value) : string := "".

(** The keys stand for the encoding. *)
Definition json_dumps (d : gmap string value) : string :=
  String.concat "," (map_to_list d).*1.

(** One range, 10.0.0.0/24, of segment [seg1]; no object yet. *)
Definition empty_database : database :=
  {| server_objects := [];
     next_server_id := 1;
     attribute_values := [];
     ip_ranges := [ {| range_min := 167772160;
                       range_max := 167772415;
                       range_segment := "seg1" |} ];
     change_commits := [];
     change_adds := [];
     changes := [];
     messages := [] |}.

Definition input : gmap string value :=
  {[ "hostname" := VStr "a.example"; "servertype" := VStr "vm";
     "project" := VStr "p1"; "intern_ip" := VStr "10.0.0.5" ]}.

(** The object [b.example] was deleted by change 7, [a.example] exists. *)
Definition snapshot : gmap string value :=
  {[ "hostname" := VStr "b.example"; "servertype" := VStr "vm";
     "project" := VStr "p1"; "intern_ip" := VStr "10.0.0.5";
     "ram" := VStr "2048"; "tags" := VList [VStr "a"] ]}.

Definition database_after_delete : database :=
  {| server_objects := [ {| server_id := 1;
                            so_hostname := VStr "a.example";
                            so_intern_ip := VIPAddress 167772165;
                            so_project_id := VStr "p1";
                            so_servertype_id := "vm";
                            so_segment_id := VStr "seg1" |} ];
     next_server_id := 3;
     attribute_values := [];
     ip_ranges := ip_ranges empty_database;
     change_commits := [];
     change_adds := [];
     changes := [ {| change_pk := 7; change_deleted := [snapshot] |} ];
     messages := [] |}.

Definition create_server :=
  create_server lookups check_attribute_type typecast ip_address repr
    json_dumps.

End example.

(** ** Outcomes and the words of the specification *)

(** Code that leaves its state alone. *)
Definition readonly {S A} (m : St S A) : Prop := ∀ s, (m s).2 = s.

(** Two dictionaries that differ at most at one key. *)
Definition agree_off (key : string) (d1 d2 : gmap string value) : Prop :=
  ∀ k, k ≠ key → d1 !! k = d2 !! k.

(** What lines 94-117 decide for an attribute that is not in
    [real_attributes]. *)
Inductive filling :=
  | FillEmpty
  | FillDefault (default : string)
  | Required
  | Omitted.

Definition filling_of (attribute : Attribute) (stype_attr : ServerTypeAttribute)
    (fill_defaults fill_defaults_all : bool) : filling :=
  if attr_multi attribute then
    match usable_default stype_attr with
    | None => FillEmpty
    | Some d => FillDefault d
    end
  else if sta_required stype_attr then
    match (if fill_defaults then usable_default stype_attr else None) with
    | Some d => FillDefault d
    | None => Required
    end
  else
    match (if fill_defaults_all then usable_default stype_attr else None) with
    | Some d => FillDefault d
    | None => Omitted
    end.

(** The three categories of violations, as the specification words them. *)
Definition required_violation (d : gmap string value) (attribute : Attribute)
    (stype_attr : ServerTypeAttribute) (fill_defaults : bool) : Prop :=
  attr_multi attribute = false ∧ sta_required stype_attr = true
  ∧ d !! attr_pk attribute = None
  ∧ (fill_defaults = false ∨ usable_default stype_attr = None).

Definition pattern_violation (repr : value → string) (d : gmap string value)
    (attribute : Attribute) (stype_attr : ServerTypeAttribute) : Prop :=
  attr_type attribute = "string"
  ∧ ∃ regexp v,
      sta_regexp stype_attr = Some regexp
      ∧ d !! attr_pk attribute = Some v
      ∧ if attr_multi attribute
        then ∃ vals val, py_iter v = Ok vals ∧ val ∈ vals
                         ∧ regexp (unicode repr val) = false
        else ∃ s, v = VStr s ∧ regexp s = false.

Definition unknown_violation (d : gmap string value) (servertype : ServerType)
    (attr : string) : Prop :=
  is_Some (d !! attr) ∧ attr ∉ attr_pk <$> st_attributes servertype.

(** The server row that [_insert_server] creates. *)
Definition new_server (hostname intern_ip segment_id : value)
    (servertype_id : string) (project_id : value) (d : database)
  : ServerObject :=
  {| server_id := next_server_id d;
     so_hostname := hostname;
     so_intern_ip := intern_ip;
     so_project_id := project_id;
     so_servertype_id := servertype_id;
     so_segment_id := segment_id |}.

(** The [Add] record and its commit. *)
Definition new_commit (app user : option string) (d : database) : ChangeCommit :=
  {| commit_id := Z.of_nat (length (change_commits d)) + 1;
     commit_app := app;
     commit_user := user |}.

Definition created_server (real_attributes : gmap string value)
    (hostname intern_ip : value) : gmap string value :=
  <["intern_ip" := intern_ip]> (<["hostname" := hostname]> real_attributes).

(** Storing the attribute values only appends rows of the new server to
    the table of attribute values. *)
Definition only_values_added (server : ServerObject) (D D' : database) : Prop :=
  server_objects D' = server_objects D
  ∧ next_server_id D' = next_server_id D
  ∧ ip_ranges D' = ip_ranges D
  ∧ change_commits D' = change_commits D
  ∧ change_adds D' = change_adds D
  ∧ changes D' = changes D
  ∧ messages D' = messages D
  ∧ ∃ rows, attribute_values D' = attribute_values D ++ rows
            ∧ ∀ row, row ∈ rows → row.1.1 = server_id server.

(** Code that gives the same result on two dictionaries. *)
Definition same_result (d1 d2 : gmap string value) {A}
    (m : St (gmap string value) A) : Prop :=
  (m d1).1 = (m d2).1.

Section outcomes.

Variable lookups : Lookups.
Variable check_attribute_type : string → value → option exception.
Variable typecast : Attribute → string → bool → result value.
Variable ip_address : value → option Z.
Variable repr : value → string.
Variable json_dumps : gmap string value → string.

(** Lines 61-72 as a function of the input and of the store. *)
Definition segment_of (d : gmap string value) (intern_ip : value)
    (D : database) : result value :=
  let segment_id := default VNone (d !! "segment") in
  if truthy segment_id then
    match check_attribute_type "segment" segment_id with
    | None => Ok segment_id
    | Some e => Raise e
    end
  else
    match containing_ranges intern_ip (ip_ranges D) with
    | r :: _ => Ok (VStr (range_segment r))
    | [] => Raise (CommitError "Could not determine segment")
    end.

(** The violations that lines 122-131 append for a value. *)
Definition regexp_violations (attribute : Attribute)
    (stype_attr : ServerTypeAttribute) (v : value) : result (list string) :=
  match String.eqb (attr_type attribute) "string", sta_regexp stype_attr with
  | true, Some regexp =>
      if attr_multi attribute then
        match py_iter v with
        | Ok vals => Ok (match_each repr regexp (attr_pk attribute) [] vals)
        | Raise e => Raise e
        end
      else
        match v with
        | VStr s => Ok (if regexp s then [] else [attr_pk attribute])
        | _ => Raise (TypeError "expected string or buffer")
        end
  | _, _ => Ok []
  end.

(** Lines 119-131 for a value [v] of the attribute. *)
Definition check_present (attribute : Attribute)
    (stype_attr : ServerTypeAttribute) (violations : list string * list string)
    (v : value) : result (list string * list string) :=
  match check_attribute_type (attr_pk attribute) v with
  | Some e => Raise e
  | None =>
      match regexp_violations attribute stype_attr v with
      | Ok new => Ok (violations.1 ++ new, violations.2)
      | Raise e => Raise e
      end
  end.

(** One iteration, as a function of the dictionary. *)
Definition check_attribute_result (servertype : ServerType)
    (fill_defaults fill_defaults_all : bool)
    (violations : list string * list string) (attribute : Attribute)
    (d : gmap string value)
  : result (list string * list string) * gmap string value :=
  match stype_attrs lookups !! (st_pk servertype, attr_pk attribute) with
  | None => (Raise (KeyError (attr_pk attribute)), d)
  | Some stype_attr =>
      match d !! attr_pk attribute with
      | Some v => (check_present attribute stype_attr violations v, d)
      | None =>
          match filling_of attribute stype_attr fill_defaults fill_defaults_all
          with
          | FillEmpty =>
              (check_present attribute stype_attr violations (VList []),
               <[attr_pk attribute := VList []]> d)
          | FillDefault default =>
              match _type_cast_default typecast attribute default with
              | Ok v => (check_present attribute stype_attr violations v,
                         <[attr_pk attribute := v]> d)
              | Raise e => (Raise e, d)
              end
          | Required =>
              (Ok (violations.1, violations.2 ++ [attr_pk attribute]), d)
          | Omitted => (Ok violations, d)
          end
      end
  end.

(** The value that lines 94-117 store for a missing attribute, if any. *)
Definition filled_value (attribute : Attribute)
    (stype_attr : ServerTypeAttribute) (fill_defaults fill_defaults_all : bool)
  : option (result value) :=
  match filling_of attribute stype_attr fill_defaults fill_defaults_all with
  | FillEmpty => Some (Ok (VList []))
  | FillDefault default => Some (_type_cast_default typecast attribute default)
  | Required | Omitted => None
  end.

(** The iterations that do not raise. *)
Inductive step_ok (servertype : ServerType)
    (fill_defaults fill_defaults_all : bool)
    (violations : list string * list string) (attribute : Attribute)
    (d : gmap string value)
  : list string * list string → gmap string value → Prop :=
  | step_present stype_attr v new :
      stype_attrs lookups !! (st_pk servertype, attr_pk attribute)
      = Some stype_attr →
      d !! attr_pk attribute = Some v →
      regexp_violations attribute stype_attr v = Ok new →
      step_ok servertype fill_defaults fill_defaults_all violations attribute d
        (violations.1 ++ new, violations.2) d
  | step_filled stype_attr v new :
      stype_attrs lookups !! (st_pk servertype, attr_pk attribute)
      = Some stype_attr →
      d !! attr_pk attribute = None →
      filled_value attribute stype_attr fill_defaults fill_defaults_all
      = Some (Ok v) →
      regexp_violations attribute stype_attr v = Ok new →
      step_ok servertype fill_defaults fill_defaults_all violations attribute d
        (violations.1 ++ new, violations.2) (<[attr_pk attribute := v]> d)
  | step_required stype_attr :
      stype_attrs lookups !! (st_pk servertype, attr_pk attribute)
      = Some stype_attr →
      d !! attr_pk attribute = None →
      filling_of attribute stype_attr fill_defaults fill_defaults_all
      = Required →
      step_ok servertype fill_defaults fill_defaults_all violations attribute d
        (violations.1, violations.2 ++ [attr_pk attribute]) d
  | step_omitted stype_attr :
      stype_attrs lookups !! (st_pk servertype, attr_pk attribute)
      = Some stype_attr →
      d !! attr_pk attribute = None →
      filling_of attribute stype_attr fill_defaults fill_defaults_all
      = Omitted →
      step_ok servertype fill_defaults fill_defaults_all violations attribute d
        violations d.

Definition new_change_add (real_attributes : gmap string value)
    (hostname intern_ip : value) (app user : option string) (d : database)
  : ChangeAdd :=
  {| add_commit := commit_id (new_commit app user d);
     add_hostname := hostname;
     add_attributes_json :=
       json_dumps (created_server real_attributes hostname intern_ip) |}.

(** Lines 33-74 as a computation on the input dictionary, over the
    database [D]. *)
Definition identity_fields (D : database)
  : St (gmap string value) (ServerType * value * value * value * value) :=
  require_identity check_attribute_type;;
  servertype ← resolve_servertype lookups;
  hostname ← getitem "hostname";
  intern_ip ← resolve_intern_ip ip_address;
  segment_id ← (λ d, (segment_of d intern_ip D, d));
  project_id ← get "project";
  mret (servertype, hostname, intern_ip, segment_id, project_id).

(** What happens before [_insert_server]: the identity fields and the
    validated attribute set, or the first failure. *)
Definition before_insert (attributes : nat)
    (skip_validation fill_defaults fill_defaults_all : bool) (σ : state)
  : result (ServerType * value * value * value * value) :=
  match (identity_fields (db σ) (deref attributes σ)).1 with
  | Raise e => Raise e
  | Ok fields =>
      match (validate_attributes lookups check_attribute_type typecast repr
               fields.1.1.1.1 skip_validation fill_defaults fill_defaults_all
               (deref attributes σ)).1 with
      | Raise e => Raise e
      | Ok _ => Ok fields
      end
  end.

(** The outcome of [create_server], step by step. *)
Definition create_server_outcome (attributes : nat)
    (skip_validation fill_defaults fill_defaults_all : bool)
    (user app : option string) (σ : state) : result Z * state :=
  match (identity_fields (db σ) (deref attributes σ)).1 with
  | Raise e => (Raise e, σ)
  | Ok (servertype, hostname, intern_ip, segment_id, project_id) =>
      let checked :=
        validate_attributes lookups check_attribute_type typecast repr
          servertype skip_validation fill_defaults fill_defaults_all
          (deref attributes σ) in
      match checked.1 with
      | Raise e => (Raise e, {| heap := heap σ ++ [checked.2]; db := db σ |})
      | Ok _ =>
          if hostname_exists hostname (db σ) then
            (Raise (CommitError "Server with that hostname already exists"),
             {| heap := heap σ ++ [checked.2]; db := db σ |})
          else
            let server := new_server hostname intern_ip segment_id
                            (st_pk servertype) project_id (db σ) in
            let inserted :=
              for_ (map_to_list checked.2) (insert_attribute lookups server)
                (db_insert_server server (db σ)) in
            match inserted.1 with
            | Raise e =>
                (Raise e, {| heap := heap σ ++ [checked.2]; db := inserted.2 |})
            | Ok _ =>
                (Ok (server_id server),
                 {| heap := (heap σ ++ [checked.2])
                            ++ [created_server checked.2 hostname intern_ip];
                    db := db_add_change_add
                            (new_change_add checked.2 hostname intern_ip
                               app user inserted.2)
                            (db_add_commit (new_commit app user inserted.2)
                               inserted.2) |})
            end
      end
  end.

(** [restore_deleted], step by step. *)
Definition restore_outcome (post_hostname : option string) (change_id : Z)
    (σ : state) : result response * state :=
  match filter (λ c, change_pk c = change_id) (changes (db σ)) with
  | [] => (Raise Http404, σ)
  | change :: _ =>
      match deleted_with_hostname (change_deleted change)
              (post_get post_hostname) with
      | Raise IndexError | Ok [] => (Raise Http404, σ)
      | Raise e => (Raise e, σ)
      | Ok (snapshot :: _) =>
          let out := create_server lookups check_attribute_type typecast
                       ip_address repr json_dumps (length (heap σ))
                       true false false None None
                       (set_heap (heap σ ++ [snapshot]) σ) in
          match out.1 with
          | Ok _ =>
              (Ok (Redirect "serverdb_changes"),
               set_db (db_add_message (MsgSuccess "Server restored.")
                         (db out.2)) out.2)
          | Raise (CommitError msg) =>
              (Ok (Redirect "serverdb_changes"),
               set_db (db_add_message (MsgError msg) (db out.2)) out.2)
          | Raise e => (Raise e, out.2)
          end
      end
  end.

End outcomes.

(** ** What ends the loop over the attributes *)

(** The first error along a list. *)
Fixpoint first_error {A} (error_of : A → option exception) (l : list A)
  : option exception :=
  match l with
  | [] => None
  | a :: l' =>
      match error_of a with
      | Some e => Some e
      | None => first_error error_of l'
      end
  end.

Section ending.

Variable lookups : Lookups.
Variable check_attribute_type : string → value → option exception.
Variable typecast : Attribute → string → bool → result value.
Variable repr : value → string.

(** Lines 119-131: the exception that a value of the attribute ends the
    call with, if any: the type check refuses it, or the pattern is matched
    against what is no text. *)
Definition value_error (attribute : Attribute)
    (stype_attr : ServerTypeAttribute) (v : value) : option exception :=
  match check_attribute_type (attr_pk attribute) v with
  | Some e => Some e
  | None =>
      match regexp_violations repr attribute stype_attr v with
      | Raise e => Some e
      | Ok _ => None
      end
  end.

(** Lines 91-131: the exception that the iteration of an attribute ends the
    call with on the dictionary [d], if any: the registry holds no link for
    the attribute, its default cannot be cast, or its value (the one of
    [d], else the one filled in) is refused as above. A violation is none
    of these. *)
Definition attribute_error (servertype : ServerType)
    (fill_defaults fill_defaults_all : bool) (d : gmap string value)
    (attribute : Attribute) : option exception :=
  match stype_attrs lookups !! (st_pk servertype, attr_pk attribute) with
  | None => Some (KeyError (attr_pk attribute))
  | Some stype_attr =>
      match d !! attr_pk attribute with
      | Some v => value_error attribute stype_attr v
      | None =>
          match filled_value typecast attribute stype_attr fill_defaults
                  fill_defaults_all with
          | Some (Ok v) => value_error attribute stype_attr v
          | Some (Raise e) => Some e
          | None => None
          end
      end
  end.

End ending.

(** ** The stages of [create_server], as functions of the input *)

(** Lines 33-40: the message of the first identity field that the input
    lacks, in the order of the four tests. *)
Definition missing_identity (d : gmap string value) : option string :=
  if bool_decide (d !! "hostname" = None) then Some "Hostname is required"
  else if bool_decide (d !! "servertype" = None)
  then Some "Servertype is required"
  else if bool_decide (d !! "project" = None) then Some "Project is required"
  else if bool_decide (d !! "intern_ip" = None)
  then Some "Internal IP (intern_ip) is required"
  else None.

(** Lines 183-190: the rows that one item of the attribute set becomes, one
    for a scalar attribute and one for each element of a multi attribute. *)
Definition item_rows (lookups : Lookups) (id : Z) (item : string * value)
  : list (Z * string * value) :=
  match attributes lookups !! item.1 with
  | Some attribute =>
      if attr_multi attribute then
        match py_iter item.2 with
        | Ok vals => (λ v, (id, attr_pk attribute, v)) <$> vals
        | Raise _ => []
        end
      else [(id, attr_pk attribute, item.2)]
  | None => []
  end.

(** ** The API views ([serveradmin/api/views.py]) *)

(** The view runs behind the decorator [api_view], which hands it the
    application that signed the request and the decoded JSON body; the
    model starts where the view function is entered. Texts are ASCII, as
    the names of API functions are, so that formatting is concatenation. *)
Module api.

(** A decoded JSON value. *)
Inductive json :=
  | JNull
  | JBool (b : bool)
  | JNum (n : Z)
  | JStr (s : string)
  | JList (l : list json)
  | JObject (m : gmap string json).

(** The exceptions, by the names the code uses. [ApiError] carries what
    [str(error)] gives; [Other] is any other exception that an API function
    raises. *)
Inductive error :=
  | SuspiciousOperation (msg : string)
  | PermissionDenied (msg : string)
  | ApiError (msg : string)
  | KeyError
  | TypeError
  | Other (name : string).

Inductive outcome (A : Type) :=
  | Return (a : A)
  | Throw (e : error).
Arguments Return {A} a.
Arguments Throw {A} e.

(** API functions work on a state of their own. *)
Definition Run (S A : Type) : Type := S → outcome A * S.

#[global] Instance Run_ret {S} : MRet (Run S) := λ A a s, (Return a, s).
#[global] Instance Run_bind {S} : MBind (Run S) :=
  λ A B f m s, match m s with
               | (Return a, s') => f a s'
               | (Throw e, s') => (Throw e, s')
               end.

Definition throw {S A} (e : error) : Run S A := λ s, (Throw e, s).
Definition lift {S A} (r : outcome A) : Run S A := λ s, (r, s).
Definition when {S} (c : bool) (m : Run S ()) : Run S () :=
  if c then m else mret ().

(** [try: m except ...: h], with [h e = None] when no clause matches [e]. *)
Definition catch {S A} (m : Run S A) (h : error → option (Run S A))
  : Run S A :=
  λ s, match m s with
       | (Return a, s') => (Return a, s')
       | (Throw e, s') =>
           match h e with
           | Some handler => handler s'
           | None => (Throw e, s')
           end
       end.

Record Application := {
  allowed_methods : string;
  superuser : bool;
}.

(** [x in s] on strings *)
Fixpoint is_substring (x s : string) : bool :=
  String.prefix x s
  || match s with
     | EmptyString => false
     | String _ s' => is_substring x s'
     end.

(** [x in data]: a key of an object, an element of a list, a part of a
    string; nothing else is a container. *)
Definition contains (x : string) (data : json) : outcome bool :=
  match data with
  | JObject m => Return (bool_decide (is_Some (m !! x)))
  | JList l =>
      Return (existsb (λ v, match v with
                            | JStr s => String.eqb s x
                            | _ => false
                            end) l)
  | JStr s => Return (is_substring x s)
  | _ => Throw TypeError
  end.

(** [all(x in data for x in keys)] *)
Fixpoint all_in (keys : list string) (data : json) : outcome bool :=
  match keys with
  | [] => Return true
  | x :: rest =>
      match contains x data with
      | Throw e => Throw e
      | Return false => Return false
      | Return true => all_in rest data
      end
  end.

(** [data[k]] for a text [k]: only an object can be indexed by it. *)
Definition getitem (k : string) (data : json) : outcome json :=
  match data with
  | JObject m =>
      match m !! k with
      | Some v => Return v
      | None => Throw KeyError
      end
  | _ => Throw TypeError
  end.

(** [table[key]] on a dictionary with text keys: a list or an object cannot
    be hashed, any other key that is not a text is not in the table. *)
Definition subscript {V} (table : gmap string V) (key : json) : outcome V :=
  match key with
  | JStr s =>
      match table !! s with
      | Some v => Return v
      | None => Throw KeyError
      end
  | JList _ | JObject _ => Throw TypeError
  | _ => Throw KeyError
  end.

Fixpoint characters (s : string) : list json :=
  match s with
  | EmptyString => []
  | String c s' => JStr (String c EmptyString) :: characters s'
  end.

(** [*v] in a call: the elements of a list, the characters of a text, the
    keys of an object. *)
Definition star_args (v : json) : outcome (list json) :=
  match v with
  | JList l => Return l
  | JStr s => Return (characters s)
  | JObject m => Return (JStr <$> (map_to_list m).*1)
  | _ => Throw TypeError
  end.

(** [**v] in a call: only a mapping. *)
Definition star_kwargs (v : json) : outcome (gmap string json) :=
  match v with
  | JObject m => Return m
  | _ => Throw TypeError
  end.

Section call.

(** The state and the registry of the API functions
    ([AVAILABLE_API_FUNCTIONS] of [serveradmin.api]), Python's
    [splitlines], and the text that [format] gives for a value that is not
    a text. *)
Variable S : Type.
Variable splitlines : string → list string.
Variable text : json → string.
Variable AVAILABLE_API_FUNCTIONS :
  gmap string (gmap string (list json → gmap string json → Run S json)).

Definition format_value (v : json) : string :=
  match v with
  | JStr s => s
  | _ => text v
  end.

(** [u'{0}.{1}'.format(group, name)] *)
Definition method_name (group name : json) : string :=
  format_value group +:+ "." +:+ format_value name.

(** [api_call] (lines 161-189) *)
Definition api_call (app : Application) (data : json)
  : Run S (gmap string json) :=
  catch
    (complete ← lift (all_in ["group"; "name"; "args"; "kwargs"] data);
     when (negb complete) (throw (SuspiciousOperation "Invalid API call"));;
     let allowed := splitlines (allowed_methods app) in
     group ← lift (getitem "group" data);
     name ← lift (getitem "name" data);
     when (negb (superuser app)
           && negb (bool_decide (method_name group name ∈ allowed)))
       (throw (PermissionDenied
                 ("Method " +:+ method_name group name +:+ " not allowed")));;
     fn ← catch
            (group ← lift (getitem "group" data);
             functions ← lift (subscript AVAILABLE_API_FUNCTIONS group);
             name ← lift (getitem "name" data);
             lift (subscript functions name))
            (λ e, match e with
                  | KeyError => Some (throw (ApiError "No such function"))
                  | _ => None
                  end);
     args ← lift (getitem "args" data);
     kwargs ← lift (getitem "kwargs" data);
     args ← lift (star_args args);
     kwargs ← lift (star_kwargs kwargs);
     retval ← fn args kwargs;
     mret {[ "status" := JStr "success"; "retval" := retval ]})
    (λ e, match e with
          | ApiError msg =>
              Some (mret {[ "status" := JStr "error";
                            "type" := JStr "ApiError";
                            "message" := JStr msg ]})
          | _ => None
          end).

End call.

End api.

(** The small installation with an attribute [comment] on the servertype,
    and the deleted object [b.example] with a comment in its snapshot. *)
Module commented.

Definition comment : Attribute :=
  {| attr_pk := "comment"; attr_type := "string"; attr_multi := false |}.

Definition vm : ServerType :=
  {| st_pk := "vm";
     st_attributes := [example.ram; example.tags; example.os; comment] |}.

Definition lookups : Lookups :=
  {| servertypes := {[ "vm" := vm ]};
     stype_attrs :=
       <[("vm", "comment") := {| sta_required := false;
                                 sta_default := None;
                                 sta_regexp := None |}]>
         (stype_attrs example.lookups);
     attributes := <["comment" := comment]> (attributes example.lookups) |}.

Definition snapshot : gmap string value :=
  <["comment" := VStr "primary"]> example.snapshot.

Definition database : database :=
  {| server_objects := server_objects example.database_after_delete;
     next_server_id := 3;
     attribute_values := [];
     ip_ranges := ip_ranges example.empty_database;
     change_commits := [];
     change_adds := [];
     changes := [ {| change_pk := 7; change_deleted := [snapshot] |} ];
     messages := [] |}.

End commented.

(** A type check for the small installation that accepts only integers
    for [ram]. *)
Definition integer_ram (attr : string) (v : value) : option exception :=
  if String.eqb attr "ram" then
    match v with
    | VInt _ => None
    | _ => Some (ValueError "ram is not a number")
    end
  else None.

(** A schema with the servertype [vm], the attribute [ram] and their link,
    loaded in the registry; the forms of the requests below are empty. *)
Module schema_example.

Import schema.

Definition link : ServerTypeAttributes :=
  {| link_servertype := "vm";
     link_attrib := "ram";
     link_required := true;
     link_attrib_default := Some "1024";
     link_regex := None |}.

Definition schema_tables : tables :=
  {| servertype_rows := ["vm"];
     attribute_rows := [example.ram];
     link_rows := [link];
     value_rows := [("vm", "ram", VStr "2048")] |}.

Definition loaded : world :=
  {| store := schema_tables;
     cache_version := Some 1;
     next_version := 2;
     lookups_version := Some 1;
     lookups_tables := schema_tables;
     flash := [] |}.

Definition get_request : request := {| method := "GET"; POST := ∅ |}.
Definition post_request : request := {| method := "POST"; POST := ∅ |}.
Definition confirm_request : request :=
  {| method := "POST"; POST := {[ "confirm" := "yes" ]} |}.

Definition servertype_form (req : request) : option string := None.
Definition attribute_form (req : request) : option Attribute := None.
Definition link_form_data (req : request) : option link_form := None.

End schema_example.

(** An installation of the API, to run [api_call] on: the state counts the
    calls, [dataset.count] returns the number of its arguments,
    [dataset.fail] raises an [ApiError] after it has counted. *)
Module api_example.

Import api.

Definition splitlines (s : string) : list string := [s].

Definition text (v : json) : string := "".

Definition count (args : list json) (kwargs : gmap string json)
  : Run nat json :=
  λ calls, (Return (JNum (Z.of_nat (length args))), S calls).

Definition fail (args : list json) (kwargs : gmap string json)
  : Run nat json :=
  λ calls, (Throw (ApiError "failed"), S calls).

Definition AVAILABLE_API_FUNCTIONS
  : gmap string (gmap string (list json → gmap string json → Run nat json)) :=
  {[ "dataset" := {[ "count" := count; "fail" := fail ]} ]}.

Definition application : Application :=
  {| allowed_methods := "dataset.count"; superuser := false |}.

Definition body (name : string) : gmap string json :=
  {[ "group" := JStr "dataset"; "name" := JStr name;
     "args" := JList [JNull; JNull]; "kwargs" := JObject ∅ ]}.

Definition api_call :=
  api_call nat splitlines text AVAILABLE_API_FUNCTIONS.

End api_example.

(** * Properties *)

(** The conclusion of a statement, for its instances on the small
    installation. *)
Ltac conclusion_of T :=
  let T := eval cbv zeta in T in
  lazymatch T with
  | _ → ?C => conclusion_of C
  | ?C => exact C
  end.

(** ** Running the monad *)

Lemma bind_run {S A B} (m : St S A) (f : A → St S B) (s : S) :
  (m ≫= f) s = match m s with
               | (Ok a, s') => f a s'
               | (Raise e, s') => (Raise e, s')
               end.
Proof. reflexivity. Qed.

Lemma ret_run {S A} (a : A) (s : S) : (mret a : St S A) s = (Ok a, s).
Proof. reflexivity. Qed.

Lemma set_heap_same σ : set_heap (heap σ) σ = σ.
Proof. by destruct σ. Qed.

Lemma set_db_same σ : set_db (db σ) σ = σ.
Proof. by destruct σ. Qed.

Lemma insert_deref (d : nat) σ : <[d := deref d σ]> (heap σ) = heap σ.
Proof.
  unfold deref. destruct (heap σ !! d) as [ items | ] eqn:E; simpl.
  - by apply list_insert_id.
  - apply list_insert_ge. by apply lookup_ge_None.
Qed.

Lemma readonly_ret {S A} (a : A) : readonly (mret a : St S A).
Proof. by intros s. Qed.

Lemma readonly_raise {S A} e : readonly (raise e : St S A).
Proof. by intros s. Qed.

Lemma readonly_gets {S A} (f : S → A) : readonly (gets f).
Proof. by intros s. Qed.

Lemma readonly_lift {S A} (r : result A) : readonly (lift r : St S A).
Proof. by intros s. Qed.

Lemma readonly_bind {S A B} (m : St S A) (f : A → St S B) :
  readonly m → (∀ a, readonly (f a)) → readonly (m ≫= f).
Proof.
  intros Hm Hf s. rewrite bind_run. specialize (Hm s).
  destruct (m s) as [[a | e] s']; simpl in *; subst; [ apply Hf | done ].
Qed.

Lemma readonly_when {S} c (m : St S ()) : readonly m → readonly (when c m).
Proof. destruct c; [ done | intros _; apply readonly_ret ]. Qed.

Lemma readonly_for {S A} (l : list A) (body : A → St S ()) :
  (∀ x, readonly (body x)) → readonly (for_ l body).
Proof.
  intros Hbody. induction l as [ | x l IH ]; simpl.
  - apply readonly_ret.
  - apply readonly_bind; [ apply Hbody | intros _; exact IH ].
Qed.

Lemma readonly_getitem k : readonly (getitem k).
Proof. intros d. unfold getitem. by destruct (d !! k). Qed.

Lemma readonly_first_item {S A} (l : list A) : readonly (first_item l : St S A).
Proof. destruct l; [ apply readonly_raise | apply readonly_ret ]. Qed.

Lemma on_readonly {A} (d : nat) (m : St (gmap string value) A) σ :
  readonly m → on d m σ = ((m (deref d σ)).1, σ).
Proof.
  intros Hm. unfold on. specialize (Hm (deref d σ)).
  destruct (m (deref d σ)) as [r items]; simpl in *; subst.
  by rewrite insert_deref, set_heap_same.
Qed.

Lemma on_db_readonly {A} (m : St database A) σ :
  readonly m → on_db m σ = ((m (db σ)).1, σ).
Proof.
  intros Hm. unfold on_db. specialize (Hm (db σ)).
  destruct (m (db σ)) as [r d]; simpl in *; subst. by rewrite set_db_same.
Qed.

Create HintDb readonly.
#[global] Hint Resolve readonly_ret readonly_raise readonly_gets readonly_lift
  readonly_getitem readonly_first_item : readonly.
#[global] Hint Extern 2 (readonly (_ ≫= _)) =>
  apply readonly_bind; [ | intros ? ] : readonly.
#[global] Hint Extern 2 (readonly (when _ _)) => apply readonly_when : readonly.
#[global] Hint Extern 2 (readonly (for_ _ _)) =>
  apply readonly_for; intros ? : readonly.

(** ** Splitting a default on commas *)

Lemma split_comma_not_nil s : split_comma s ≠ [].
Proof.
  destruct s as [ | c s ]; simpl; [ done | ].
  destruct (Ascii.eqb c ","); [ done | ]. by destruct (split_comma s).
Qed.

Lemma join_split_comma s : join_comma (split_comma s) = s.
Proof.
  induction s as [ | c s IH ]; simpl; [ done | ].
  destruct (Ascii.eqb c ",") eqn:Ec.
  - apply Ascii.eqb_eq in Ec as ->.
    pose proof (split_comma_not_nil s) as Hne.
    simpl. destruct (split_comma s) as [ | p rest ]; [ done | ].
    by rewrite IH.
  - pose proof (split_comma_not_nil s) as Hne.
    destruct (split_comma s) as [ | p rest ]; [ done | ].
    simpl in *. destruct rest; simpl in *; by rewrite <- IH.
Qed.

Lemma split_comma_pieces s : Forall (λ p, has_comma p = false) (split_comma s).
Proof.
  induction s as [ | c s IH ]; simpl.
  - by repeat constructor.
  - destruct (Ascii.eqb c ",") eqn:Ec.
    + by constructor.
    + destruct (split_comma s) as [ | p rest ].
      * repeat constructor. simpl. by rewrite Ec.
      * inversion IH; subst. constructor; [ | done ]. simpl. by rewrite Ec.
Qed.

Lemma split_comma_length s : length (split_comma s) = S (count_commas s).
Proof.
  induction s as [ | c s IH ]; simpl; [ done | ].
  destruct (Ascii.eqb c ","); simpl; [ by rewrite IH | ].
  pose proof (split_comma_not_nil s).
  destruct (split_comma s); [ done | ]. simpl in *. lia.
Qed.

(** ** Type-casting a configured default *)

Section type_cast_default.

Variable typecast : Attribute → string → bool → result value.

Lemma typecast_each_ok attribute pieces vs :
  typecast_each typecast attribute pieces = Ok vs
  ↔ Forall2 (λ piece v, typecast attribute piece true = Ok v) pieces vs.
Proof.
  revert vs. induction pieces as [ | p pieces IH ]; intros vs; simpl.
  - split; [ intros [= <-]; constructor | by inversion 1 ].
  - destruct (typecast attribute p true) as [v | e] eqn:Ep.
    + destruct (typecast_each typecast attribute pieces) as [ws | e] eqn:Er.
      * split.
        -- intros [= <-]. constructor; [ done | by apply IH ].
        -- inversion 1 as [ | ? v' ? ws' Hv Hws ]; subst.
           apply IH in Hws. congruence.
      * split; [ done | ].
        inversion 1 as [ | ? v' ? ws' Hv Hws ]; subst.
        apply IH in Hws. congruence.
    + split; [ done | ]. inversion 1; congruence.
Qed.

Lemma typecast_each_raise attribute pieces e :
  typecast_each typecast attribute pieces = Raise e →
  ∃ piece, piece ∈ pieces ∧ typecast attribute piece true = Raise e.
Proof.
  induction pieces as [ | p pieces IH ]; simpl; [ done | ].
  destruct (typecast attribute p true) as [v | e'] eqn:Ep.
  - destruct (typecast_each typecast attribute pieces) as [ws | e'']; [ done | ].
    intros [= ->]. destruct IH as (piece & Hin & Hpiece); [ done | ].
    exists piece. split; [ by right | done ].
  - intros [= ->]. exists p. split; [ by left | done ].
Qed.

(** C7. The default of a multi attribute is split literally on commas: the
    pieces joined by commas are the default again, no piece contains a
    comma, and there is one piece more than there are commas. The filled
    value is the list of the pieces, each type-cast on its own with
    [force_single] set, and the cast fails when the cast of a piece does;
    the default of a scalar attribute is type-cast once, as a whole. The
    result never depends on what [typecast] does without [force_single]. *)
Theorem type_cast_default_splits_on_commas attribute default :
  join_comma (split_comma default) = default
  ∧ Forall (λ piece, has_comma piece = false) (split_comma default)
  ∧ length (split_comma default) = S (count_commas default)
  ∧ (if attr_multi attribute
     then (∀ vs, _type_cast_default typecast attribute default = Ok (VList vs)
                 ↔ Forall2 (λ piece v, typecast attribute piece true = Ok v)
                     (split_comma default) vs)
          ∧ (∀ v, _type_cast_default typecast attribute default = Ok v
                  → ∃ vs, v = VList vs)
          ∧ (∀ e, _type_cast_default typecast attribute default = Raise e
                  → ∃ piece, piece ∈ split_comma default
                             ∧ typecast attribute piece true = Raise e)
     else _type_cast_default typecast attribute default
          = typecast attribute default true)
  ∧ (∀ typecast' : Attribute → string → bool → result value,
       (∀ a s, typecast' a s true = typecast a s true) →
       _type_cast_default typecast' attribute default
       = _type_cast_default typecast attribute default).
Proof.
  split; [ apply join_split_comma | ].
  split; [ apply split_comma_pieces | ].
  split; [ apply split_comma_length | ].
  split.
  - unfold _type_cast_default. destruct (attr_multi attribute); [ | done ].
    destruct (typecast_each typecast attribute (split_comma default))
      as [ws | e'] eqn:E.
    + split; [ | split ].
      * intros vs. rewrite <- typecast_each_ok, E.
        split; intros [= ->]; done.
      * intros v [= <-]. by exists ws.
      * done.
    + split; [ | split ].
      * intros vs. rewrite <- typecast_each_ok, E. done.
      * done.
      * intros e [= <-]. by apply typecast_each_raise.
  - intros typecast' Hsame. unfold _type_cast_default.
    destruct (attr_multi attribute); [ | apply Hsame ].
    assert (typecast_each typecast' attribute (split_comma default)
            = typecast_each typecast attribute (split_comma default)) as ->;
      [ | done ].
    induction (split_comma default) as [ | p l IH ]; simpl; [ done | ].
    by rewrite Hsame, IH.
Qed.

End type_cast_default.

(** ** Resolving the segment *)

Section segment.

Variable check_attribute_type : string → value → option exception.

Lemma resolve_segment_run attributes intern_ip σ :
  resolve_segment check_attribute_type attributes intern_ip σ
  = (segment_of check_attribute_type (deref attributes σ) intern_ip (db σ), σ).
Proof.
  unfold resolve_segment, segment_of. rewrite bind_run.
  rewrite on_readonly by apply readonly_gets. simpl.
  destruct (truthy _).
  - unfold check_type. by destruct (check_attribute_type _ _).
  - unfold try_except. rewrite bind_run.
    rewrite on_db_readonly by apply readonly_gets. simpl.
    by destruct (containing_ranges _ _).
Qed.

(** C4 (amended). A segment value of the input that is true in Python's
    sense (so neither absent, [None] nor empty) is type-checked and used,
    and the result does not depend on the IP-range table: no lookup takes
    place. Otherwise (no segment, or a value that is false) the segment
    is the one of the first range the store returns among those that contain
    the internal IP, and [CommitError] when no range contains it. The
    state is left as it was. *)
Theorem resolve_segment_explicit_or_lookup attributes intern_ip σ :
  let segment_id := default VNone (deref attributes σ !! "segment") in
  if truthy segment_id
  then resolve_segment check_attribute_type attributes intern_ip σ
       = (match check_attribute_type "segment" segment_id with
          | None => Ok segment_id
          | Some e => Raise e
          end, σ)
       ∧ ∀ ranges,
           (resolve_segment check_attribute_type attributes intern_ip
              (with_ip_ranges ranges σ)).1
           = (resolve_segment check_attribute_type attributes intern_ip σ).1
  else resolve_segment check_attribute_type attributes intern_ip σ
       = (match containing_ranges intern_ip (ip_ranges (db σ)) with
          | r :: _ => Ok (VStr (range_segment r))
          | [] => Raise (CommitError "Could not determine segment")
          end, σ).
Proof.
  simpl. rewrite resolve_segment_run. unfold segment_of.
  destruct (truthy (default VNone (deref attributes σ !! "segment"))) eqn:Ht;
    [ | done ].
  split; [ done | ]. intros ranges. rewrite resolve_segment_run.
  unfold segment_of.
  replace (deref attributes (with_ip_ranges ranges σ)) with (deref attributes σ)
    by done.
  by rewrite Ht.
Qed.

End segment.

(** ** The loop over the attributes of the servertype *)

Section loop.

Variable lookups : Lookups.
Variable check_attribute_type : string → value → option exception.
Variable typecast : Attribute → string → bool → result value.
Variable repr : value → string.

Lemma match_each_app regexp pk acc vals :
  match_each repr regexp pk acc vals = acc ++ match_each repr regexp pk [] vals.
Proof.
  unfold match_each. revert acc.
  induction vals as [ | val vals IH ]; intros acc; simpl.
  - by rewrite app_nil_r.
  - destruct (regexp (unicode repr val)); [ apply IH | ].
    rewrite IH, (IH [pk]). by rewrite app_assoc.
Qed.

Lemma elem_of_match_each regexp pk vals k :
  k ∈ match_each repr regexp pk [] vals
  ↔ k = pk ∧ ∃ val, val ∈ vals ∧ regexp (unicode repr val) = false.
Proof.
  induction vals as [ | val vals IH ].
  - simpl. split; [ by intros ?%elem_of_nil | ].
    intros (_ & val & ?%elem_of_nil & _). done.
  - unfold match_each in *. simpl.
    destruct (regexp (unicode repr val)) eqn:E.
    + rewrite IH. split.
      * intros (-> & x & Hx & Hre). split; [ done | ]. exists x.
        split; [ by right | done ].
      * intros (-> & x & Hx & Hre). split; [ done | ].
        apply elem_of_cons in Hx as [ -> | Hx ]; [ congruence | eauto ].
    + fold (match_each repr regexp pk [pk] vals).
      rewrite match_each_app. simpl. rewrite elem_of_cons.
      unfold match_each at 1. rewrite IH. split.
      * intros [ -> | (-> & x & Hx & Hre) ].
        -- split; [ done | ]. exists val. split; [ by left | done ].
        -- split; [ done | ]. exists x. split; [ by right | done ].
      * intros (-> & _). by left.
Qed.

Lemma check_value_run attribute stype_attr violations d :
  (v ← check_value check_attribute_type repr attribute stype_attr violations.1;
   mret (v, violations.2)) d
  = (match d !! attr_pk attribute with
     | Some v => check_present check_attribute_type repr
         attribute stype_attr violations v
     | None => Raise (KeyError (attr_pk attribute))
     end, d).
Proof.
  unfold check_value, check_present, regexp_violations.
  rewrite !bind_run. unfold getitem.
  destruct (d !! attr_pk attribute) as [v | ]; [ | done ].
  rewrite bind_run. unfold check_type.
  destruct (check_attribute_type (attr_pk attribute) v); [ done | ]. simpl.
  destruct (attr_multi attribute), (String.eqb (attr_type attribute) "string"),
    (sta_regexp stype_attr) as [ regexp | ];
    try (simpl; by rewrite ?app_nil_r).
  - rewrite bind_run. unfold lift.
    destruct (py_iter v) as [ vals | e ]; [ | done ]. simpl.
    by rewrite match_each_app.
  - destruct v; try done. destruct (regexp s); simpl; by rewrite ?app_nil_r.
Qed.

Lemma fill_missing_run attribute stype_attr fill_defaults fill_defaults_all
    violations_required d :
  fill_missing typecast attribute stype_attr fill_defaults fill_defaults_all
    violations_required d
  = match filling_of attribute stype_attr fill_defaults fill_defaults_all with
    | FillEmpty =>
        (Ok (true, violations_required), <[attr_pk attribute := VList []]> d)
    | FillDefault default =>
        match _type_cast_default typecast attribute default with
        | Ok v => (Ok (true, violations_required), <[attr_pk attribute := v]> d)
        | Raise e => (Raise e, d)
        end
    | Required => (Ok (false, violations_required ++ [attr_pk attribute]), d)
    | Omitted => (Ok (false, violations_required), d)
    end.
Proof.
  unfold fill_missing, filling_of.
  destruct (attr_multi attribute).
  - destruct (usable_default stype_attr) as [ default | ]; [ | done ].
    rewrite bind_run. unfold lift.
    by destruct (_type_cast_default typecast attribute default).
  - destruct (sta_required stype_attr).
    + destruct (if fill_defaults then _ else _) as [ default | ]; [ | done ].
      rewrite bind_run. unfold lift.
      by destruct (_type_cast_default typecast attribute default).
    + destruct (if fill_defaults_all then _ else _) as [ default | ]; [ | done ].
      rewrite bind_run. unfold lift.
      by destruct (_type_cast_default typecast attribute default).
Qed.

Lemma check_attribute_run servertype fill_defaults fill_defaults_all
    violations attribute d :
  check_attribute lookups check_attribute_type typecast repr servertype
    fill_defaults fill_defaults_all violations attribute d
  = check_attribute_result lookups check_attribute_type typecast repr
      servertype fill_defaults fill_defaults_all
      violations attribute d.
Proof.
  unfold check_attribute, check_attribute_result, lookup_stype_attr.
  destruct (stype_attrs lookups !! _) as [ stype_attr | ]; [ | done ].
  rewrite bind_run. simpl. unfold contains, gets at 1. rewrite bind_run.
  destruct (d !! attr_pk attribute) as [ v | ] eqn:Ed.
  - rewrite bool_decide_eq_true_2 by eauto. simpl.
    pose proof (check_value_run attribute stype_attr violations d) as Hrun.
    rewrite Ed in Hrun. exact Hrun.
  - rewrite bool_decide_eq_false_2 by (by intros [? ?]).
    rewrite bind_run, fill_missing_run.
    destruct (filling_of _ _ _ _) as [ | default | | ]; simpl.
    + pose proof (check_value_run attribute stype_attr violations
                    (<[attr_pk attribute := VList []]> d)) as Hrun.
      rewrite lookup_insert_eq in Hrun. exact Hrun.
    + destruct (_type_cast_default typecast attribute default) as [ v | e ];
        [ | done ]. simpl.
      pose proof (check_value_run attribute stype_attr violations
                    (<[attr_pk attribute := v]> d)) as Hrun.
      rewrite lookup_insert_eq in Hrun. exact Hrun.
    + done.
    + by destruct violations.
Qed.

Lemma check_present_ok attribute stype_attr violations v violations' :
  check_present check_attribute_type repr
      attribute stype_attr violations v = Ok violations' →
  ∃ new, regexp_violations repr attribute stype_attr v = Ok new
         ∧ violations' = (violations.1 ++ new, violations.2).
Proof.
  unfold check_present.
  destruct (check_attribute_type _ _); [ done | ].
  destruct (regexp_violations repr _ _ _) as [ new | ]; [ | done ].
  intros [= <-]. by exists new.
Qed.

Lemma check_attribute_ok servertype fill_defaults fill_defaults_all
    violations attribute d violations' d' :
  check_attribute_result lookups check_attribute_type typecast repr
      servertype fill_defaults fill_defaults_all
    violations attribute d = (Ok violations', d') →
  step_ok lookups typecast repr servertype fill_defaults fill_defaults_all
      violations attribute d
    violations' d'.
Proof.
  unfold check_attribute_result.
  destruct (stype_attrs lookups !! _) as [ stype_attr | ] eqn:Esa; [ | done ].
  destruct (d !! attr_pk attribute) as [ v | ] eqn:Ed.
  - intros [= Hok <-]. apply check_present_ok in Hok as (new & Hnew & ->).
    by eapply step_present.
  - destruct (filling_of _ _ _ _) as [ | default | | ] eqn:Ef.
    + intros [= Hok <-]. apply check_present_ok in Hok as (new & Hnew & ->).
      eapply step_filled; [ done | done | | done ].
      unfold filled_value. by rewrite Ef.
    + destruct (_type_cast_default typecast attribute default) as [ v | ] eqn:Ec;
        [ | done ].
      intros [= Hok <-]. apply check_present_ok in Hok as (new & Hnew & ->).
      eapply step_filled; [ done | done | | done ].
      unfold filled_value. by rewrite Ef, Ec.
    + intros [= <- <-]. by eapply step_required.
    + intros [= <- <-]. by eapply step_omitted.
Qed.

(** Whatever an iteration does, it only adds the key of its attribute. *)
Lemma check_attribute_frame servertype fill_defaults fill_defaults_all
    violations attribute d :
  let d' := (check_attribute_result lookups check_attribute_type typecast repr
      servertype fill_defaults fill_defaults_all
               violations attribute d).2 in
  d' = d ∨ (d !! attr_pk attribute = None
            ∧ ∃ v, d' = <[attr_pk attribute := v]> d).
Proof.
  unfold check_attribute_result.
  destruct (stype_attrs lookups !! _) as [ stype_attr | ]; [ | by left ].
  destruct (d !! attr_pk attribute) as [ v | ] eqn:Ed; [ by left | ].
  destruct (filling_of _ _ _ _) as [ | default | | ]; simpl; eauto.
  destruct (_type_cast_default typecast attribute default); simpl; eauto.
Qed.

Lemma regexp_violations_elem attribute stype_attr v new k :
  regexp_violations repr attribute stype_attr v = Ok new →
  k ∈ new ↔ k = attr_pk attribute
            ∧ attr_type attribute = "string"
            ∧ ∃ regexp, sta_regexp stype_attr = Some regexp
                ∧ if attr_multi attribute
                  then ∃ vals val, py_iter v = Ok vals ∧ val ∈ vals
                                   ∧ regexp (unicode repr val) = false
                  else ∃ s, v = VStr s ∧ regexp s = false.
Proof.
  unfold regexp_violations.
  destruct (String.eqb (attr_type attribute) "string") eqn:Et.
  2: { intros [= <-]. split; [ by intros ?%elem_of_nil | ].
       intros (_ & Ht & _). apply String.eqb_neq in Et. done. }
  apply String.eqb_eq in Et.
  destruct (sta_regexp stype_attr) as [ regexp | ].
  2: { intros [= <-]. split; [ by intros ?%elem_of_nil | ].
       by intros (_ & _ & ? & ? & _). }
  destruct (attr_multi attribute).
  - destruct (py_iter v) as [ vals | ]; [ | done ]. intros [= <-].
    rewrite elem_of_match_each. split.
    + intros (-> & val & Hval & Hre). repeat split; [ done | ].
      exists regexp. split; [ done | ]. by exists vals, val.
    + intros (-> & _ & regexp' & [= <-] & vals' & val & [= <-] & Hval & Hre).
      split; [ done | ]. by exists val.
  - destruct v; try done. intros [= <-]. split.
    + destruct (regexp s) eqn:Ere; [ by intros ?%elem_of_nil | ].
      intros ->%list_elem_of_singleton. repeat split; [ done | ].
      exists regexp. split; [ done | ]. by exists s.
    + intros (-> & _ & regexp' & [= <-] & s' & [= <-] & ->).
      by apply list_elem_of_singleton.
Qed.

Lemma regexp_violations_pk attribute stype_attr v new k :
  regexp_violations repr attribute stype_attr v = Ok new → k ∈ new →
  k = attr_pk attribute.
Proof.
  intros Hnew Hk. by apply (regexp_violations_elem _ _ _ _ _ Hnew) in Hk as [? _].
Qed.

Section loop_invariants.

Variable servertype : ServerType.
Variables fill_defaults fill_defaults_all : bool.

Let body :=
  check_attribute lookups check_attribute_type typecast repr servertype
    fill_defaults fill_defaults_all.

Lemma for_acc_cons_ok attribute attrs violations d violations' d' :
  for_acc (attribute :: attrs) body violations d = (Ok violations', d') →
  ∃ violations1 d1,
    step_ok lookups typecast repr servertype fill_defaults fill_defaults_all
        violations attribute d
      violations1 d1
    ∧ for_acc attrs body violations1 d1 = (Ok violations', d').
Proof.
  simpl. rewrite bind_run.
  destruct (body violations attribute d) as [[violations1 | e] d1] eqn:E;
    [ | done ].
  intros Hrest. exists violations1, d1. split; [ | done ].
  apply check_attribute_ok. by rewrite <- check_attribute_run.
Qed.

Lemma step_ok_dict violations attribute d violations1 d1 :
  step_ok lookups typecast repr servertype fill_defaults fill_defaults_all
      violations attribute d
    violations1 d1 →
  d1 = d ∨ (d !! attr_pk attribute = None
            ∧ ∃ v, d1 = <[attr_pk attribute := v]> d).
Proof. destruct 1; eauto. Qed.

(** The loop keeps what is in the dictionary and only adds keys of the
    attributes it visits, whether it ends or raises. *)
Lemma check_loop_frame attrs violations d :
  let d' := (for_acc attrs body violations d).2 in
  (∀ k v, d !! k = Some v → d' !! k = Some v)
  ∧ (∀ k, k ∉ attr_pk <$> attrs → d' !! k = d !! k).
Proof.
  revert violations d. induction attrs as [ | attribute attrs IH ];
    intros violations d; simpl; [ done | ].
  rewrite bind_run.
  pose proof (check_attribute_frame servertype fill_defaults fill_defaults_all
                violations attribute d) as Hstep.
  rewrite <- check_attribute_run in Hstep. fold body in Hstep. simpl in Hstep.
  destruct (body violations attribute d) as [[violations1 | e] d1]; simpl in *.
  - destruct (IH violations1 d1) as [Hkeep Hother]. split.
    + intros k v Hk. apply Hkeep.
      destruct Hstep as [ -> | (Hnone & w & ->) ]; [ done | ].
      rewrite lookup_insert_ne; [ done | congruence ].
    + intros k Hk.
      apply not_elem_of_cons in Hk as [Hne Hk]. rewrite Hother by done.
      destruct Hstep as [ -> | (Hnone & w & ->) ]; [ done | ].
      rewrite lookup_insert_ne; [ done | congruence ].
  - split.
    + intros k v Hk.
      destruct Hstep as [ -> | (Hnone & w & ->) ]; [ done | ].
      rewrite lookup_insert_ne; [ done | congruence ].
    + intros k Hk.
      apply not_elem_of_cons in Hk as [Hne Hk].
      destruct Hstep as [ -> | (Hnone & w & ->) ]; [ done | ].
      rewrite lookup_insert_ne; [ done | congruence ].
Qed.

Lemma check_loop_filled attrs violations d violations' d' :
  NoDup (attr_pk <$> attrs) →
  for_acc attrs body violations d = (Ok violations', d') →
  ∀ attribute, attribute ∈ attrs →
    ∃ stype_attr,
      stype_attrs lookups !! (st_pk servertype, attr_pk attribute)
      = Some stype_attr
      ∧ (d !! attr_pk attribute = None →
         match filled_value typecast attribute stype_attr fill_defaults
                 fill_defaults_all with
         | Some r => ∃ v, r = Ok v ∧ d' !! attr_pk attribute = Some v
         | None => d' !! attr_pk attribute = None
         end).
Proof.
  revert violations d. induction attrs as [ | a0 attrs IH ];
    intros violations d Hnodup Hrun attribute Hin;
    [ by apply elem_of_nil in Hin | ].
  apply for_acc_cons_ok in Hrun as (violations1 & d1 & Hstep & Hrest).
  rewrite fmap_cons in Hnodup. apply NoDup_cons in Hnodup as [Hfresh Hnodup].
  pose proof (check_loop_frame attrs violations1 d1) as [_ Hother].
  rewrite Hrest in Hother. simpl in Hother.
  apply elem_of_cons in Hin as [ -> | Hin ].
  - specialize (Hother _ Hfresh).
    inversion Hstep as [ sa v new Hsa Hd Hnew | sa v new Hsa Hd Hfill Hnew
                       | sa Hsa Hd Hfill | sa Hsa Hd Hfill ]; subst;
      exists sa; (split; [ done | ]); intros Hnone.
    + congruence.
    + rewrite Hfill. exists v. split; [ done | ].
      by rewrite Hother, lookup_insert_eq.
    + unfold filled_value. rewrite Hfill. congruence.
    + unfold filled_value. rewrite Hfill. congruence.
  - destruct (IH violations1 d1 Hnodup Hrest attribute Hin) as (sa & Hsa & Hfill).
    exists sa. split; [ done | ]. intros Hnone. apply Hfill.
    apply step_ok_dict in Hstep as [ -> | (_ & w & ->) ]; [ done | ].
    rewrite lookup_insert_ne; [ done | ].
    intros Heq. apply Hfresh. rewrite Heq. by apply list_elem_of_fmap_2.
Qed.

Lemma check_loop_required attrs violations d violations' d' :
  NoDup (attr_pk <$> attrs) →
  for_acc attrs body violations d = (Ok violations', d') →
  ∀ k, k ∈ violations'.2
       ↔ k ∈ violations.2
         ∨ ∃ attribute stype_attr,
             attribute ∈ attrs ∧ attr_pk attribute = k
             ∧ stype_attrs lookups !! (st_pk servertype, k) = Some stype_attr
             ∧ d !! k = None
             ∧ filling_of attribute stype_attr fill_defaults fill_defaults_all
               = Required.
Proof.
  revert violations d. induction attrs as [ | a0 attrs IH ];
    intros violations d Hnodup Hrun k.
  { simpl in Hrun. injection Hrun as <- <-. split; [ by left | ].
    intros [ ? | (a & ? & ?%elem_of_nil & _) ]; done. }
  apply for_acc_cons_ok in Hrun as (violations1 & d1 & Hstep & Hrest).
  rewrite fmap_cons in Hnodup. apply NoDup_cons in Hnodup as [Hfresh Hnodup].
  rewrite (IH violations1 d1 Hnodup Hrest k).
  assert (∀ a, a ∈ attrs → d1 !! attr_pk a = d !! attr_pk a) as Hsame.
  { intros a Ha.
    apply step_ok_dict in Hstep as [ -> | (_ & w & ->) ]; [ done | ].
    rewrite lookup_insert_ne; [ done | ].
    intros Heq. apply Hfresh. rewrite Heq. by apply list_elem_of_fmap_2. }
  assert (k ∈ violations1.2
          ↔ k ∈ violations.2
            ∨ (k = attr_pk a0 ∧ d !! k = None
               ∧ ∃ sa, stype_attrs lookups !! (st_pk servertype, k) = Some sa
                       ∧ filling_of a0 sa fill_defaults fill_defaults_all
                         = Required)) as Hhead.
  { inversion Hstep as [ sa v new Hsa Hd Hnew | sa v new Hsa Hd Hfill Hnew
                       | sa Hsa Hd Hfill | sa Hsa Hd Hfill ]; subst; simpl.
    - split; [ by left | ]. intros [ ? | (-> & ? & _) ]; [ done | congruence ].
    - split; [ by left | ]. intros [ ? | (-> & _ & sa' & Hsa' & Hreq) ];
        [ done | ].
      unfold filled_value in Hfill. replace sa' with sa in Hreq by congruence.
      by rewrite Hreq in Hfill.
    - rewrite elem_of_app, list_elem_of_singleton. split.
      + intros [ ? | -> ]; [ by left | right; eauto ].
      + intros [ ? | (-> & _) ]; [ by left | by right ].
    - split; [ by left | ]. intros [ ? | (-> & _ & sa' & Hsa' & Hreq) ];
        [ done | ].
      replace sa' with sa in Hreq by congruence. congruence. }
  rewrite Hhead. split.
  - intros [ [ ? | (-> & Hd & sa & Hsa & Hreq) ]
           | (a & sa & Ha & <- & Hsa & Hd & Hreq) ].
    + by left.
    + right. exists a0, sa. repeat split; [ by left | done.. ].
    + right. exists a, sa. repeat split; [ by right | done | | done ].
      by rewrite <- Hsame.
  - intros [ ? | (a & sa & Ha & <- & Hsa & Hd & Hreq) ]; [ by left; left | ].
    apply elem_of_cons in Ha as [ -> | Ha ].
    + left. right. repeat split; [ done | ]. by exists sa.
    + right. exists a, sa. repeat split; [ done.. | | done ].
      by rewrite Hsame.
Qed.

Lemma check_loop_regexp attrs violations d violations' d' :
  NoDup (attr_pk <$> attrs) →
  for_acc attrs body violations d = (Ok violations', d') →
  ∀ k, k ∈ violations'.1
       ↔ k ∈ violations.1
         ∨ ∃ attribute stype_attr v new,
             attribute ∈ attrs ∧ attr_pk attribute = k
             ∧ stype_attrs lookups !! (st_pk servertype, k) = Some stype_attr
             ∧ d' !! k = Some v
             ∧ regexp_violations repr attribute stype_attr v = Ok new
             ∧ k ∈ new.
Proof.
  revert violations d. induction attrs as [ | a0 attrs IH ];
    intros violations d Hnodup Hrun k.
  { simpl in Hrun. injection Hrun as <- <-. split; [ by left | ].
    intros [ ? | (a & ? & ? & ? & ?%elem_of_nil & _) ]; done. }
  apply for_acc_cons_ok in Hrun as (violations1 & d1 & Hstep & Hrest).
  rewrite fmap_cons in Hnodup. apply NoDup_cons in Hnodup as [Hfresh Hnodup].
  rewrite (IH violations1 d1 Hnodup Hrest k).
  pose proof (check_loop_frame attrs violations1 d1) as [Hkeep Hother].
  rewrite Hrest in Hkeep, Hother. simpl in Hkeep, Hother.
  specialize (Hother _ Hfresh).
  assert (k ∈ violations1.1
          ↔ k ∈ violations.1
            ∨ ∃ sa v new,
                k = attr_pk a0
                ∧ stype_attrs lookups !! (st_pk servertype, k) = Some sa
                ∧ d' !! k = Some v
                ∧ regexp_violations repr a0 sa v = Ok new ∧ k ∈ new) as Hhead.
  { inversion Hstep as [ sa v new Hsa Hd Hnew | sa v new Hsa Hd Hfill Hnew
                       | sa Hsa Hd Hfill | sa Hsa Hd Hfill ]; subst; simpl.
    - rewrite elem_of_app. split.
      + intros [ ? | Hk ]; [ by left | right ].
        pose proof (regexp_violations_pk _ _ _ _ _ Hnew Hk) as ->.
        exists sa, v, new. repeat split; [ done | | done.. ]. by apply Hkeep.
      + intros [ ? | (sa' & v' & new' & -> & Hsa' & Hd' & Hnew' & Hk) ];
          [ by left | right ].
        apply Hkeep in Hd. congruence.
    - rewrite elem_of_app. split.
      + intros [ ? | Hk ]; [ by left | right ].
        pose proof (regexp_violations_pk _ _ _ _ _ Hnew Hk) as ->.
        exists sa, v, new. repeat split; [ done | | done.. ].
        by rewrite Hother, lookup_insert_eq.
      + intros [ ? | (sa' & v' & new' & -> & Hsa' & Hd' & Hnew' & Hk) ];
          [ by left | right ].
        rewrite Hother, lookup_insert_eq in Hd'. congruence.
    - split; [ by left | ].
      intros [ ? | (sa' & v' & new' & -> & Hsa' & Hd' & _) ]; [ done | ].
      congruence.
    - split; [ by left | ].
      intros [ ? | (sa' & v' & new' & -> & Hsa' & Hd' & _) ]; [ done | ].
      congruence. }
  rewrite Hhead. split.
  - intros [ [ ? | (sa & v & new & -> & Hsa & Hd & Hnew & Hk) ]
           | (a & sa & v & new & Ha & <- & Hsa & Hd & Hnew & Hk) ].
    + by left.
    + right. exists a0, sa, v, new. repeat split; [ by left | done.. ].
    + right. exists a, sa, v, new. repeat split; [ by right | done.. ].
  - intros [ ? | (a & sa & v & new & Ha & <- & Hsa & Hd & Hnew & Hk) ];
      [ by left; left | ].
    apply elem_of_cons in Ha as [ -> | Ha ].
    + left. right. by exists sa, v, new.
    + right. by exists a, sa, v, new.
Qed.

End loop_invariants.

End loop.

(** ** Defaults and violations *)

Lemma delete_if_present_run key d :
  (b ← contains key; when b (delitem key)) d = (Ok (), delete key d).
Proof.
  rewrite bind_run. unfold contains, gets, delitem.
  destruct (d !! key) as [ v | ] eqn:E.
  - rewrite bool_decide_eq_true_2 by eauto. simpl. by rewrite E.
  - rewrite bool_decide_eq_false_2 by (by intros [? ?]). simpl.
    by rewrite delete_id.
Qed.

Lemma strip_reserved_run d : strip_reserved d = (Ok (), stripped d).
Proof.
  unfold strip_reserved, stripped. revert d.
  induction reserved_keys as [ | key keys IH ]; intros d; simpl; [ done | ].
  rewrite bind_run, delete_if_present_run. apply IH.
Qed.

Lemma lookup_stripped d k :
  stripped d !! k = if decide (k ∈ reserved_keys) then None else d !! k.
Proof.
  unfold stripped. revert d.
  induction reserved_keys as [ | key keys IH ]; intros d; simpl.
  - destruct (decide (k ∈ [])) as [ ?%elem_of_nil | ]; done.
  - rewrite IH. destruct (decide (k ∈ keys)) as [ Hin | Hout ].
    + rewrite decide_True; [ done | by right ].
    + destruct (decide (k = key)) as [ -> | Hne ].
      * rewrite decide_True by (by left). apply lookup_delete_eq.
      * rewrite decide_False by (by intros [ ? | ? ]%elem_of_cons).
        by apply lookup_delete_ne.
Qed.

Lemma lookup_stripped_None d k : d !! k = None → stripped d !! k = None.
Proof. intros Hk. rewrite lookup_stripped. by destruct (decide _). Qed.

Section validation.

Variable lookups : Lookups.
Variable check_attribute_type : string → value → option exception.
Variable typecast : Attribute → string → bool → result value.
Variable repr : value → string.

(** C5. For an attribute of the servertype that the input lacks, after the
    loop has run to its end: a multi attribute is the empty list without a
    usable default and the comma-split, type-cast default otherwise,
    whatever the fill flags; a required scalar has its type-cast default
    when [fill_defaults] is set and the default is usable, and is otherwise
    left out and recorded as a required violation; an optional scalar has
    its type-cast default when [fill_defaults_all] is set and the default
    is usable, and is otherwise left out, without any violation. *)
Theorem missing_attributes_defaulted servertype fill_defaults fill_defaults_all
    (d : gmap string value) violations d' attribute :
  NoDup (attr_pk <$> st_attributes servertype) →
  (strip_reserved;;
   check_attributes lookups check_attribute_type typecast repr servertype
     fill_defaults fill_defaults_all) d = (Ok violations, d') →
  attribute ∈ st_attributes servertype →
  d !! attr_pk attribute = None →
  ∃ stype_attr,
    stype_attrs lookups !! (st_pk servertype, attr_pk attribute)
    = Some stype_attr
    ∧ if attr_multi attribute then
        match usable_default stype_attr with
        | None => d' !! attr_pk attribute = Some (VList [])
        | Some default =>
            ∃ vs, Forall2 (λ piece v, typecast attribute piece true = Ok v)
                    (split_comma default) vs
                  ∧ d' !! attr_pk attribute = Some (VList vs)
        end
      else if sta_required stype_attr then
        match usable_default stype_attr with
        | Some default =>
            if fill_defaults
            then (∃ v, typecast attribute default true = Ok v
                       ∧ d' !! attr_pk attribute = Some v)
                 ∧ attr_pk attribute ∉ violations.2
            else d' !! attr_pk attribute = None
                 ∧ attr_pk attribute ∈ violations.2
        | None => d' !! attr_pk attribute = None
                  ∧ attr_pk attribute ∈ violations.2
        end
      else
        match usable_default stype_attr with
        | Some default =>
            if fill_defaults_all
            then (∃ v, typecast attribute default true = Ok v
                       ∧ d' !! attr_pk attribute = Some v)
                 ∧ attr_pk attribute ∉ violations.2
            else d' !! attr_pk attribute = None
                 ∧ attr_pk attribute ∉ violations.2
        | None => d' !! attr_pk attribute = None
                  ∧ attr_pk attribute ∉ violations.2
        end.
Proof.
  intros Hnodup Hrun Hin Habsent.
  rewrite bind_run, strip_reserved_run in Hrun. unfold check_attributes in Hrun.
  apply lookup_stripped_None in Habsent.
  destruct (check_loop_filled _ _ _ _ _ _ _ _ _ _ _ _ Hnodup Hrun _ Hin)
    as (sa & Hsa & Hfill).
  specialize (Hfill Habsent).
  pose proof (check_loop_required _ _ _ _ _ _ _ _ _ _ _ _ Hnodup Hrun
                (attr_pk attribute)) as Hreq.
  assert (attr_pk attribute ∈ violations.2
          ↔ filling_of attribute sa fill_defaults fill_defaults_all = Required)
    as Hreq'.
  { rewrite Hreq. split.
    - intros [ ?%elem_of_nil | (a & sa' & Ha & Hpk & Hsa' & _ & Hf) ]; [ done | ].
      assert (a = attribute) as ->.
      { apply list_elem_of_lookup in Ha as [i Hi], Hin as [j Hj].
        assert (i = j) as ->; [ | congruence ].
        eapply NoDup_lookup; [ exact Hnodup | | ];
          rewrite list_lookup_fmap; [ by rewrite Hi | by rewrite Hj, Hpk ]. }
      congruence.
    - intros Hf. right. by exists attribute, sa. }
  clear Hreq. exists sa. split; [ done | ].
  unfold filled_value, filling_of, _type_cast_default in *.
  destruct (attr_multi attribute).
  - destruct (usable_default sa) as [ default | ];
      [ | by destruct Hfill as (? & [= <-] & ?) ].
    destruct Hfill as (v & Hv & Hd').
    destruct (typecast_each typecast attribute (split_comma default))
      as [ vs | ] eqn:Evs; [ | done ].
    injection Hv as <-. exists vs. split; [ | done ].
    by apply typecast_each_ok.
  - destruct (sta_required sa).
    + destruct (usable_default sa) as [ default | ].
      * destruct fill_defaults; simpl in *.
        -- split; [ | by rewrite Hreq' ]. destruct Hfill as (v & Hv & Hd'). eauto.
        -- split; [ done | by apply Hreq' ].
      * destruct fill_defaults; simpl in *; (split; [ done | by apply Hreq' ]).
    + destruct (usable_default sa) as [ default | ].
      * destruct fill_defaults_all; simpl in *.
        -- split; [ | by rewrite Hreq' ]. destruct Hfill as (v & Hv & Hd'). eauto.
        -- split; [ done | by rewrite Hreq' ].
      * destruct fill_defaults_all; simpl in *;
          (split; [ done | by rewrite Hreq' ]).
Qed.

Lemma attr_pk_inj (attrs : list Attribute) a b :
  NoDup (attr_pk <$> attrs) → a ∈ attrs → b ∈ attrs →
  attr_pk a = attr_pk b → a = b.
Proof.
  intros Hnodup [i Hi]%list_elem_of_lookup [j Hj]%list_elem_of_lookup Hpk.
  assert (i = j) as ->; [ | congruence ].
  eapply NoDup_lookup; [ exact Hnodup | | ];
    rewrite list_lookup_fmap; [ by rewrite Hi | by rewrite Hj, Hpk ].
Qed.

Lemma filling_required attribute stype_attr fill_defaults fill_defaults_all :
  filling_of attribute stype_attr fill_defaults fill_defaults_all = Required
  ↔ attr_multi attribute = false ∧ sta_required stype_attr = true
    ∧ (fill_defaults = false ∨ usable_default stype_attr = None).
Proof.
  unfold filling_of.
  destruct (attr_multi attribute), (sta_required stype_attr), fill_defaults,
    fill_defaults_all, (usable_default stype_attr);
    simpl; split; try done; try (by intros (? & ? & [ ? | ? ]));
    intros _; repeat split; auto.
Qed.

Lemma elem_of_keys (d : gmap string value) k :
  k ∈ (map_to_list d).*1 ↔ is_Some (d !! k).
Proof.
  rewrite list_elem_of_fmap. split.
  - intros ([k' v] & -> & Hin). apply elem_of_map_to_list in Hin. eauto.
  - intros [v Hv]. exists (k, v). split; [ done | ].
    by apply elem_of_map_to_list.
Qed.

(** The lists of a loop that has run to its end, and the gate. *)
Lemma violations_exact servertype
    skip_validation fill_defaults fill_defaults_all (d : gmap string value) :
  NoDup (attr_pk <$> st_attributes servertype) →
  match check_attributes lookups check_attribute_type typecast repr servertype
          fill_defaults fill_defaults_all (stripped d) with
  | (Raise e, d') =>
      validate_attributes lookups check_attribute_type typecast repr servertype
        skip_validation fill_defaults fill_defaults_all d = (Raise e, d')
  | (Ok violations, d') =>
      (∀ attribute, attribute ∈ st_attributes servertype →
         ∃ stype_attr,
           stype_attrs lookups !! (st_pk servertype, attr_pk attribute)
           = Some stype_attr
           ∧ (attr_pk attribute ∈ violations.2
              ↔ required_violation (stripped d) attribute stype_attr
                  fill_defaults)
           ∧ (attr_pk attribute ∈ violations.1
              ↔ pattern_violation repr d' attribute stype_attr))
      ∧ (∀ k, k ∈ violations.1 ∨ k ∈ violations.2 →
              k ∈ attr_pk <$> st_attributes servertype)
      ∧ ∃ violations_attribs,
          (∀ k, k ∈ violations_attribs ↔ unknown_violation d' servertype k)
          ∧ validate_attributes lookups check_attribute_type typecast repr
              servertype skip_validation fill_defaults fill_defaults_all d
            = (if skip_validation then Ok ()
               else match violations.1, violations.2, violations_attribs with
                    | [], [], [] => Ok ()
                    | _, _, _ =>
                        Raise (ValidationError violations.1 violations.2
                                 violations_attribs)
                    end, d')
  end.
Proof.
  intros Hnodup.
  destruct (check_attributes _ _ _ _ _ _ _ (stripped d))
    as [[violations | e] d'] eqn:Hrun.
  2: { unfold validate_attributes.
       by rewrite bind_run, strip_reserved_run, bind_run, Hrun. }
  unfold check_attributes in Hrun.
  pose proof (check_loop_filled _ _ _ _ _ _ _ _ _ _ _ _ Hnodup Hrun) as Hfill.
  pose proof (check_loop_required _ _ _ _ _ _ _ _ _ _ _ _ Hnodup Hrun) as Hreq.
  pose proof (check_loop_regexp _ _ _ _ _ _ _ _ _ _ _ _ Hnodup Hrun) as Hre.
  split; [ | split ].
  - intros attribute Hin. destruct (Hfill _ Hin) as (sa & Hsa & _).
    exists sa. split; [ done | ]. split.
    + rewrite Hreq. unfold required_violation. split.
      * intros [ ?%elem_of_nil | (a & sa' & Ha & Hpk & Hsa' & Hnone & Hf) ];
          [ done | ].
        pose proof (attr_pk_inj _ _ _ Hnodup Ha Hin Hpk) as ->.
        replace sa' with sa in Hf by congruence.
        apply filling_required in Hf as (? & ? & ?). done.
      * intros (Hm & Hr & Hnone & Hd). right. exists attribute, sa.
        repeat split; [ done.. | ]. by apply filling_required.
    + rewrite Hre. unfold pattern_violation. split.
      * intros [ ?%elem_of_nil | (a & sa' & v & new & Ha & Hpk & Hsa' & Hv
                                    & Hnew & Hk) ]; [ done | ].
        pose proof (attr_pk_inj _ _ _ Hnodup Ha Hin Hpk) as ->.
        replace sa' with sa in Hnew by congruence.
        apply (regexp_violations_elem _ _ _ _ _ _ Hnew) in Hk
          as (_ & Ht & regexp & Hregexp & Hfail).
        split; [ done | ]. by exists regexp, v.
      * intros (Ht & regexp & v & Hregexp & Hv & Hfail). right.
        assert (∃ new, regexp_violations repr attribute sa v = Ok new)
          as [new Hnew].
        { unfold regexp_violations. rewrite Ht, Hregexp. simpl.
          destruct (attr_multi attribute).
          - destruct Hfail as (vals & _ & -> & _). eauto.
          - destruct Hfail as (s & -> & _). eauto. }
        exists attribute, sa, v, new. repeat split; [ done.. | ].
        apply (regexp_violations_elem _ _ _ _ _ _ Hnew).
        repeat split; [ done | ]. by exists regexp.
  - intros k [ Hk | Hk ].
    + apply Hre in Hk as [ ?%elem_of_nil | (a & _ & _ & _ & Ha & <- & _) ];
        [ done | ]. by apply list_elem_of_fmap_2.
    + apply Hreq in Hk as [ ?%elem_of_nil | (a & _ & Ha & <- & _) ];
        [ done | ]. by apply list_elem_of_fmap_2.
  - exists (filter (λ attr, attr ∉ attr_pk <$> st_attributes servertype)
              (map_to_list d').*1).
    split.
    + intros k. rewrite list_elem_of_filter, elem_of_keys.
      unfold unknown_violation. tauto.
    + unfold validate_attributes, check_attributes.
      rewrite bind_run, strip_reserved_run, bind_run, Hrun.
      unfold handle_violations.
      destruct skip_validation; [ done | ].
      rewrite bind_run. simpl.
      by destruct (violations.1), (violations.2), (filter _ _).
Qed.

Lemma first_error_ext {A} (f g : A → option exception) l :
  (∀ a, a ∈ l → f a = g a) → first_error f l = first_error g l.
Proof.
  induction l as [ | a l IH ]; intros Hsame; simpl; [ done | ].
  rewrite (Hsame a) by (by left).
  rewrite IH; [ done | ]. intros b Hb. apply Hsame. by right.
Qed.

Lemma attribute_error_ext servertype fill_defaults fill_defaults_all d1 d2
    attribute :
  d1 !! attr_pk attribute = d2 !! attr_pk attribute →
  attribute_error lookups check_attribute_type typecast repr servertype
    fill_defaults fill_defaults_all d1 attribute
  = attribute_error lookups check_attribute_type typecast repr servertype
      fill_defaults fill_defaults_all d2 attribute.
Proof. intros Hsame. unfold attribute_error. by rewrite Hsame. Qed.

(** An iteration ends the call exactly with the error of its attribute. *)
Lemma check_attribute_outcome servertype fill_defaults fill_defaults_all
    violations attribute d :
  match attribute_error lookups check_attribute_type typecast repr servertype
          fill_defaults fill_defaults_all d attribute with
  | Some e =>
      (check_attribute_result lookups check_attribute_type typecast repr
         servertype fill_defaults fill_defaults_all violations attribute d).1
      = Raise e
  | None =>
      ∃ violations1,
        (check_attribute_result lookups check_attribute_type typecast repr
           servertype fill_defaults fill_defaults_all violations attribute
           d).1 = Ok violations1
  end.
Proof.
  unfold attribute_error, check_attribute_result.
  destruct (stype_attrs lookups !! _) as [ stype_attr | ]; [ | done ].
  assert (∀ v, match value_error check_attribute_type repr attribute
                       stype_attr v with
               | Some e =>
                   check_present check_attribute_type repr attribute
                     stype_attr violations v = Raise e
               | None =>
                   ∃ violations1,
                     check_present check_attribute_type repr attribute
                       stype_attr violations v = Ok violations1
               end) as Hvalue.
  { intros v. unfold value_error, check_present.
    destruct (check_attribute_type (attr_pk attribute) v); [ done | ].
    destruct (regexp_violations repr attribute stype_attr v); eauto. }
  destruct (d !! attr_pk attribute) as [ v | ]; [ exact (Hvalue v) | ].
  unfold filled_value.
  destruct (filling_of attribute stype_attr fill_defaults fill_defaults_all)
    as [ | default | | ]; simpl; eauto.
  - exact (Hvalue (VList [])).
  - destruct (_type_cast_default typecast attribute default) as [ v | e ];
      [ exact (Hvalue v) | done ].
Qed.

(** The loop ends with the first error along the attributes, and runs to
    its end when there is none. *)
Lemma check_loop_outcome servertype fill_defaults fill_defaults_all attrs
    violations d :
  NoDup (attr_pk <$> attrs) →
  match first_error
          (attribute_error lookups check_attribute_type typecast repr
             servertype fill_defaults fill_defaults_all d) attrs with
  | Some e =>
      (for_acc attrs
         (check_attribute lookups check_attribute_type typecast repr
            servertype fill_defaults fill_defaults_all) violations d).1
      = Raise e
  | None =>
      ∃ violations',
        (for_acc attrs
           (check_attribute lookups check_attribute_type typecast repr
              servertype fill_defaults fill_defaults_all) violations d).1
        = Ok violations'
  end.
Proof.
  revert violations d. induction attrs as [ | a attrs IH ];
    intros violations d Hnodup; simpl; [ eauto | ].
  rewrite fmap_cons in Hnodup. apply NoDup_cons in Hnodup as [Hfresh Hnodup].
  rewrite bind_run, check_attribute_run.
  pose proof (check_attribute_outcome servertype fill_defaults
                fill_defaults_all violations a d) as Hstep.
  pose proof (check_attribute_frame lookups check_attribute_type typecast
                repr servertype fill_defaults fill_defaults_all violations a
                d) as Hframe.
  simpl in Hframe.
  destruct (attribute_error _ _ _ _ _ _ _ d a) as [ e | ].
  - by destruct (check_attribute_result _ _ _ _ _ _ _ _ a d) as [[? | ?] ?];
      simpl in *; simplify_eq.
  - destruct Hstep as [violations1 Hstep].
    destruct (check_attribute_result _ _ _ _ _ _ _ _ a d) as [[? | ?] d1];
      simpl in *; simplify_eq.
    rewrite (first_error_ext _
               (attribute_error lookups check_attribute_type typecast repr
                  servertype fill_defaults fill_defaults_all d1)).
    + by apply IH.
    + intros b Hb. apply attribute_error_ext.
      destruct Hframe as [ -> | (_ & w & ->) ]; [ done | ].
      rewrite lookup_insert_ne; [ done | ].
      intros Heq. apply Hfresh. rewrite Heq. by apply list_elem_of_fmap_2.
Qed.

(** C6. The loop never stops at a violation. What ends it before the gate
    is an error, the first along the attributes of the servertype: a
    failing registry lookup, a default that cannot be cast, a value that
    the type check refuses or a pattern matched against what is no text;
    the call then fails with that error. With no such error the loop runs
    to its end, whatever the violations: every attribute of the servertype
    is in [violations_required] exactly when it is a required violation
    and in [violations_regexp] exactly when it is a pattern violation,
    [violations_attribs] holds exactly the keys that the servertype does
    not declare, and only then [handle_violations] runs: without
    [skip_validation], the call fails with the [ValidationError] that
    carries the three complete lists as soon as one of them is not empty. *)
Theorem violations_collected_before_gate servertype
    skip_validation fill_defaults fill_defaults_all (d : gmap string value) :
  NoDup (attr_pk <$> st_attributes servertype) →
  match first_error
          (attribute_error lookups check_attribute_type typecast repr
             servertype fill_defaults fill_defaults_all (stripped d))
          (st_attributes servertype) with
  | Some e =>
      (check_attributes lookups check_attribute_type typecast repr servertype
         fill_defaults fill_defaults_all (stripped d)).1 = Raise e
      ∧ (validate_attributes lookups check_attribute_type typecast repr
           servertype skip_validation fill_defaults fill_defaults_all d).1
        = Raise e
  | None =>
      ∃ violations d',
        check_attributes lookups check_attribute_type typecast repr servertype
          fill_defaults fill_defaults_all (stripped d) = (Ok violations, d')
        ∧ (∀ attribute, attribute ∈ st_attributes servertype →
             ∃ stype_attr,
               stype_attrs lookups !! (st_pk servertype, attr_pk attribute)
               = Some stype_attr
               ∧ (attr_pk attribute ∈ violations.2
                  ↔ required_violation (stripped d) attribute stype_attr
                      fill_defaults)
               ∧ (attr_pk attribute ∈ violations.1
                  ↔ pattern_violation repr d' attribute stype_attr))
        ∧ (∀ k, k ∈ violations.1 ∨ k ∈ violations.2 →
                k ∈ attr_pk <$> st_attributes servertype)
        ∧ ∃ violations_attribs,
            (∀ k, k ∈ violations_attribs ↔ unknown_violation d' servertype k)
            ∧ validate_attributes lookups check_attribute_type typecast repr
                servertype skip_validation fill_defaults fill_defaults_all d
              = (if skip_validation then Ok ()
                 else match violations.1, violations.2, violations_attribs
                      with
                      | [], [], [] => Ok ()
                      | _, _, _ =>
                          Raise (ValidationError violations.1 violations.2
                                   violations_attribs)
                      end, d')
  end.
Proof.
  intros Hnodup.
  pose proof (check_loop_outcome servertype fill_defaults fill_defaults_all
                (st_attributes servertype) ([], []) (stripped d) Hnodup)
    as Hloop.
  pose proof (violations_exact servertype skip_validation fill_defaults
                fill_defaults_all d Hnodup) as Hexact.
  fold (check_attributes lookups check_attribute_type typecast repr
          servertype fill_defaults fill_defaults_all) in Hloop.
  destruct (first_error _ _) as [ e | ].
  - split; [ exact Hloop | ].
    destruct (check_attributes _ _ _ _ _ _ _ (stripped d))
      as [[violations | e'] d']; simpl in Hloop; simplify_eq.
    by rewrite Hexact.
  - destruct Hloop as [violations Hloop].
    destruct (check_attributes _ _ _ _ _ _ _ (stripped d))
      as [[violations' | e'] d']; simpl in Hloop; simplify_eq.
    by exists violations, d'.
Qed.

End validation.

(** ** Running [create_server] *)

Lemma on_run {A} (d : nat) (m : St (gmap string value) A) σ :
  on d m σ = ((m (deref d σ)).1,
              set_heap (<[d := (m (deref d σ)).2]> (heap σ)) σ).
Proof. unfold on. by destruct (m (deref d σ)). Qed.

Lemma on_db_run {A} (m : St database A) σ :
  on_db m σ = ((m (db σ)).1, set_db (m (db σ)).2 σ).
Proof. unfold on_db. by destruct (m (db σ)). Qed.

Lemma deref_snoc h d D : deref (length h) {| heap := h ++ [d]; db := D |} = d.
Proof.
  unfold deref. simpl. rewrite lookup_app_r by done.
  by rewrite Nat.sub_diag.
Qed.

Lemma deref_snoc2 h d d2 D :
  deref (length h) {| heap := (h ++ [d]) ++ [d2]; db := D |} = d.
Proof.
  unfold deref. simpl. rewrite <- app_assoc, lookup_app_r by done.
  by rewrite Nat.sub_diag.
Qed.

Lemma insert_snoc {A} (h : list A) (d d' : A) :
  <[length h := d']> (h ++ [d]) = h ++ [d'].
Proof.
  rewrite insert_app_r_alt by done. by rewrite Nat.sub_diag.
Qed.

Lemma on_snoc {A} (m : St (gmap string value) A) h d D :
  on (length h) m {| heap := h ++ [d]; db := D |}
  = ((m d).1, {| heap := h ++ [(m d).2]; db := D |}).
Proof.
  unfold on. rewrite deref_snoc. destruct (m d) as [r d']. simpl.
  unfold set_heap. simpl. by rewrite insert_snoc.
Qed.

Lemma deref_app_l l h d D :
  l < length h → deref l {| heap := h ++ [d]; db := D |} =
      deref l {| heap := h; db := D |}.
Proof. intros Hl. unfold deref. simpl. by rewrite lookup_app_l. Qed.

Section run.

Variable lookups : Lookups.
Variable check_attribute_type : string → value → option exception.
Variable typecast : Attribute → string → bool → result value.
Variable ip_address : value → option Z.
Variable repr : value → string.
Variable json_dumps : gmap string value → string.

Lemma prepare_attributes_run attributes servertype
    skip_validation fill_defaults fill_defaults_all σ :
  prepare_attributes lookups check_attribute_type typecast repr attributes
    servertype skip_validation fill_defaults fill_defaults_all σ
  = let out := validate_attributes lookups check_attribute_type typecast repr
                 servertype skip_validation fill_defaults fill_defaults_all
                 (deref attributes σ) in
    (match out.1 with
     | Ok _ => Ok (length (heap σ))
     | Raise e => Raise e
     end, {| heap := heap σ ++ [out.2]; db := db σ |}).
Proof.
  unfold prepare_attributes. rewrite bind_run. unfold dict_copy, set_heap.
  rewrite bind_run, on_snoc. simpl.
  by destruct (validate_attributes _ _ _ _ _ _ _ _ _) as [[[] | e] d'].
Qed.

Lemma _insert_server_run hostname intern_ip segment_id servertype_id project_id
    real_attributes σ :
  _insert_server lookups hostname intern_ip segment_id servertype_id project_id
    real_attributes σ
  = if hostname_exists hostname (db σ)
    then (Raise (CommitError "Server with that hostname already exists"), σ)
    else
      let server := new_server hostname intern_ip segment_id servertype_id
                      project_id (db σ) in
      let out := for_ (map_to_list (deref real_attributes σ))
                   (insert_attribute lookups server)
                   (db_insert_server server (db σ)) in
      (match out.1 with
       | Ok _ => Ok (server_id server)
       | Raise e => Raise e
       end, {| heap := heap σ; db := out.2 |}).
Proof.
  unfold _insert_server. rewrite bind_run.
  rewrite on_db_readonly by apply readonly_gets. simpl.
  destruct (hostname_exists hostname (db σ)); [ done | ]. simpl.
  rewrite bind_run, ret_run, bind_run, on_db_run. simpl.
  rewrite bind_run. rewrite on_readonly by apply readonly_gets. simpl.
  rewrite bind_run, on_db_run. simpl.
  fold (new_server hostname intern_ip segment_id servertype_id project_id (db σ)).
  by destruct (for_ _ _ _) as [[[] | e] D'].
Qed.

Lemma record_add_run real_attributes hostname intern_ip user app σ :
  record_add json_dumps real_attributes hostname intern_ip user app σ
  = (Ok (),
     {| heap := heap σ ++ [created_server (deref real_attributes σ)
                             hostname intern_ip];
        db := db_add_change_add
                (new_change_add json_dumps
                    (deref real_attributes σ) hostname intern_ip
                   app user (db σ))
                (db_add_commit (new_commit app user (db σ)) (db σ)) |}).
Proof.
  unfold record_add. rewrite bind_run. unfold dict_copy, set_heap.
  rewrite bind_run, on_snoc. simpl.
  rewrite bind_run, on_snoc. simpl.
  rewrite bind_run, on_db_run. simpl.
  unfold set_db. simpl.
  rewrite bind_run, on_snoc. simpl.
  rewrite bind_run, on_snoc. unfold getitem. simpl.
  rewrite lookup_insert_ne by done. rewrite lookup_insert_eq. simpl.
  by rewrite on_db_run.
Qed.

Lemma readonly_check_type {S} attr v :
  readonly (check_type check_attribute_type attr v : St S ()).
Proof.
  unfold check_type. destruct (check_attribute_type attr v); auto with readonly.
Qed.

Lemma readonly_require_identity : readonly (require_identity check_attribute_type).
Proof.
  unfold require_identity, contains.
  repeat (first [ apply readonly_bind; [ | intros ? ]
                | apply readonly_when | apply readonly_for; intros ?
                | apply readonly_check_type
                | solve [ auto with readonly ] ]).
Qed.

Lemma readonly_resolve_servertype : readonly (resolve_servertype lookups).
Proof.
  unfold resolve_servertype. apply readonly_bind; [ auto with readonly | ].
  intros [ | | | s | | | ]; auto with readonly.
  destruct (servertypes lookups !! s); auto with readonly.
Qed.

Lemma readonly_resolve_intern_ip : readonly (resolve_intern_ip ip_address).
Proof.
  unfold resolve_intern_ip. apply readonly_bind; [ auto with readonly | ].
  intros v. destruct (is_ip_object v); [ auto with readonly | ].
  destruct (ip_address v); auto with readonly.
Qed.

Lemma create_server_run attributes skip_validation fill_defaults
    fill_defaults_all user app σ :
  create_server lookups check_attribute_type typecast ip_address repr
    json_dumps attributes skip_validation fill_defaults fill_defaults_all
    user app σ
  = create_server_outcome lookups check_attribute_type typecast
      ip_address repr json_dumps
      attributes skip_validation fill_defaults
      fill_defaults_all user app σ.
Proof.
  unfold create_server, create_server_outcome, identity_fields.
  rewrite !bind_run.
  rewrite on_readonly by apply readonly_require_identity.
  pose proof (readonly_require_identity (deref attributes σ)) as Hro.
  destruct (require_identity check_attribute_type (deref attributes σ))
    as [[[] | e] d0]; simpl in *; subst d0; [ | done ].
  rewrite !bind_run.
  rewrite on_readonly by apply readonly_resolve_servertype.
  pose proof (readonly_resolve_servertype (deref attributes σ)) as Hro.
  destruct (resolve_servertype lookups (deref attributes σ))
    as [[servertype | e] d0]; simpl in *; subst d0; [ | done ].
  rewrite !bind_run.
  rewrite on_readonly by apply readonly_getitem.
  pose proof (readonly_getitem "hostname" (deref attributes σ)) as Hro.
  destruct (getitem "hostname" (deref attributes σ))
    as [[hostname | e] d0]; simpl in *; subst d0; [ | done ].
  rewrite !bind_run.
  rewrite on_readonly by apply readonly_resolve_intern_ip.
  pose proof (readonly_resolve_intern_ip (deref attributes σ)) as Hro.
  destruct (resolve_intern_ip ip_address (deref attributes σ))
    as [[intern_ip | e] d0]; simpl in *; subst d0; [ | done ].
  rewrite !bind_run, resolve_segment_run.
  destruct (segment_of check_attribute_type (deref attributes σ) intern_ip
              (db σ)) as [segment_id | e]; [ | done ].
  rewrite !bind_run.
  rewrite on_readonly by apply readonly_gets. simpl.
  rewrite bind_run, prepare_attributes_run. simpl.
  destruct (validate_attributes _ _ _ _ _ _ _ _ (deref attributes σ))
    as [[[] | e] d']; simpl; [ | done ].
  rewrite bind_run, _insert_server_run. simpl.
  destruct (hostname_exists hostname (db σ)); [ done | ].
  rewrite !deref_snoc.
  destruct (for_ (map_to_list d') _ _) as [[[] | e] D']; simpl; [ | done ].
  rewrite bind_run, record_add_run. simpl.
  by rewrite deref_snoc.
Qed.

Lemma only_values_added_refl server D : only_values_added server D D.
Proof.
  repeat split. exists []. split; [ by rewrite app_nil_r | ].
  by intros ? ?%elem_of_nil.
Qed.

Lemma only_values_added_trans server D1 D2 D3 :
  only_values_added server D1 D2 → only_values_added server D2 D3 →
  only_values_added server D1 D3.
Proof.
  intros (? & ? & ? & ? & ? & ? & ? & rows1 & Hrows1 & Hall1)
         (? & ? & ? & ? & ? & ? & ? & rows2 & Hrows2 & Hall2).
  repeat split; try congruence.
  exists (rows1 ++ rows2). split.
  - by rewrite Hrows2, Hrows1, app_assoc.
  - intros row [ ? | ? ]%elem_of_app; auto.
Qed.

Lemma add_attribute_values server attribute v D :
  only_values_added server D (add_attribute server attribute v D).2.
Proof.
  repeat split. exists [(server_id server, attr_pk attribute, v)].
  split; [ done | ]. by intros row ->%list_elem_of_singleton.
Qed.

Lemma add_attributes_values server attribute vals D :
  only_values_added server D
    (for_ vals (add_attribute server attribute) D).2.
Proof.
  revert D. induction vals as [ | v vals IH ]; intros D; simpl.
  - apply only_values_added_refl.
  - rewrite bind_run. simpl.
    eapply only_values_added_trans; [ | apply IH ].
    apply add_attribute_values.
Qed.

Lemma insert_attribute_values server item D :
  only_values_added server D (insert_attribute lookups server item D).2.
Proof.
  unfold insert_attribute, lookup_attribute. rewrite bind_run.
  destruct (attributes lookups !! item.1) as [ attribute | ]; simpl;
    [ | apply only_values_added_refl ].
  destruct (attr_multi attribute); [ | apply add_attribute_values ].
  rewrite bind_run. unfold lift.
  destruct (py_iter item.2) as [ vals | e ]; simpl;
    [ apply add_attributes_values | apply only_values_added_refl ].
Qed.

Lemma insert_attributes_values server items D :
  only_values_added server D
    (for_ items (insert_attribute lookups server) D).2.
Proof.
  revert D. induction items as [ | item items IH ]; intros D; simpl.
  - apply only_values_added_refl.
  - rewrite bind_run.
    pose proof (insert_attribute_values server item D) as Hitem.
    destruct (insert_attribute lookups server item D) as [[[] | e] D1];
      simpl in *; [ | done ].
    eapply only_values_added_trans; [ exact Hitem | apply IH ].
Qed.

(** C1 (amended). A call of [create_server] that returns has written the
    new object, one commit and the [Add] record of that commit for the
    hostname of the object. A call that fails has written neither a commit
    nor an [Add] record; the database is as before the call, or, when the
    failure comes while the attribute values are stored, the new object and
    the values stored so far remain: nothing undoes the insert. So the
    [Add] record never exists without the object, and the object exists
    without it only after such a late failure. *)
Theorem create_server_object_then_record attributes skip_validation
    fill_defaults fill_defaults_all user app σ :
  let out := create_server lookups check_attribute_type typecast ip_address
               repr json_dumps attributes skip_validation fill_defaults
               fill_defaults_all user app σ in
  match out.1 with
  | Ok id =>
      ∃ server commit record,
        server_id server = id
        ∧ server_objects (db out.2) = server_objects (db σ) ++ [server]
        ∧ change_commits (db out.2) = change_commits (db σ) ++ [commit]
        ∧ change_adds (db out.2) = change_adds (db σ) ++ [record]
        ∧ add_commit record = commit_id commit
        ∧ add_hostname record = so_hostname server
  | Raise e =>
      change_commits (db out.2) = change_commits (db σ)
      ∧ change_adds (db out.2) = change_adds (db σ)
      ∧ (db out.2 = db σ
         ∨ ∃ server,
             hostname_exists (so_hostname server) (db σ) = false
             ∧ server_objects (db out.2) = server_objects (db σ) ++ [server]
             ∧ only_values_added server (db_insert_server server (db σ))
                 (db out.2))
  end.
Proof.
  simpl. rewrite create_server_run. unfold create_server_outcome.
  destruct (identity_fields lookups check_attribute_type ip_address
      (db σ) (deref attributes σ)).1
    as [ [[[[servertype hostname] intern_ip] segment_id] project_id] | e ];
    [ | simpl; by auto ].
  simpl.
  destruct (validate_attributes _ _ _ _ _ _ _ _ _).1 as [ [] | e ];
    [ | simpl; by auto ].
  destruct (hostname_exists hostname (db σ)) eqn:Htaken; [ simpl; by auto | ].
  pose proof (insert_attributes_values
                (new_server hostname intern_ip segment_id (st_pk servertype)
                   project_id (db σ))
                (map_to_list (validate_attributes lookups check_attribute_type
                   typecast repr servertype skip_validation fill_defaults
                   fill_defaults_all (deref attributes σ)).2)
                (db_insert_server
                   (new_server hostname intern_ip segment_id (st_pk servertype)
                      project_id (db σ)) (db σ))) as Hvalues.
  destruct (for_ _ _ _) as [[[] | e] D']; simpl in *.
  - destruct Hvalues as (Hobjects & _ & _ & Hcommits & Hadds & _).
    exists (new_server hostname intern_ip segment_id (st_pk servertype)
              project_id (db σ)),
           (new_commit app user D'),
           (new_change_add json_dumps
              (validate_attributes lookups check_attribute_type typecast repr
                 servertype skip_validation fill_defaults fill_defaults_all
                 (deref attributes σ)).2 hostname intern_ip app user D').
    repeat split; simpl.
    + by rewrite Hobjects.
    + by rewrite Hcommits.
    + by rewrite Hadds.
  - pose proof Hvalues as (Hobjects & _ & _ & Hcommits & Hadds & _).
    repeat split; [ done.. | ]. right.
    exists (new_server hostname intern_ip segment_id (st_pk servertype)
              project_id (db σ)).
    split; [ exact Htaken | ]. split; [ exact Hobjects | done ].
Qed.

(** *** What the identity fields are *)

Lemma resolve_servertype_ok d servertype :
  (resolve_servertype lookups d).1 = Ok servertype →
  ∃ s, d !! "servertype" = Some (VStr s)
       ∧ servertypes lookups !! s = Some servertype.
Proof.
  unfold resolve_servertype. rewrite bind_run. unfold getitem.
  destruct (d !! "servertype") as [ [ | | | s | | | ] | ]; try done.
  destruct (servertypes lookups !! s) as [ st | ] eqn:E; [ | done ].
  intros [= <-]. by exists s.
Qed.

Lemma resolve_intern_ip_ok d intern_ip :
  (resolve_intern_ip ip_address d).1 = Ok intern_ip →
  is_ip_object intern_ip = true
  ∧ ∃ v, d !! "intern_ip" = Some v
         ∧ (intern_ip = v ∨ ∃ ip, ip_address v = Some ip
                                   ∧ intern_ip = VIPAddress ip).
Proof.
  unfold resolve_intern_ip. rewrite bind_run. unfold getitem.
  destruct (d !! "intern_ip") as [ v | ]; [ | done ].
  destruct (is_ip_object v) eqn:Ev.
  - intros [= <-]. split; [ done | ]. exists v. auto.
  - destruct (ip_address v) as [ ip | ] eqn:Eip; [ | done ].
    intros [= <-]. split; [ done | ]. exists v. split; [ done | ].
    right. by exists ip.
Qed.

Lemma identity_fields_ok D d servertype hostname intern_ip segment_id
    project_id :
  (identity_fields lookups check_attribute_type ip_address D d).1
  = Ok (servertype, hostname, intern_ip, segment_id, project_id) →
  (resolve_servertype lookups d).1 = Ok servertype
  ∧ d !! "hostname" = Some hostname
  ∧ (resolve_intern_ip ip_address d).1 = Ok intern_ip
  ∧ segment_of check_attribute_type d intern_ip D = Ok segment_id
  ∧ project_id = default VNone (d !! "project").
Proof.
  unfold identity_fields. rewrite !bind_run.
  pose proof (readonly_require_identity d) as Hro.
  destruct (require_identity check_attribute_type d) as [[[] | e] d0];
    simpl in *; subst d0; [ | done ].
  rewrite !bind_run.
  pose proof (readonly_resolve_servertype d) as Hro.
  destruct (resolve_servertype lookups d) as [[st | e] d0];
    simpl in *; subst d0; [ | done ].
  rewrite !bind_run. unfold getitem at 1.
  destruct (d !! "hostname") as [ h | ]; [ | done ].
  rewrite !bind_run.
  pose proof (readonly_resolve_intern_ip d) as Hro.
  destruct (resolve_intern_ip ip_address d) as [[ip | e] d0];
    simpl in *; subst d0; [ | done ].
  rewrite !bind_run.
  destruct (segment_of check_attribute_type d ip D) as [ seg | e ] eqn:Eseg;
    [ | done ].
  rewrite bind_run. simpl. intros [= <- <- <- <- <-]. done.
Qed.

(** *** What the validated attribute set is *)

Lemma validate_attributes_stripped servertype skip_validation fill_defaults
    fill_defaults_all d :
  validate_attributes lookups check_attribute_type typecast repr servertype
    skip_validation fill_defaults fill_defaults_all d
  = (violations ← check_attributes lookups check_attribute_type typecast repr
                    servertype fill_defaults fill_defaults_all;
     violations_attribs ← unknown_attributes servertype;
     handle_violations skip_validation violations.1 violations.2
       violations_attribs) (stripped d).
Proof.
  unfold validate_attributes. by rewrite bind_run, strip_reserved_run.
Qed.

Lemma readonly_handle_violations {S} skip vr vq va :
  readonly (handle_violations skip vr vq va : St S ()).
Proof.
  unfold handle_violations. destruct skip; [ auto with readonly | ].
  destruct vr, vq, va; auto with readonly.
Qed.

Lemma validate_attributes_dict servertype skip_validation fill_defaults
    fill_defaults_all d :
  (validate_attributes lookups check_attribute_type typecast repr servertype
     skip_validation fill_defaults fill_defaults_all d).2
  = (check_attributes lookups check_attribute_type typecast repr servertype
       fill_defaults fill_defaults_all (stripped d)).2.
Proof.
  rewrite validate_attributes_stripped, bind_run.
  destruct (check_attributes _ _ _ _ _ _ _ _) as [[violations | e] d'];
    [ | done ].
  rewrite bind_run. simpl. apply readonly_handle_violations.
Qed.

(** The validated attribute set keeps the input without the reserved keys
    and adds only attributes of the servertype. *)
Lemma validate_attributes_frame servertype skip_validation fill_defaults
    fill_defaults_all d :
  let d' := (validate_attributes lookups check_attribute_type typecast repr
               servertype skip_validation fill_defaults fill_defaults_all
               d).2 in
  (∀ k v, d !! k = Some v → k ∉ reserved_keys → d' !! k = Some v)
  ∧ (∀ k, k ∉ attr_pk <$> st_attributes servertype →
          d' !! k = stripped d !! k).
Proof.
  simpl. rewrite validate_attributes_dict. unfold check_attributes.
  destruct (check_loop_frame lookups check_attribute_type typecast repr
              servertype fill_defaults fill_defaults_all
              (st_attributes servertype) ([], []) (stripped d))
    as [Hkeep Hother].
  split; [ | exact Hother ].
  intros k v Hk Hres. apply Hkeep. rewrite lookup_stripped.
  by rewrite decide_False.
Qed.

(** C10. After a call that returns, the [Add] record holds the JSON
    encoding of a copy of [real_attributes], the attribute set after
    stripping and defaulting, to which the hostname of the input and the
    typed internal IP are added and nothing else. Of [servertype],
    [segment] and [project], a key that the servertype does not declare as
    an attribute of its own is not in that snapshot. *)
Theorem add_record_snapshot attributes skip_validation fill_defaults
    fill_defaults_all user app σ id :
  let out := create_server lookups check_attribute_type typecast ip_address
               repr json_dumps attributes skip_validation fill_defaults
               fill_defaults_all user app σ in
  out.1 = Ok id →
  ∃ servertype s hostname intern_ip record,
    deref attributes σ !! "servertype" = Some (VStr s)
    ∧ servertypes lookups !! s = Some servertype
    ∧ deref attributes σ !! "hostname" = Some hostname
    ∧ (resolve_intern_ip ip_address (deref attributes σ)).1 = Ok intern_ip
    ∧ is_ip_object intern_ip = true
    ∧ change_adds (db out.2) = change_adds (db σ) ++ [record]
    ∧ let real_attributes := deref (length (heap σ)) out.2 in
      let snapshot := created_server real_attributes hostname intern_ip in
      real_attributes
      = (validate_attributes lookups check_attribute_type typecast repr
           servertype skip_validation fill_defaults fill_defaults_all
           (deref attributes σ)).2
      ∧ add_attributes_json record = json_dumps snapshot
      ∧ add_hostname record = hostname
      ∧ snapshot !! "hostname" = Some hostname
      ∧ snapshot !! "intern_ip" = Some intern_ip
      ∧ (∀ k, k ≠ "hostname" → k ≠ "intern_ip" →
              snapshot !! k = real_attributes !! k)
      ∧ (∀ k, k ∈ ["servertype"; "segment"; "project"] →
              k ∉ attr_pk <$> st_attributes servertype →
              snapshot !! k = None).
Proof.
  simpl. rewrite create_server_run. unfold create_server_outcome.
  destruct (identity_fields lookups check_attribute_type ip_address
      (db σ) (deref attributes σ)).1
    as [ [[[[servertype hostname] intern_ip] segment_id] project_id] | e ]
    eqn:Hid; [ | done ].
  apply identity_fields_ok in Hid as (Hst & Hhost & Hip & _ & _).
  apply resolve_servertype_ok in Hst as (s & Hs & Hst).
  pose proof (resolve_intern_ip_ok _ _ Hip) as [Hobj _].
  simpl.
  pose proof (validate_attributes_frame servertype skip_validation
                fill_defaults fill_defaults_all (deref attributes σ))
    as [_ Hother].
  simpl in Hother.
  destruct (validate_attributes _ _ _ _ _ _ _ _ _) as [[[] | e] d'] eqn:Hval;
    simpl in *; [ | done ].
  destruct (hostname_exists hostname (db σ)); [ done | ].
  pose proof (insert_attributes_values
                (new_server hostname intern_ip segment_id (st_pk servertype)
                   project_id (db σ)) (map_to_list d')
                (db_insert_server
                   (new_server hostname intern_ip segment_id (st_pk servertype)
                      project_id (db σ)) (db σ))) as Hvalues.
  destruct (for_ _ _ _) as [[[] | e] D']; simpl in *; [ | done ].
  destruct Hvalues as (_ & _ & _ & _ & Hadds & _).
  intros _.
  exists servertype, s, hostname, intern_ip,
    (new_change_add json_dumps d' hostname intern_ip app user D').
  rewrite !deref_snoc2.
  split_and!; try done.
  - by rewrite Hadds.
  - by rewrite Hval.
  - unfold created_server. rewrite lookup_insert_ne by done.
    by rewrite lookup_insert_eq.
  - unfold created_server. by rewrite lookup_insert_eq.
  - intros k Hk1 Hk2. unfold created_server.
    by rewrite !lookup_insert_ne by done.
  - intros k Hk Hundeclared. unfold created_server.
    assert (k ≠ "hostname" ∧ k ≠ "intern_ip" ∧ k ∈ reserved_keys)
      as (Hk1 & Hk2 & Hres).
    { unfold reserved_keys.
      repeat (apply elem_of_cons in Hk as [ -> | Hk ];
              [ repeat split; [ done | done | ];
                repeat (first [ by left | right ]) | ]).
      by apply elem_of_nil in Hk. }
    rewrite !lookup_insert_ne by done.
    rewrite Hother by done. rewrite lookup_stripped. by rewrite decide_True.
Qed.

(** *** The input dictionary and its [comment] key *)

Section same_results.

Variables d1 d2 : gmap string value.
Hypothesis Hagree : agree_off "comment" d1 d2.

Lemma same_result_bind {A B} (m : St (gmap string value) A)
    (f : A → St (gmap string value) B) :
  readonly m → same_result d1 d2 m → (∀ a, same_result d1 d2 (f a)) →
  same_result d1 d2 (m ≫= f).
Proof using Type.
  unfold same_result. intros Hro Hm Hf. rewrite !bind_run.
  pose proof (Hro d1) as H1. pose proof (Hro d2) as H2.
  destruct (m d1) as [r1 s1], (m d2) as [r2 s2]; simpl in *; subst.
  destruct r2; [ apply Hf | done ].
Qed.

Lemma same_result_const {A} (r : result A) :
  same_result d1 d2 (λ d, (r, d)).
Proof using Type. done. Qed.

Lemma same_result_contains k : k ≠ "comment" → same_result d1 d2 (contains k).
Proof using Hagree.
  intros Hk. unfold same_result, contains, gets. simpl. by rewrite Hagree.
Qed.

Lemma same_result_getitem k : k ≠ "comment" → same_result d1 d2 (getitem k).
Proof using Hagree.
  intros Hk. unfold same_result, getitem. rewrite Hagree by done.
  by destruct (d2 !! k).
Qed.

Lemma same_result_get k : k ≠ "comment" → same_result d1 d2 (get k).
Proof using Hagree.
  intros Hk. unfold same_result, get, gets. simpl. by rewrite Hagree.
Qed.

Lemma same_result_checked_item k :
  k ≠ "comment" →
  same_result d1 d2 (v ← getitem k; check_type check_attribute_type k v).
Proof using Hagree.
  intros Hk. apply same_result_bind.
  - apply readonly_getitem.
  - by apply same_result_getitem.
  - intros v. unfold same_result, check_type.
    by destruct (check_attribute_type k v).
Qed.

Lemma same_result_required k msg (rest : St (gmap string value) ()) :
  k ≠ "comment" → same_result d1 d2 rest →
  same_result d1 d2
      (b ← contains k; when (negb b) (raise (CommitError msg));; rest).
Proof using Hagree.
  intros Hk Hrest. apply same_result_bind.
  - apply readonly_gets.
  - by apply same_result_contains.
  - intros b. apply same_result_bind.
    + apply readonly_when, readonly_raise.
    + by destruct b.
    + done.
Qed.

Lemma identity_fields_same D :
  same_result d1 d2 (identity_fields lookups check_attribute_type ip_address D).
Proof using Hagree.
  unfold identity_fields. apply same_result_bind.
  - apply readonly_require_identity.
  - unfold require_identity.
    repeat (apply same_result_required; [ done | ]).
    simpl.
    repeat (apply same_result_bind;
            [ apply readonly_bind;
              [ apply readonly_getitem | intros ?; apply readonly_check_type ]
            | by apply same_result_checked_item | intros _ ]).
    done.
  - intros _. apply same_result_bind.
    { apply readonly_resolve_servertype. }
    { unfold resolve_servertype. apply same_result_bind.
      - apply readonly_getitem.
      - by apply same_result_getitem.
      - intros [ | | | s | | | ]; try done.
        by destruct (servertypes lookups !! s). }
    intros servertype. apply same_result_bind.
    { apply readonly_getitem. }
    { by apply same_result_getitem. }
    intros hostname. apply same_result_bind.
    { apply readonly_resolve_intern_ip. }
    { unfold resolve_intern_ip. apply same_result_bind.
      - apply readonly_getitem.
      - by apply same_result_getitem.
      - intros v. destruct (is_ip_object v); [ done | ].
        by destruct (ip_address v). }
    intros intern_ip. apply same_result_bind.
    { by intros d. }
    { unfold same_result, segment_of. simpl. by rewrite Hagree. }
    intros segment_id. apply same_result_bind.
    { apply readonly_gets. }
    { by apply same_result_get. }
    by intros project_id.
Qed.

Lemma stripped_same : stripped d1 = stripped d2.
Proof using Hagree.
  apply map_eq. intros k. rewrite !lookup_stripped.
  destruct (decide (k ∈ reserved_keys)) as [ | Hk ]; [ done | ].
  apply Hagree. intros ->. apply Hk. unfold reserved_keys.
  do 2 right. by left.
Qed.

End same_results.

Lemma create_server_outcome_same attributes skip_validation fill_defaults
    fill_defaults_all user app σ1 σ2 :
  db σ1 = db σ2 →
  agree_off "comment" (deref attributes σ1) (deref attributes σ2) →
  let out1 := create_server_outcome lookups check_attribute_type typecast
      ip_address repr json_dumps
      attributes skip_validation fill_defaults
                fill_defaults_all user app σ1 in
  let out2 := create_server_outcome lookups check_attribute_type typecast
      ip_address repr json_dumps
      attributes skip_validation fill_defaults
                fill_defaults_all user app σ2 in
  out1.1 = out2.1 ∧ db out1.2 = db out2.2.
Proof.
  intros Hdb Hagree. simpl. unfold create_server_outcome.
  rewrite (identity_fields_same _ _ Hagree (db σ1)), Hdb.
  destruct (identity_fields lookups check_attribute_type ip_address
      (db σ2) (deref attributes σ2)).1
    as [ [[[[servertype hostname] intern_ip] segment_id] project_id] | e ];
    [ | done ].
  rewrite !(validate_attributes_stripped _ _ _ _ (deref attributes σ1)).
  rewrite !(validate_attributes_stripped _ _ _ _ (deref attributes σ2)).
  rewrite (stripped_same _ _ Hagree).
  match goal with
  | |- context [ (?m (stripped (deref attributes σ2))) ] =>
      destruct (m (stripped (deref attributes σ2))) as [[[] | e] d']
  end; simpl; [ | done ].
  destruct (hostname_exists hostname (db σ2)); [ done | ].
  by destruct (for_ _ _ _) as [[[] | e] D'].
Qed.

(** C9. The attribute set is a copy of the input from which [hostname],
    [intern_ip], [comment], [servertype], [segment] and [project] are
    deleted before the defaults are filled and the attributes validated.
    The call leaves every dictionary that existed before it, the input
    among them, as it was. What the input holds under [comment] has no
    effect on the call: with any other value there (or none), the result,
    its violations included, and the database after the call are the
    same. *)
Theorem reserved_keys_stripped_from_copy attributes skip_validation
    fill_defaults fill_defaults_all user app σ :
  let out := create_server lookups check_attribute_type typecast ip_address
               repr json_dumps attributes skip_validation fill_defaults
               fill_defaults_all user app σ in
  (∀ servertype d,
     validate_attributes lookups check_attribute_type typecast repr servertype
       skip_validation fill_defaults fill_defaults_all d
     = (violations ← check_attributes lookups check_attribute_type typecast
                       repr servertype fill_defaults fill_defaults_all;
        violations_attribs ← unknown_attributes servertype;
        handle_violations skip_validation violations.1 violations.2
          violations_attribs) (stripped d)
     ∧ ∀ k, stripped d !! k
            = if decide (k ∈ reserved_keys) then None else d !! k)
  ∧ (∀ l, l < length (heap σ) → heap out.2 !! l = heap σ !! l)
  ∧ deref attributes out.2 = deref attributes σ
  ∧ (∀ comment,
       let σ' := set_heap (<[attributes :=
                              <["comment" := comment]> (deref attributes σ)]>
                             (heap σ)) σ in
       let out' := create_server lookups check_attribute_type typecast
                     ip_address repr json_dumps attributes skip_validation
                     fill_defaults fill_defaults_all user app σ' in
       out'.1 = out.1 ∧ db out'.2 = db out.2).
Proof.
  simpl.
  assert (∀ l, l < length (heap σ) →
            heap (create_server_outcome lookups check_attribute_type typecast
                ip_address repr json_dumps
                attributes skip_validation
                    fill_defaults fill_defaults_all user app σ).2 !! l
            = heap σ !! l) as Hframe.
  { intros l Hl. unfold create_server_outcome.
    destruct (identity_fields lookups check_attribute_type ip_address
        (db σ) (deref attributes σ)).1
      as [ [[[[servertype hostname] intern_ip] segment_id] project_id] | e ];
      [ | done ].
    simpl.
    destruct (validate_attributes _ _ _ _ _ _ _ _ _).1 as [ [] | e ]; simpl;
      [ | by rewrite lookup_app_l ].
    destruct (hostname_exists hostname (db σ)); simpl;
      [ by rewrite lookup_app_l | ].
    destruct (for_ _ _ _).1 as [ [] | e ]; simpl.
    - rewrite <- app_assoc. by rewrite lookup_app_l.
    - by rewrite lookup_app_l. }
  split_and!.
  - intros servertype d. split; [ apply validate_attributes_stripped | ].
    apply lookup_stripped.
  - intros l Hl. rewrite create_server_run. by apply Hframe.
  - rewrite create_server_run. unfold deref.
    destruct (decide (attributes < length (heap σ))) as [ Hl | Hl ].
    + by rewrite Hframe.
    + unfold create_server_outcome.
      assert (deref attributes σ = ∅) as Hempty.
      { unfold deref. rewrite lookup_ge_None_2; [ done | lia ]. }
      unfold identity_fields, require_identity. rewrite Hempty.
      rewrite !bind_run. unfold contains, gets. simpl.
      by rewrite lookup_empty.
  - intros comment. rewrite !create_server_run.
    apply create_server_outcome_same; [ done | ].
    intros k Hk. unfold deref at 1. simpl.
    destruct (decide (attributes < length (heap σ))) as [ Hl | Hl ].
    + rewrite list_lookup_insert_eq by done. simpl.
      by rewrite lookup_insert_ne.
    + rewrite list_insert_ge by lia. done.
Qed.

(** *** Restoring a deleted object *)

Lemma add_attributes_ok server attribute vals D :
  let out := for_ vals (add_attribute server attribute) D in
  out.1 = Ok ()
  ∧ ∀ v, v ∈ vals →
         (server_id server, attr_pk attribute, v) ∈ attribute_values out.2.
Proof.
  revert D. induction vals as [ | v vals IH ]; intros D; simpl.
  - split; [ done | ]. by intros ? ?%elem_of_nil.
  - rewrite bind_run. simpl. destruct (IH (db_add_value
      (server_id server, attr_pk attribute, v) D)) as [Hok Hrows].
    split; [ done | ]. intros w [ -> | Hw ]%elem_of_cons; [ | by apply Hrows ].
    destruct (add_attributes_values server attribute vals
                (db_add_value (server_id server, attr_pk attribute, v) D))
      as (_ & _ & _ & _ & _ & _ & _ & rows & -> & _).
    simpl. apply elem_of_app. left. apply elem_of_app. right. by left.
Qed.

Lemma insert_attributes_ok server items D D' :
  for_ items (insert_attribute lookups server) D = (Ok (), D') →
  ∀ item, item ∈ items →
    ∃ attribute,
      attributes lookups !! item.1 = Some attribute
      ∧ if attr_multi attribute
        then ∃ vals, py_iter item.2 = Ok vals
               ∧ ∀ v, v ∈ vals →
                   (server_id server, attr_pk attribute, v)
                   ∈ attribute_values D'
        else (server_id server, attr_pk attribute, item.2)
             ∈ attribute_values D'.
Proof.
  revert D. induction items as [ | item0 items IH ]; intros D Hrun item Hin;
    [ by apply elem_of_nil in Hin | ].
  simpl in Hrun. rewrite bind_run in Hrun.
  destruct (insert_attribute lookups server item0 D) as [[[] | e] D1] eqn:Hitem;
    [ | done ].
  apply elem_of_cons in Hin as [ -> | Hin ]; [ | by eapply IH ].
  pose proof (insert_attributes_values server items D1) as Hrest.
  rewrite Hrun in Hrest. simpl in Hrest.
  destruct Hrest as (_ & _ & _ & _ & _ & _ & _ & rows & Hrows & _).
  unfold insert_attribute, lookup_attribute in Hitem. rewrite bind_run in Hitem.
  destruct (attributes lookups !! item0.1) as [ attribute | ]; [ | done ].
  exists attribute. split; [ done | ]. simpl in Hitem.
  destruct (attr_multi attribute).
  - rewrite bind_run in Hitem. unfold lift in Hitem.
    destruct (py_iter item0.2) as [ vals | ]; [ | done ].
    exists vals. split; [ done | ]. intros v Hv. rewrite Hrows.
    apply elem_of_app. left.
    destruct (add_attributes_ok server attribute vals D) as [_ Hall].
    rewrite Hitem in Hall. by apply Hall.
  - injection Hitem as <-. rewrite Hrows. simpl.
    apply elem_of_app. left. apply elem_of_app. right. by left.
Qed.

Lemma restore_deleted_run post_hostname change_id σ :
  restore_deleted lookups check_attribute_type typecast ip_address repr
    json_dumps post_hostname change_id σ
  = restore_outcome lookups check_attribute_type typecast ip_address repr json_dumps
      post_hostname change_id σ.
Proof.
  unfold restore_deleted, restore_outcome. rewrite bind_run.
  rewrite on_db_readonly.
  2: { unfold get_change. apply readonly_bind; [ apply readonly_gets | ].
       intros rows. destruct (filter _ rows); auto with readonly. }
  unfold get_change. rewrite bind_run. simpl.
  destruct (filter _ (changes (db σ))) as [ | change rest ]; [ done | ].
  simpl. rewrite bind_run. unfold try_except at 1. rewrite bind_run.
  unfold lift.
  destruct (deleted_with_hostname (change_deleted change)
              (post_get post_hostname)) as [ [ | snapshot found ] | e ].
  - done.
  - simpl. rewrite bind_run. unfold dict_new. rewrite bind_run.
    unfold try_except. rewrite bind_run.
    destruct (create_server _ _ _ _ _ _ _ _ _ _ _ _ _) as [[id | e] σ'].
    + simpl. by rewrite bind_run, on_db_run.
    + by destruct e.
  - by destruct e.
Qed.

Lemma create_server_ok attributes skip_validation fill_defaults
    fill_defaults_all user app σ id :
  (create_server_outcome lookups check_attribute_type typecast
      ip_address repr json_dumps
      attributes skip_validation fill_defaults
     fill_defaults_all user app σ).1 = Ok id →
  ∃ servertype hostname intern_ip segment_id project_id d' D',
    (identity_fields lookups check_attribute_type ip_address
        (db σ) (deref attributes σ)).1
    = Ok (servertype, hostname, intern_ip, segment_id, project_id)
    ∧ validate_attributes lookups check_attribute_type typecast repr
        servertype skip_validation fill_defaults fill_defaults_all
        (deref attributes σ) = (Ok (), d')
    ∧ hostname_exists hostname (db σ) = false
    ∧ for_ (map_to_list d')
        (insert_attribute lookups
           (new_server hostname intern_ip segment_id (st_pk servertype)
              project_id (db σ)))
        (db_insert_server
           (new_server hostname intern_ip segment_id (st_pk servertype)
              project_id (db σ)) (db σ)) = (Ok (), D')
    ∧ id = next_server_id (db σ)
    ∧ db (create_server_outcome lookups check_attribute_type typecast
        ip_address repr json_dumps
        attributes skip_validation fill_defaults
            fill_defaults_all user app σ).2
      = db_add_change_add
          (new_change_add json_dumps d' hostname intern_ip app user D')
          (db_add_commit (new_commit app user D') D').
Proof.
  unfold create_server_outcome.
  destruct (identity_fields lookups check_attribute_type ip_address
      (db σ) (deref attributes σ)).1
    as [ [[[[servertype hostname] intern_ip] segment_id] project_id] | e ];
    [ | done ].
  simpl.
  destruct (validate_attributes _ _ _ _ _ _ _ _ _) as [[[] | e] d'] eqn:Hval;
    simpl; [ | done ].
  destruct (hostname_exists hostname (db σ)) eqn:Htaken; [ done | ].
  destruct (for_ _ _ _) as [[[] | e] D'] eqn:Hins; simpl; [ | done ].
  intros [= <-].
  by exists servertype, hostname, intern_ip, segment_id, project_id, d', D'.
Qed.

Lemma create_server_taken attributes skip_validation fill_defaults
    fill_defaults_all user app σ hostname :
  deref attributes σ !! "hostname" = Some hostname →
  hostname_exists hostname (db σ) = true →
  let out := create_server_outcome lookups check_attribute_type typecast
      ip_address repr json_dumps
      attributes skip_validation fill_defaults
               fill_defaults_all user app σ in
  db out.2 = db σ
  ∧ out.1 = match before_insert lookups check_attribute_type typecast
      ip_address repr
      attributes skip_validation fill_defaults
                    fill_defaults_all σ with
            | Raise e => Raise e
            | Ok _ =>
                Raise (CommitError "Server with that hostname already exists")
            end.
Proof.
  intros Hhost Htaken. simpl. unfold create_server_outcome, before_insert.
  destruct (identity_fields lookups check_attribute_type ip_address
      (db σ) (deref attributes σ)).1
    as [ [[[[servertype h] intern_ip] segment_id] project_id] | e ] eqn:Hid;
    [ | done ].
  apply identity_fields_ok in Hid as (_ & Hh & _).
  assert (h = hostname) as -> by congruence.
  simpl.
  destruct (validate_attributes _ _ _ _ _ _ _ _ _).1 as [ [] | e ]; [ | done ].
  by rewrite Htaken.
Qed.

End run.

(** ** Equality of values and of hostnames *)

(** Induction over values that also covers the elements of a list value. *)
Lemma value_ind_nested (P : value → Prop) :
  P VNone →
  (∀ b, P (VBool b)) →
  (∀ n, P (VInt n)) →
  (∀ s, P (VStr s)) →
  (∀ ip, P (VIPAddress ip)) →
  (∀ version ip n, P (VIPNetwork version ip n)) →
  (∀ l, Forall P l → P (VList l)) →
  ∀ v, P v.
Proof.
  intros HN HB HI HS HA HW HL.
  fix IH 1. intros v. destruct v as [ | b | n | s | ip | version ip n | l ].
  - exact HN.
  - apply HB.
  - apply HI.
  - apply HS.
  - apply HA.
  - apply HW.
  - apply HL. induction l as [ | x l IHl ]; constructor; [ apply IH | exact IHl ].
Qed.

Lemma value_eqb_eq v w : value_eqb v w = true ↔ v = w.
Proof.
  revert w. induction v as [ | b | n | s | ip | version ip n | l IH ]
    using value_ind_nested; intros w; destruct w; simpl;
    try (split; [ done | congruence ]);
    try (rewrite bool_decide_eq_true; split; congruence).
  - rewrite !andb_true_iff, !bool_decide_eq_true. split.
    + by intros [[-> ->] ->].
    + by intros [= -> -> ->].
  - rename l0 into k.
    assert ((fix go (l k : list value) : bool :=
               match l, k with
               | [], [] => true
               | x :: l', y :: k' => value_eqb x y && go l' k'
               | _, _ => false
               end) l k = true ↔ l = k) as ->.
    { revert k. induction IH as [ | x l Hx _ IHl ]; intros [ | y k ].
      - done.
      - split; [ done | congruence ].
      - split; [ done | congruence ].
      - rewrite andb_true_iff, Hx, IHl. split.
        + by intros [-> ->].
        + by intros [= -> ->]. }
    split; congruence.
Qed.

Lemma hostname_exists_spec hostname D :
  hostname_exists hostname D = true
  ↔ ∃ o, o ∈ server_objects D ∧ so_hostname o = hostname.
Proof.
  unfold hostname_exists. rewrite existsb_exists. split.
  - intros (o & Ho & Heq). exists o. split.
    + by apply list_elem_of_In.
    + by apply value_eqb_eq.
  - intros (o & Ho & Heq). exists o. split.
    + by apply list_elem_of_In.
    + by apply value_eqb_eq.
Qed.

(** ** Restoring from a [Delete] snapshot *)

Section restore.

Variable lookups : Lookups.
Variable check_attribute_type : string → value → option exception.
Variable typecast : Attribute → string → bool → result value.
Variable ip_address : value → option Z.
Variable repr : value → string.
Variable json_dumps : gmap string value → string.

Lemma deleted_with_hostname_ok deleted hostname found :
  deleted_with_hostname deleted hostname = Ok found →
  ∀ sobj, sobj ∈ found →
    sobj ∈ deleted ∧ sobj !! "hostname" = Some hostname.
Proof.
  revert found. induction deleted as [ | s0 deleted IH ]; intros found; simpl.
  - intros [= <-] sobj ?%elem_of_nil. done.
  - destruct (s0 !! "hostname") as [ h | ] eqn:Eh; [ | done ].
    destruct (deleted_with_hostname deleted hostname) as [ rest | ]; [ | done ].
    intros [= <-] sobj Hin.
    destruct (value_eqb h hostname) eqn:Eeq.
    + apply elem_of_cons in Hin as [ -> | Hin ].
      * apply value_eqb_eq in Eeq as ->. split; [ by left | done ].
      * destruct (IH rest eq_refl sobj Hin). split; [ by right | done ].
    + destruct (IH rest eq_refl sobj Hin). split; [ by right | done ].
Qed.

End restore.

(** ** The schema views and the registry cache *)

Section schema_cache.

Import schema.

Variable servertype_form : request → option string.
Variable attribute_form : request → option Attribute.
Variable link_form_data : request → option link_form.

Lemma read_lookups_coherent w :
  coherent w → (read_lookups w).1 = Ok (store w).
Proof.
  unfold coherent, read_lookups. intros Hw.
  destruct (cache_version w) as [ v | ]; [ | done ].
  case_bool_decide as Hv; [ | done ]. simpl. f_equal. by eapply Hw.
Qed.

Lemma coherent_cleared (t : tables) w :
  coherent {| store := t;
              cache_version := None;
              next_version := next_version w;
              lookups_version := lookups_version w;
              lookups_tables := lookups_tables w;
              flash := flash w |}.
Proof. by intros v. Qed.

Lemma coherent_flash m w : coherent w → coherent (add_flash m w).2.
Proof. intros Hw v. simpl. apply Hw. Qed.

(** The views that call [_clear_lookups] after their write leave no stale
    registry behind. *)
Lemma add_servertype_coherent req w :
  coherent w → coherent (add_servertype servertype_form req w).2.
Proof.
  intros Hw. unfold add_servertype.
  destruct (is_post req); [ | done ].
  destruct (servertype_form req) as [ name | ]; [ | done ].
  rewrite !bind_run. by intros v.
Qed.

Lemma delete_servertype_coherent req name w :
  coherent w → coherent (delete_servertype req name w).2.
Proof.
  intros Hw. unfold delete_servertype. rewrite bind_run. unfold get_servertype.
  case_bool_decide; [ | done ].
  destruct (is_post req); [ | done ].
  destruct (confirmed req); rewrite !bind_run; intros v; simpl; [ done | ].
  apply Hw.
Qed.

Lemma add_attribute_coherent req w :
  coherent w → coherent (add_attribute attribute_form req w).2.
Proof.
  intros Hw. unfold add_attribute.
  destruct (is_post req); [ | done ].
  destruct (attribute_form req) as [ attribute | ]; [ | done ].
  rewrite !bind_run. by intros v.
Qed.

Lemma delete_attribute_coherent req name w :
  coherent w → coherent (delete_attribute req name w).2.
Proof.
  intros Hw. unfold delete_attribute. rewrite bind_run. unfold get_attribute.
  destruct (filter _ (attribute_rows (store w))) as [ | a rest ]; [ done | ].
  destruct (is_post req && confirmed req); [ | done ].
  rewrite !bind_run. by intros v.
Qed.

Lemma manage_servertype_attr_coherent req servertype_name attrib_name w :
  coherent w →
  coherent (manage_servertype_attr link_form_data req servertype_name
              attrib_name w).2.
Proof.
  intros Hw. unfold manage_servertype_attr. rewrite bind_run.
  unfold get_servertype. case_bool_decide; [ | done ].
  rewrite bind_run.
  assert (∃ instance,
    (match given_name attrib_name with
     | Some name =>
         attrib ← get_attribute name;
         stype_attr ← get_link servertype_name (attr_pk attrib);
         mret (Some stype_attr)
     | None => mret None
     end) w = (instance, w)) as [instance ->].
  { destruct (given_name attrib_name) as [ name | ]; [ | by eexists ].
    rewrite bind_run. unfold get_attribute.
    destruct (filter _ (attribute_rows (store w))) as [ | a rest ];
      [ by eexists | ].
    rewrite bind_run. unfold get_link.
    destruct (filter _ (link_rows (store w))); by eexists. }
  destruct instance as [ instance | e ]; [ | done ].
  destruct (is_post req); [ | done ].
  rewrite bind_run. simpl.
  match goal with
  | |- context [ match ?c with Some _ => _ | None => _ end w ] =>
      destruct c as [ [attrib data] | ]; [ | done ]
  end.
  destruct (filter _ (attribute_rows (store w))) as [ | a rest ]; [ done | ].
  rewrite !bind_run. by intros v.
Qed.

End schema_cache.

(** ** The code at work on the small installation *)

(** C1, as stated, fails: with [skip_validation], an attribute that the
    registry does not know passes the gate, the object row is created, and
    the lookup of the attribute then raises [KeyError]. The object stays,
    without any [Add] record. *)
Lemma create_server_not_atomic :
  let σ := {| heap := [<["nickname" := VStr "x"]> example.input];
              db := example.empty_database |} in
  let out := example.create_server 0 true false false None None σ in
  out.1 = Raise (KeyError "nickname")
  ∧ so_hostname <$> server_objects (db out.2) = [VStr "a.example"]
  ∧ change_commits (db out.2) = []
  ∧ change_adds (db out.2) = [].
Proof. vm_compute. by split_and!. Qed.

(** C4, as stated, fails: the input holds a segment, the empty string, and
    still the segment of the new object is the one of the IP range, and the
    call fails when the table has no range for the address. *)
Lemma empty_segment_is_looked_up :
  let input := <["segment" := VStr ""]>
                 (<["tags" := VList [VStr "a"]]> example.input) in
  let σ := {| heap := [input]; db := example.empty_database |} in
  let out := example.create_server 0 false true false None None σ in
  input !! "segment" = Some (VStr "")
  ∧ out.1 = Ok 1%Z
  ∧ so_segment_id <$> server_objects (db out.2) = [VStr "seg1"]
  ∧ (example.create_server 0 false true false None None
       (with_ip_ranges [] σ)).1
    = Raise (CommitError "Could not determine segment").
Proof. vm_compute. by split_and!. Qed.

(** C3, as stated, fails for [delete_servertype_attr]: the link is deleted
    from the store, the cache entry stays, and the registry still serves
    the deleted link. *)
Lemma delete_servertype_attr_keeps_stale_registry :
  let link := {| schema.link_servertype := "vm";
                 schema.link_attrib := "ram";
                 schema.link_required := true;
                 schema.link_attrib_default := Some "1024";
                 schema.link_regex := None |} in
  let t := {| schema.servertype_rows := ["vm"];
              schema.attribute_rows := [example.ram];
              schema.link_rows := [link];
              schema.value_rows := [] |} in
  let w := {| schema.store := t;
              schema.cache_version := Some 1;
              schema.next_version := 2;
              schema.lookups_version := Some 1;
              schema.lookups_tables := t;
              schema.flash := [] |} in
  let req := {| schema.method := "POST";
                schema.POST := {[ "confirm" := "yes" ]} |} in
  let done := schema.delete_servertype_attr req "vm" "ram" w in
  schema.coherent w
  ∧ done.1 = Ok (schema.redirect "serverdb_view_servertype" ["vm"])
  ∧ schema.link_rows (schema.store done.2) = []
  ∧ schema.cache_version done.2 = Some 1
  ∧ (schema.read_lookups done.2).1 = Ok t
  ∧ ¬ schema.coherent done.2.
Proof.
  simpl. split_and!.
  - by intros v.
  - by vm_compute.
  - by vm_compute.
  - by vm_compute.
  - by vm_compute.
  - intros Hcoherent. specialize (Hcoherent 1 eq_refl eq_refl).
    vm_compute in Hcoherent. discriminate.
Qed.

Lemma missing_attributes_defaulted_witness :
  let run := (strip_reserved;;
              check_attributes example.lookups example.check_attribute_type
                example.typecast example.repr example.vm true false)
               example.input in
  NoDup (attr_pk <$> st_attributes example.vm)
  ∧ run = (Ok (["tags"], []), run.2)
  ∧ example.tags ∈ st_attributes example.vm
  ∧ example.input !! "tags" = None
  ∧ ∃ stype_attr,
      stype_attrs example.lookups !! ("vm", "tags") = Some stype_attr
      ∧ match usable_default stype_attr with
        | None => run.2 !! "tags" = Some (VList [])
        | Some default =>
            ∃ vs, Forall2 (λ piece v,
                             example.typecast example.tags piece true = Ok v)
                    (split_comma default) vs
                  ∧ run.2 !! "tags" = Some (VList vs)
        end.
Proof.
  simpl.
  assert (NoDup (attr_pk <$> st_attributes example.vm)) as H1
    by (apply (bool_decide_unpack _); vm_compute; exact I).
  assert ((strip_reserved;;
           check_attributes example.lookups example.check_attribute_type
             example.typecast example.repr example.vm true false)
            example.input
          = (Ok (["tags"], []),
             ((strip_reserved;;
               check_attributes example.lookups example.check_attribute_type
                 example.typecast example.repr example.vm true false)
                example.input).2)) as H2
    by (vm_compute; reflexivity).
  assert (example.tags ∈ st_attributes example.vm) as H3
    by (simpl; constructor 2; constructor 1).
  assert (example.input !! "tags" = None) as H4 by (vm_compute; reflexivity).
  split; [ exact H1 | ]. split; [ exact H2 | ]. split; [ exact H3 | ].
  split; [ exact H4 | ].
  exact (missing_attributes_defaulted example.lookups
           example.check_attribute_type example.typecast example.repr
           example.vm true false example.input _ _ example.tags H1 H2 H3 H4).
Defined.

Lemma violations_collected_before_gate_witness :
  let input := <["bogus" := VStr "x"]> example.input in
  NoDup (attr_pk <$> st_attributes example.vm)
  ∧ first_error
      (attribute_error example.lookups example.check_attribute_type
         example.typecast example.repr example.vm false false
         (stripped input)) (st_attributes example.vm) = None
  ∧ (check_attributes example.lookups example.check_attribute_type
       example.typecast example.repr example.vm false false
       (stripped input)).1 = Ok (["tags"], ["ram"])
  ∧ (validate_attributes example.lookups example.check_attribute_type
       example.typecast example.repr example.vm false false false input).1
    = Raise (ValidationError ["tags"] ["ram"] ["bogus"])
  ∧ ltac:(let T := type of
            (violations_collected_before_gate example.lookups
               example.check_attribute_type example.typecast example.repr
               example.vm false false false
               (<["bogus" := VStr "x"]> example.input)) in
          match T with _ → ?C => exact C end).
Proof.
  simpl.
  assert (NoDup (attr_pk <$> st_attributes example.vm)) as H1
    by (apply (bool_decide_unpack _); vm_compute; exact I).
  split; [ exact H1 | ].
  split; [ vm_compute; reflexivity | ].
  split; [ vm_compute; reflexivity | ].
  split; [ vm_compute; reflexivity | ].
  exact (violations_collected_before_gate example.lookups
           example.check_attribute_type example.typecast example.repr
           example.vm false false false
           (<["bogus" := VStr "x"]> example.input) H1).
Defined.

(** Without [skip_validation] the call on the example input fails at the
    gate, with the violation of the pattern of [tags] and nothing else. *)
Example validation_reports_tags :
  (validate_attributes example.lookups example.check_attribute_type
     example.typecast example.repr example.vm false true false
     example.input).1
  = Raise (ValidationError ["tags"] [] []).
Proof. vm_compute. reflexivity. Qed.

Lemma add_record_snapshot_witness :
  let σ := {| heap := [<["tags" := VList [VStr "a"]]> example.input];
              db := example.empty_database |} in
  (example.create_server 0 false true false None None σ).1 = Ok 1%Z
  ∧ ltac:(let T := type of
            (add_record_snapshot example.lookups
               example.check_attribute_type example.typecast
               example.ip_address example.repr example.json_dumps
               0 false true false None None
               {| heap := [<["tags" := VList [VStr "a"]]> example.input];
                  db := example.empty_database |} 1%Z) in
          let T' := eval cbv zeta in T in
          match T' with _ → ?C => exact C end).
Proof.
  simpl.
  assert ((example.create_server 0 false true false None None
             {| heap := [<["tags" := VList [VStr "a"]]> example.input];
                db := example.empty_database |}).1 = Ok 1%Z) as H1
    by (vm_compute; reflexivity).
  split; [ exact H1 | ].
  exact (add_record_snapshot example.lookups example.check_attribute_type
           example.typecast example.ip_address example.repr
           example.json_dumps 0 false true false None None _ 1%Z H1).
Defined.

(** Scenario D on the small installation: [b.example] comes back under a
    new id with the attributes of its snapshot; restoring it a second
    time is refused, and no second object appears. *)
Example restore_twice :
  let restore := restore_deleted example.lookups example.check_attribute_type
                   example.typecast example.ip_address example.repr
                   example.json_dumps (Some "b.example") 7%Z in
  let once := restore {| heap := []; db := example.database_after_delete |} in
  let twice := restore once.2 in
  (λ o, (server_id o, so_hostname o)) <$> server_objects (db once.2)
  = [(1%Z, VStr "a.example"); (3%Z, VStr "b.example")]
  ∧ attribute_values (db once.2)
    = [(3%Z, "ram", VStr "2048"); (3%Z, "tags", VStr "a")]
  ∧ server_objects (db twice.2) = server_objects (db once.2)
  ∧ messages (db twice.2)
    = [MsgSuccess "Server restored.";
       MsgError "Server with that hostname already exists"].
Proof. vm_compute. by split_and!. Qed.

(** * Further properties of the code *)

(** ** What [create_server] does to the database *)

Section database_effect.

Variable lookups : Lookups.
Variable check_attribute_type : string → value → option exception.
Variable typecast : Attribute → string → bool → result value.
Variable ip_address : value → option Z.
Variable repr : value → string.
Variable json_dumps : gmap string value → string.

(** Every call either leaves the database alone, or inserts one server under
    the next id at a hostname that was free, stores values for it, and,
    only if it returns, records the commit and the [Add] record. *)
Lemma create_server_effect attributes skip_validation fill_defaults
    fill_defaults_all user app σ :
  let out := create_server lookups check_attribute_type typecast ip_address
               repr json_dumps attributes skip_validation fill_defaults
               fill_defaults_all user app σ in
  (db out.2 = db σ ∧ ∃ e, out.1 = Raise e)
  ∨ ∃ server D',
      server_id server = next_server_id (db σ)
      ∧ hostname_exists (so_hostname server) (db σ) = false
      ∧ only_values_added server (db_insert_server server (db σ)) D'
      ∧ ((db out.2 = D' ∧ ∃ e, out.1 = Raise e)
         ∨ (∃ commit record,
              db out.2 = db_add_change_add record (db_add_commit commit D')
              ∧ out.1 = Ok (server_id server))).
Proof.
  simpl. rewrite create_server_run. unfold create_server_outcome.
  destruct (identity_fields _ _ _ (db σ) (deref attributes σ)).1
    as [ [[[[servertype hostname] intern_ip] segment_id] project_id] | e ];
    [ | left; simpl; eauto ].
  simpl.
  destruct (validate_attributes _ _ _ _ _ _ _ _ _) as [[[] | e] d'];
    simpl; [ | left; eauto ].
  destruct (hostname_exists hostname (db σ)) eqn:Htaken;
    [ left; simpl; eauto | ].
  right.
  exists (new_server hostname intern_ip segment_id (st_pk servertype)
            project_id (db σ)).
  pose proof (insert_attributes_values lookups
                (new_server hostname intern_ip segment_id (st_pk servertype)
                   project_id (db σ)) (map_to_list d')
                (db_insert_server
                   (new_server hostname intern_ip segment_id (st_pk servertype)
                      project_id (db σ)) (db σ))) as Hvalues.
  destruct (for_ _ _ _) as [[[] | e] D']; simpl in *;
    exists D'; (split_and!; [ done | done | done | ]).
  - right. eauto.
  - left. eauto.
Qed.

(** X6. The tables only grow, by at most one object, one commit and one [Add]
    record, and by values of the new object only; the IP ranges, the old
    change log and the messages are never touched, whatever the outcome. *)
Theorem create_server_appends_only attributes skip_validation fill_defaults
    fill_defaults_all user app σ :
  let out := create_server lookups check_attribute_type typecast ip_address
               repr json_dumps attributes skip_validation fill_defaults
               fill_defaults_all user app σ in
  (∃ new, server_objects (db out.2) = server_objects (db σ) ++ new
          ∧ length new ≤ 1)
  ∧ (∃ rows, attribute_values (db out.2) = attribute_values (db σ) ++ rows
             ∧ ∀ row, row ∈ rows → row.1.1 = next_server_id (db σ))
  ∧ (∃ commits, change_commits (db out.2) = change_commits (db σ) ++ commits
                ∧ length commits ≤ 1)
  ∧ (∃ adds, change_adds (db out.2) = change_adds (db σ) ++ adds
             ∧ length adds ≤ 1)
  ∧ ip_ranges (db out.2) = ip_ranges (db σ)
  ∧ changes (db out.2) = changes (db σ)
  ∧ messages (db out.2) = messages (db σ).
Proof.
  intros out.
  destruct (create_server_effect attributes skip_validation fill_defaults
              fill_defaults_all user app σ)
    as [[Hdb _] | (server & D' & Hid & _ & Hvalues & Hout)];
    fold out in Hdb || fold out in Hout.
  - rewrite Hdb. split_and!; try done.
    + exists []. by rewrite app_nil_r; simpl; split; [ | lia ].
    + exists []. rewrite app_nil_r. split; [ done | ]. by intros row ?%elem_of_nil.
    + exists []. by rewrite app_nil_r; simpl; split; [ | lia ].
    + exists []. by rewrite app_nil_r; simpl; split; [ | lia ].
  - destruct Hvalues as (Hobjs & _ & Hranges & Hcommits & Hadds & Hchanges
                         & Hmessages & rows & Hrows & Hrow).
    simpl in *. rewrite Hid in Hrow.
    destruct Hout as [[-> _] | (commit & record & -> & _)]; simpl.
    + rewrite Hobjs, Hrows, Hcommits, Hadds, Hranges, Hchanges, Hmessages.
      split_and!; try done.
      * exists [server]. by split.
      * by exists rows.
      * exists []. by rewrite app_nil_r; simpl; split; [ | lia ].
      * exists []. by rewrite app_nil_r; simpl; split; [ | lia ].
    + rewrite Hobjs, Hrows, Hcommits, Hadds, Hranges, Hchanges, Hmessages.
      split_and!; try done.
      * exists [server]. by split.
      * by exists rows.
      * exists [commit]. by split.
      * exists [record]. by split.
Qed.

(** X7. Hostnames stay unique: a store in which no two objects share a hostname
    is still such a store after the call, whatever the outcome. *)
Theorem create_server_keeps_hostnames_unique attributes skip_validation
    fill_defaults fill_defaults_all user app σ :
  NoDup (so_hostname <$> server_objects (db σ)) →
  NoDup (so_hostname <$>
           server_objects
             (db (create_server lookups check_attribute_type typecast
                    ip_address repr json_dumps attributes skip_validation
                    fill_defaults fill_defaults_all user app σ).2)).
Proof.
  intros Hunique.
  destruct (create_server_effect attributes skip_validation fill_defaults
              fill_defaults_all user app σ)
    as [[Hdb _] | (server & D' & _ & Hfree & Hvalues & Hout)]; simpl in *.
  - by rewrite Hdb.
  - destruct Hvalues as (Hobjs & _). simpl in Hobjs.
    assert (NoDup (so_hostname <$> server_objects D')) as HD'.
    { rewrite Hobjs, fmap_app. simpl.
      apply NoDup_app. split_and!; [ done | | apply NoDup_singleton ].
      intros h Hold ->%list_elem_of_singleton.
      apply list_elem_of_fmap in Hold as (o & Heq & Ho).
      apply not_true_iff_false in Hfree. apply Hfree.
      apply hostname_exists_spec. eauto. }
    by destruct Hout as [[-> _] | (commit & record & -> & _)].
Qed.

End database_effect.

(** ** The stages before the insert *)

Section stages.

Variable lookups : Lookups.
Variable check_attribute_type : string → value → option exception.
Variable typecast : Attribute → string → bool → result value.
Variable ip_address : value → option Z.
Variable repr : value → string.
Variable json_dumps : gmap string value → string.

Lemma require_identity_missing d msg :
  missing_identity d = Some msg →
  require_identity check_attribute_type d = (Raise (CommitError msg), d).
Proof.
  unfold missing_identity, require_identity, contains, gets, when.
  rewrite !bind_run.
  destruct (d !! "hostname") as [ h | ]; simpl; [ | by intros [= <-] ].
  rewrite !bind_run.
  destruct (d !! "servertype") as [ s | ]; simpl; [ | by intros [= <-] ].
  rewrite !bind_run.
  destruct (d !! "project") as [ p | ]; simpl; [ | by intros [= <-] ].
  rewrite !bind_run.
  destruct (d !! "intern_ip") as [ i | ]; simpl; [ | by intros [= <-] ].
  done.
Qed.

Lemma require_identity_present d :
  missing_identity d = None →
  (∀ k v, k ∈ ["hostname"; "servertype"; "project"; "intern_ip"] →
          d !! k = Some v → check_attribute_type k v = None) →
  require_identity check_attribute_type d = (Ok (), d).
Proof.
  unfold missing_identity, require_identity, contains, gets, when.
  rewrite !bind_run.
  destruct (d !! "hostname") as [ h | ] eqn:Hh; simpl; [ | done ].
  rewrite !bind_run.
  destruct (d !! "servertype") as [ s | ] eqn:Hs; simpl; [ | done ].
  rewrite !bind_run.
  destruct (d !! "project") as [ p | ] eqn:Hp; simpl; [ | done ].
  rewrite !bind_run.
  destruct (d !! "intern_ip") as [ i | ] eqn:Hi; simpl; [ | done ].
  intros _ Htypes. unfold getitem, check_type. rewrite !bind_run.
  rewrite Hh, (Htypes "hostname" h) by (done || by left). simpl.
  rewrite !bind_run.
  rewrite Hs, (Htypes "servertype" s) by (done || by right; left). simpl.
  rewrite !bind_run.
  rewrite Hp, (Htypes "project" p) by (done || by right; right; left). simpl.
  rewrite !bind_run.
  rewrite Hi, (Htypes "intern_ip" i)
    by (done || by right; right; right; left).
  done.
Qed.

Lemma require_identity_ok d :
  (require_identity check_attribute_type d).1 = Ok () →
  missing_identity d = None
  ∧ ∀ k v, k ∈ ["hostname"; "servertype"; "project"; "intern_ip"] →
           d !! k = Some v → check_attribute_type k v = None.
Proof.
  unfold missing_identity, require_identity, contains, gets, when.
  rewrite !bind_run.
  destruct (d !! "hostname") as [ h | ] eqn:Hh; simpl; [ | done ].
  rewrite !bind_run.
  destruct (d !! "servertype") as [ s | ] eqn:Hs; simpl; [ | done ].
  rewrite !bind_run.
  destruct (d !! "project") as [ p | ] eqn:Hp; simpl; [ | done ].
  rewrite !bind_run.
  destruct (d !! "intern_ip") as [ i | ] eqn:Hi; simpl; [ | done ].
  unfold getitem, check_type. rewrite !bind_run. rewrite Hh.
  destruct (check_attribute_type "hostname" h) eqn:Th; [ done | ]. simpl.
  rewrite !bind_run. rewrite Hs.
  destruct (check_attribute_type "servertype" s) eqn:Ts; [ done | ]. simpl.
  rewrite !bind_run. rewrite Hp.
  destruct (check_attribute_type "project" p) eqn:Tp; [ done | ]. simpl.
  rewrite !bind_run. rewrite Hi.
  destruct (check_attribute_type "intern_ip" i) eqn:Ti; [ done | ]. simpl.
  intros _. split; [ done | ].
  intros k v Hk Hv.
  repeat (apply elem_of_cons in Hk as [ -> | Hk ]; [ congruence | ]).
  by apply elem_of_nil in Hk.
Qed.

Lemma identity_fields_checked D d fields :
  (identity_fields lookups check_attribute_type ip_address D d).1 = Ok fields →
  (require_identity check_attribute_type d).1 = Ok ().
Proof.
  unfold identity_fields. rewrite bind_run.
  by destruct (require_identity check_attribute_type d) as [[[] | e] d0].
Qed.

(** X1. A call whose input lacks one of [hostname], [servertype], [project] and
    [intern_ip] fails with the [CommitError] of the first one missing, in
    that order, whatever else the input holds; nothing is written and no
    dictionary is created. *)
Theorem create_server_requires_identity attributes skip_validation
    fill_defaults fill_defaults_all user app σ msg :
  missing_identity (deref attributes σ) = Some msg →
  create_server lookups check_attribute_type typecast ip_address repr
    json_dumps attributes skip_validation fill_defaults fill_defaults_all
    user app σ
  = (Raise (CommitError msg), σ).
Proof.
  intros Hmissing. rewrite create_server_run.
  unfold create_server_outcome, identity_fields. rewrite bind_run.
  by rewrite (require_identity_missing _ _ Hmissing).
Qed.

(** X2. With the four identity fields present and well typed, a servertype
    name that the registry does not know fails the call with
    [Unknown servertype: <name>]; nothing is written. *)
Theorem create_server_unknown_servertype attributes skip_validation
    fill_defaults fill_defaults_all user app σ s :
  missing_identity (deref attributes σ) = None →
  (∀ k v, k ∈ ["hostname"; "servertype"; "project"; "intern_ip"] →
          deref attributes σ !! k = Some v →
          check_attribute_type k v = None) →
  deref attributes σ !! "servertype" = Some (VStr s) →
  servertypes lookups !! s = None →
  create_server lookups check_attribute_type typecast ip_address repr
    json_dumps attributes skip_validation fill_defaults fill_defaults_all
    user app σ
  = (Raise (CommitError ("Unknown servertype: " +:+ s)), σ).
Proof.
  intros Hpresent Htypes Hs Hunknown. rewrite create_server_run.
  unfold create_server_outcome, identity_fields. rewrite bind_run.
  rewrite (require_identity_present _ Hpresent Htypes).
  rewrite bind_run. unfold resolve_servertype. rewrite bind_run.
  unfold getitem. by rewrite Hs, Hunknown.
Qed.

(** X3. The object that a successful call stores carries the identity of the
    input: its hostname, the primary key of the servertype that the registry
    holds under the name given, its project, an internal IP that is an
    address object (the one given, or the one parsed from what was given),
    and the segment that lines 61-72 resolve for that address; all four
    identity fields have passed the type check. *)
Theorem create_server_stores_identity attributes skip_validation
    fill_defaults fill_defaults_all user app σ id :
  let d := deref attributes σ in
  let out := create_server lookups check_attribute_type typecast ip_address
               repr json_dumps attributes skip_validation fill_defaults
               fill_defaults_all user app σ in
  out.1 = Ok id →
  ∃ server servertype s given,
    server_objects (db out.2) = server_objects (db σ) ++ [server]
    ∧ server_id server = id
    ∧ d !! "hostname" = Some (so_hostname server)
    ∧ d !! "servertype" = Some (VStr s)
    ∧ servertypes lookups !! s = Some servertype
    ∧ so_servertype_id server = st_pk servertype
    ∧ d !! "project" = Some (so_project_id server)
    ∧ d !! "intern_ip" = Some given
    ∧ is_ip_object (so_intern_ip server) = true
    ∧ (if is_ip_object given then so_intern_ip server = given
       else ∃ ip, ip_address given = Some ip
                  ∧ so_intern_ip server = VIPAddress ip)
    ∧ segment_of check_attribute_type d (so_intern_ip server) (db σ)
      = Ok (so_segment_id server)
    ∧ ∀ k v, k ∈ ["hostname"; "servertype"; "project"; "intern_ip"] →
             d !! k = Some v → check_attribute_type k v = None.
Proof.
  intros d out Hok. subst d out. rewrite create_server_run in *.
  apply create_server_ok in Hok
    as (servertype & hostname & intern_ip & segment_id & project_id & d' & D'
        & Hid & _ & _ & Hins & -> & ->).
  pose proof (identity_fields_checked _ _ _ Hid) as Hchecked.
  apply require_identity_ok in Hchecked as [Hpresent Htypes].
  apply identity_fields_ok in Hid as (Hst & Hh & Hip & Hseg & ->).
  apply resolve_servertype_ok in Hst as (s & Hs & Hst).
  pose proof (insert_attributes_values lookups
                (new_server hostname intern_ip segment_id (st_pk servertype)
                   (default VNone (deref attributes σ !! "project")) (db σ))
                (map_to_list d')
                (db_insert_server
                   (new_server hostname intern_ip segment_id (st_pk servertype)
                      (default VNone (deref attributes σ !! "project"))
                      (db σ)) (db σ))) as Hvalues.
  rewrite Hins in Hvalues. destruct Hvalues as (Hobjs & _).
  unfold missing_identity in Hpresent.
  destruct (deref attributes σ !! "project") as [ p | ] eqn:Hp;
    [ | repeat case_bool_decide; done ].
  unfold resolve_intern_ip, getitem in Hip. rewrite bind_run in Hip.
  destruct (deref attributes σ !! "intern_ip") as [ given | ] eqn:Hgiven;
    [ | done ].
  exists (new_server hostname intern_ip segment_id (st_pk servertype) p
            (db σ)), servertype, s, given.
  simpl in *.
  split_and!; try done.
  - destruct (is_ip_object given) eqn:Hobj; [ by injection Hip as <- | ].
    destruct (ip_address given); [ by injection Hip as <- | done ].
  - destruct (is_ip_object given) eqn:Hobj; [ by injection Hip as <- | ].
    destruct (ip_address given) as [ ip | ]; [ | done ].
    injection Hip as <-. by exists ip.
Qed.

End stages.

(** ** What a validated call stores *)

Section stored_attributes.

Variable lookups : Lookups.
Variable check_attribute_type : string → value → option exception.
Variable typecast : Attribute → string → bool → result value.
Variable ip_address : value → option Z.
Variable repr : value → string.
Variable json_dumps : gmap string value → string.

(** A call that returns leaves its attribute set in the dictionary created
    first, next to the one of the snapshot. *)
Lemma create_server_real_attributes attributes skip_validation fill_defaults
    fill_defaults_all user app σ id :
  let out := create_server lookups check_attribute_type typecast ip_address
               repr json_dumps attributes skip_validation fill_defaults
               fill_defaults_all user app σ in
  out.1 = Ok id →
  ∃ servertype hostname intern_ip segment_id project_id D',
    (identity_fields lookups check_attribute_type ip_address
       (db σ) (deref attributes σ)).1
    = Ok (servertype, hostname, intern_ip, segment_id, project_id)
    ∧ validate_attributes lookups check_attribute_type typecast repr
        servertype skip_validation fill_defaults fill_defaults_all
        (deref attributes σ)
      = (Ok (), deref (length (heap σ)) out.2)
    ∧ id = next_server_id (db σ)
    ∧ for_ (map_to_list (deref (length (heap σ)) out.2))
        (insert_attribute lookups
           (new_server hostname intern_ip segment_id (st_pk servertype)
              project_id (db σ)))
        (db_insert_server
           (new_server hostname intern_ip segment_id (st_pk servertype)
              project_id (db σ)) (db σ)) = (Ok (), D')
    ∧ attribute_values (db out.2) = attribute_values D'.
Proof.
  simpl. rewrite create_server_run. unfold create_server_outcome.
  destruct (identity_fields lookups check_attribute_type ip_address
      (db σ) (deref attributes σ)).1
    as [ [[[[servertype hostname] intern_ip] segment_id] project_id] | e ];
    [ | done ].
  simpl.
  destruct (validate_attributes _ _ _ _ _ _ _ _ _) as [[[] | e] d'] eqn:Hval;
    simpl; [ | done ].
  destruct (hostname_exists hostname (db σ)) eqn:Htaken; [ done | ].
  destruct (for_ _ _ _) as [[[] | e] D'] eqn:Hins; simpl; [ | done ].
  intros [= <-]. rewrite deref_snoc2.
  by exists servertype, hostname, intern_ip, segment_id, project_id, D'.
Qed.

Lemma add_attributes_rows server attribute vals D :
  for_ vals (add_attribute server attribute) D
  = (Ok (),
     (for_ vals (add_attribute server attribute) D).2)
  ∧ attribute_values (for_ vals (add_attribute server attribute) D).2
    = attribute_values D
      ++ ((λ v, (server_id server, attr_pk attribute, v)) <$> vals).
Proof.
  revert D. induction vals as [ | v vals IH ]; intros D; simpl.
  - by rewrite app_nil_r.
  - rewrite bind_run. simpl.
    destruct (IH (db_add_value (server_id server, attr_pk attribute, v) D))
      as [Hrun Hrows].
    split; [ by rewrite Hrun at 1 | ].
    rewrite Hrows. simpl. by rewrite <- app_assoc.
Qed.

Lemma insert_attributes_rows server items D D' :
  for_ items (insert_attribute lookups server) D = (Ok (), D') →
  attribute_values D'
  = attribute_values D ++ flat_map (item_rows lookups (server_id server)) items.
Proof.
  revert D. induction items as [ | item items IH ]; intros D; simpl.
  - intros [= <-]. by rewrite app_nil_r.
  - rewrite bind_run.
    destruct (insert_attribute lookups server item D) as [[[] | e] D1] eqn:Hitem;
      [ | done ].
    intros Hrest. rewrite (IH D1 Hrest), app_assoc. f_equal.
    unfold insert_attribute, lookup_attribute, item_rows in *.
    rewrite bind_run in Hitem.
    destruct (attributes lookups !! item.1) as [ attribute | ]; [ | done ].
    simpl in Hitem. destruct (attr_multi attribute).
    + rewrite bind_run in Hitem. unfold lift in Hitem.
      destruct (py_iter item.2) as [ vals | ]; [ | done ].
      destruct (add_attributes_rows server attribute vals D) as [_ Hrows].
      rewrite Hitem in Hrows. exact Hrows.
    + by injection Hitem as <-.
Qed.

(** X5. The values that a successful call stores are exactly those of its
    attribute set, in the order of the dictionary: one row for a scalar
    attribute, one row for each element of a multi attribute (so none for
    an empty list), under the new id and the key of the registry; every
    key of the set is in the registry, and every multi value could be
    iterated. *)
Theorem create_server_stores_each_value input skip_validation
    fill_defaults fill_defaults_all user app σ id :
  let out := create_server lookups check_attribute_type typecast ip_address
               repr json_dumps input skip_validation fill_defaults
               fill_defaults_all user app σ in
  let real_attributes := deref (length (heap σ)) out.2 in
  out.1 = Ok id →
  attribute_values (db out.2)
  = attribute_values (db σ)
    ++ flat_map (item_rows lookups id) (map_to_list real_attributes)
  ∧ ∀ k v, real_attributes !! k = Some v →
      ∃ attribute,
        attributes lookups !! k = Some attribute
        ∧ (attr_multi attribute = true → ∃ vals, py_iter v = Ok vals).
Proof.
  intros out real_attributes Hok. subst out real_attributes.
  apply create_server_real_attributes in Hok
    as (servertype & hostname & intern_ip & segment_id & project_id & D'
        & _ & _ & -> & Hins & Hvalues).
  split.
  - rewrite Hvalues. by rewrite (insert_attributes_rows _ _ _ _ Hins).
  - intros k v Hk.
    destruct (insert_attributes_ok lookups _ _ _ _ Hins (k, v))
      as (attribute & Hattribute & Hrows).
    { by apply elem_of_map_to_list. }
    exists attribute. split; [ done | ]. intros Hmulti. simpl in Hrows.
    rewrite Hmulti in Hrows. destruct Hrows as (vals & Hvals & _). eauto.
Qed.

(** *** Under validation *)

Lemma validate_attributes_gate servertype fill_defaults fill_defaults_all d d' :
  validate_attributes lookups check_attribute_type typecast repr servertype
    false fill_defaults fill_defaults_all d = (Ok (), d') →
  check_attributes lookups check_attribute_type typecast repr servertype
    fill_defaults fill_defaults_all (stripped d) = (Ok ([], []), d')
  ∧ filter (λ attr, attr ∉ attr_pk <$> st_attributes servertype)
      (map_to_list d').*1 = [].
Proof.
  rewrite validate_attributes_stripped, bind_run.
  destruct (check_attributes _ _ _ _ _ _ _ _) as [[[vr vq] | e] d1];
    [ | done ].
  rewrite bind_run. unfold unknown_attributes, keys, gets. rewrite bind_run.
  simpl. unfold handle_violations.
  destruct vr, vq; try done.
  destruct (filter _ _) eqn:Hunknown; [ | done ].
  intros [= <-]. by rewrite Hunknown.
Qed.

Lemma check_attribute_typed servertype fill_defaults fill_defaults_all
    violations attribute d violations1 d1 :
  check_attribute_result lookups check_attribute_type typecast repr
    servertype fill_defaults fill_defaults_all violations attribute d
  = (Ok violations1, d1) →
  ∀ v, d1 !! attr_pk attribute = Some v →
       check_attribute_type (attr_pk attribute) v = None.
Proof.
  unfold check_attribute_result.
  destruct (stype_attrs lookups !! _) as [ stype_attr | ]; [ | done ].
  assert (∀ v, check_present check_attribute_type repr attribute stype_attr
                 violations v = Ok violations1 →
               check_attribute_type (attr_pk attribute) v = None) as Hpresent.
  { intros v. unfold check_present.
    by destruct (check_attribute_type (attr_pk attribute) v). }
  destruct (d !! attr_pk attribute) as [ v0 | ] eqn:Ed.
  - intros [= Hok <-] v Hv. apply Hpresent. congruence.
  - destruct (filling_of _ _ _ _) as [ | default | | ].
    + intros [= Hok <-] v. rewrite lookup_insert_eq. intros [= <-]. auto.
    + destruct (_type_cast_default typecast attribute default) as [ v0 | ];
        [ | done ].
      intros [= Hok <-] v. rewrite lookup_insert_eq. intros [= <-]. auto.
    + intros [= <- <-] v. congruence.
    + intros [= <- <-] v. congruence.
Qed.

Lemma check_loop_typed servertype fill_defaults fill_defaults_all attrs
    violations d violations' d' :
  NoDup (attr_pk <$> attrs) →
  for_acc attrs
    (check_attribute lookups check_attribute_type typecast repr servertype
       fill_defaults fill_defaults_all) violations d = (Ok violations', d') →
  ∀ attribute v, attribute ∈ attrs → d' !! attr_pk attribute = Some v →
    check_attribute_type (attr_pk attribute) v = None.
Proof.
  revert violations d. induction attrs as [ | a0 attrs IH ];
    intros violations d Hnodup Hrun attribute v Hin Hv;
    [ by apply elem_of_nil in Hin | ].
  simpl in Hrun. rewrite bind_run, check_attribute_run in Hrun.
  destruct (check_attribute_result _ _ _ _ _ _ _ _ a0 d)
    as [[violations1 | e] d1] eqn:Hstep; [ | done ].
  rewrite fmap_cons in Hnodup. apply NoDup_cons in Hnodup as [Hfresh Hnodup].
  apply elem_of_cons in Hin as [ -> | Hin ]; [ | by eapply IH ].
  pose proof (check_loop_frame lookups check_attribute_type typecast repr
                servertype fill_defaults fill_defaults_all attrs violations1
                d1) as [_ Hother].
  rewrite Hrun in Hother. simpl in Hother.
  rewrite (Hother _ Hfresh) in Hv.
  by eapply check_attribute_typed.
Qed.

(** X4. Without [skip_validation], the attribute set of a call that returns
    fits the servertype, when the servertype lists each attribute once:
    every key of the set is an attribute of the servertype; every multi
    attribute and every required attribute of the servertype is in the
    set; no string value fails the pattern of its attribute; and every
    value of the set has passed the type check of its attribute. *)
Theorem create_server_validated_conforms input fill_defaults
    fill_defaults_all user app σ id servertype s :
  let out := create_server lookups check_attribute_type typecast ip_address
               repr json_dumps input false fill_defaults fill_defaults_all
               user app σ in
  let real_attributes := deref (length (heap σ)) out.2 in
  deref input σ !! "servertype" = Some (VStr s) →
  servertypes lookups !! s = Some servertype →
  NoDup (attr_pk <$> st_attributes servertype) →
  out.1 = Ok id →
  (∀ k, is_Some (real_attributes !! k) →
        k ∈ attr_pk <$> st_attributes servertype)
  ∧ ∀ attribute, attribute ∈ st_attributes servertype →
      ∃ stype_attr,
        stype_attrs lookups !! (st_pk servertype, attr_pk attribute)
        = Some stype_attr
        ∧ (attr_multi attribute = true ∨ sta_required stype_attr = true →
           is_Some (real_attributes !! attr_pk attribute))
        ∧ ¬ pattern_violation repr real_attributes attribute stype_attr
        ∧ ∀ v, real_attributes !! attr_pk attribute = Some v →
               check_attribute_type (attr_pk attribute) v = None.
Proof.
  intros out real_attributes Hs Hst Hnodup Hok. subst out real_attributes.
  apply create_server_real_attributes in Hok
    as (servertype' & hostname & intern_ip & segment_id & project_id & D'
        & Hid & Hval & _).
  apply identity_fields_ok in Hid as (Hst' & _).
  apply resolve_servertype_ok in Hst' as (s' & Hs' & Hst').
  assert (servertype' = servertype) as -> by congruence.
  set (d' := deref (length (heap σ)) _) in *. clearbody d'.
  apply validate_attributes_gate in Hval as [Hrun Hunknown].
  unfold check_attributes in Hrun.
  pose proof (check_loop_filled _ _ _ _ _ _ _ _ _ _ _ _ Hnodup Hrun) as Hfill.
  pose proof (check_loop_required _ _ _ _ _ _ _ _ _ _ _ _ Hnodup Hrun) as Hreq.
  pose proof (check_loop_regexp _ _ _ _ _ _ _ _ _ _ _ _ Hnodup Hrun) as Hre.
  pose proof (check_loop_typed _ _ _ _ _ _ _ _ Hnodup Hrun) as Htyped.
  pose proof (check_loop_frame lookups check_attribute_type typecast repr
                servertype fill_defaults fill_defaults_all
                (st_attributes servertype) ([], [])
                (stripped (deref input σ))) as [Hkeep _].
  rewrite Hrun in Hkeep. simpl in Hkeep, Hreq, Hre.
  split.
  - intros k Hk.
    destruct (decide (k ∈ attr_pk <$> st_attributes servertype)) as [ | Hno ];
      [ done | ].
    assert (k ∈ filter (λ attr, attr ∉ attr_pk <$> st_attributes servertype)
              (map_to_list d').*1) as Hin.
    { apply list_elem_of_filter. split; [ done | ]. by apply elem_of_keys. }
    rewrite Hunknown in Hin. by apply elem_of_nil in Hin.
  - intros attribute Hin. destruct (Hfill _ Hin) as (sa & Hsa & Hfilled).
    exists sa. split_and!; [ done | | | intros v Hv; by eapply Htyped ].
    + intros Hneeded.
      destruct (stripped (deref input σ) !! attr_pk attribute) as [ v | ]
        eqn:Hgiven; [ exists v; by apply Hkeep | ].
      specialize (Hfilled eq_refl). unfold filled_value in Hfilled.
      destruct (filling_of attribute sa fill_defaults fill_defaults_all)
        eqn:Hfilling.
      * destruct Hfilled as (v & _ & Hv). eauto.
      * destruct Hfilled as (v & _ & Hv). eauto.
      * assert (attr_pk attribute ∈ ([] : list string)) as Hbad;
          [ | by apply elem_of_nil in Hbad ].
        apply Hreq. right. by exists attribute, sa.
      * unfold filling_of in Hfilling.
        destruct Hneeded as [ Hm | Hr ].
        -- rewrite Hm in Hfilling. by destruct (usable_default sa).
        -- rewrite Hr in Hfilling. destruct (attr_multi attribute).
           ++ by destruct (usable_default sa).
           ++ by destruct (if fill_defaults then _ else _).
    + intros (Ht & regexp & v & Hregexp & Hv & Hfail).
      assert (attr_pk attribute ∈ ([] : list string)) as Hbad;
        [ | by apply elem_of_nil in Hbad ].
      apply Hre. right.
      assert (∃ new, regexp_violations repr attribute sa v = Ok new)
        as [new Hnew].
      { unfold regexp_violations. rewrite Ht, Hregexp. simpl.
        destruct (attr_multi attribute).
        - destruct Hfail as (vals & _ & -> & _). eauto.
        - destruct Hfail as (s0 & -> & _). eauto. }
      exists attribute, sa, v, new. repeat split; [ done.. | ].
      apply (regexp_violations_elem _ _ _ _ _ _ Hnew).
      repeat split; [ done | ]. by exists regexp.
Qed.

(** X21. The type check cannot be skipped: when the input gives an attribute
    of its servertype a value that [check_attribute_type] refuses, the call
    fails and writes nothing, with [skip_validation] as without it. *)
Theorem create_server_type_check_not_skipped input skip_validation
    fill_defaults fill_defaults_all user app σ servertype s attribute v e :
  let out := create_server lookups check_attribute_type typecast ip_address
               repr json_dumps input skip_validation fill_defaults
               fill_defaults_all user app σ in
  deref input σ !! "servertype" = Some (VStr s) →
  servertypes lookups !! s = Some servertype →
  NoDup (attr_pk <$> st_attributes servertype) →
  attribute ∈ st_attributes servertype →
  attr_pk attribute ∉ reserved_keys →
  deref input σ !! attr_pk attribute = Some v →
  check_attribute_type (attr_pk attribute) v = Some e →
  (∃ e', out.1 = Raise e') ∧ db out.2 = db σ.
Proof.
  intros out Hs Hst Hnodup Hin Hfree Hv Hrefused. subst out.
  rewrite create_server_run. unfold create_server_outcome.
  destruct (identity_fields lookups check_attribute_type ip_address
      (db σ) (deref input σ)).1
    as [ [[[[servertype' hostname] intern_ip] segment_id] project_id] | e0 ]
    eqn:Hid; [ | simpl; eauto ].
  apply identity_fields_ok in Hid as (Hst' & _).
  apply resolve_servertype_ok in Hst' as (s' & Hs' & Hst').
  assert (servertype' = servertype) as -> by congruence.
  simpl.
  destruct (validate_attributes _ _ _ _ _ _ _ _ _) as [[[] | e0] d'] eqn:Hval;
    simpl; [ exfalso | eauto ].
  rewrite validate_attributes_stripped, bind_run in Hval.
  destruct (check_attributes lookups check_attribute_type typecast repr
              servertype fill_defaults fill_defaults_all
              (stripped (deref input σ)))
    as [[violations | e0] d1] eqn:Hrun; [ | done ].
  unfold check_attributes in Hrun.
  pose proof (check_loop_typed _ _ _ _ _ _ _ _ Hnodup Hrun attribute v Hin)
    as Htyped.
  pose proof (check_loop_frame lookups check_attribute_type typecast repr
                servertype fill_defaults fill_defaults_all
                (st_attributes servertype) ([], [])
                (stripped (deref input σ))) as [Hkeep _].
  rewrite Hrun in Hkeep. simpl in Hkeep.
  rewrite Htyped in Hrefused; [ done | ].
  apply Hkeep. rewrite lookup_stripped. by rewrite decide_False.
Qed.

End stored_attributes.

(** ** Restoring a deleted object: what is created *)

Section restore_claim.

Variable lookups : Lookups.
Variable check_attribute_type : string → value → option exception.
Variable typecast : Attribute → string → bool → result value.
Variable ip_address : value → option Z.
Variable repr : value → string.
Variable json_dumps : gmap string value → string.

(** When every key of the attribute set is in the registry and every multi
    value can be iterated, the values are stored without failure. *)
Lemma insert_attributes_total server items D :
  Forall (λ item : string * value,
            ∃ attribute,
              attributes lookups !! item.1 = Some attribute
              ∧ (attr_multi attribute = true →
                 ∃ vals, py_iter item.2 = Ok vals)) items →
  (for_ items (insert_attribute lookups server) D).1 = Ok ().
Proof.
  revert D. induction items as [ | item items IH ]; intros D Hall; simpl;
    [ done | ].
  apply Forall_cons in Hall as [(attribute & Hattribute & Hiter) Hall].
  rewrite bind_run.
  assert ((insert_attribute lookups server item D).1 = Ok ()) as Hitem.
  { unfold insert_attribute, lookup_attribute. rewrite bind_run, Hattribute.
    simpl. destruct (attr_multi attribute) eqn:Hmulti; [ | done ].
    destruct (Hiter eq_refl) as [vals Hvals].
    rewrite bind_run. unfold lift. rewrite Hvals.
    by destruct (add_attributes_rows server attribute vals D) as [-> _]. }
  destruct (insert_attribute lookups server item D) as [[[] | e] D1];
    [ by apply IH | done ].
Qed.

(** With both fill flags unset, the validated attribute set holds nothing
    under a reserved key, unless the servertype has a multi attribute of
    that name. *)
Lemma restored_without_reserved servertype skip_validation d d' k :
  NoDup (attr_pk <$> st_attributes servertype) →
  validate_attributes lookups check_attribute_type typecast repr servertype
    skip_validation false false d = (Ok (), d') →
  k ∈ reserved_keys →
  (∀ a, a ∈ st_attributes servertype → attr_pk a = k →
        attr_multi a = false) →
  d' !! k = None.
Proof.
  intros Hnodup Hval Hreserved Hscalar.
  pose proof (validate_attributes_dict lookups check_attribute_type typecast
                repr servertype skip_validation false false d) as Hdict.
  pose proof (validate_attributes_frame lookups check_attribute_type typecast
                repr servertype skip_validation false false d) as [_ Hother].
  rewrite Hval in Hdict, Hother. simpl in Hdict, Hother.
  assert (stripped d !! k = None) as Hstripped
    by (rewrite lookup_stripped; by rewrite decide_True).
  destruct (decide (k ∈ attr_pk <$> st_attributes servertype)) as [ Hin | Hno ];
    [ | by rewrite Hother ].
  apply list_elem_of_fmap in Hin as (a & -> & Ha).
  rewrite validate_attributes_stripped, bind_run in Hval.
  destruct (check_attributes lookups check_attribute_type typecast repr
              servertype false false (stripped d))
    as [[violations | e] d1] eqn:Hrun; [ | done ].
  simpl in Hdict. subst d1. unfold check_attributes in Hrun.
  destruct (check_loop_filled _ _ _ _ _ _ _ _ _ _ _ _ Hnodup Hrun a Ha)
    as (sa & _ & Hfilled).
  specialize (Hfilled Hstripped).
  unfold filled_value, filling_of in Hfilled.
  rewrite (Hscalar a Ha eq_refl) in Hfilled.
  by destruct (sta_required sa).
Qed.

(** With both fill flags unset, the validated attribute set holds only
    what the input holds outside the reserved keys, and what the loop has
    filled in for the multi attributes that the input lacks. *)
Lemma restored_only_snapshot servertype skip_validation d d' k v :
  NoDup (attr_pk <$> st_attributes servertype) →
  validate_attributes lookups check_attribute_type typecast repr servertype
    skip_validation false false d = (Ok (), d') →
  d' !! k = Some v →
  (d !! k = Some v ∧ k ∉ reserved_keys)
  ∨ (stripped d !! k = None
     ∧ ∃ a, a ∈ st_attributes servertype ∧ attr_pk a = k
            ∧ attr_multi a = true).
Proof.
  intros Hnodup Hval Hv.
  pose proof (validate_attributes_dict lookups check_attribute_type typecast
                repr servertype skip_validation false false d) as Hdict.
  pose proof (validate_attributes_frame lookups check_attribute_type typecast
                repr servertype skip_validation false false d)
    as [_ Hother].
  pose proof (check_loop_frame lookups check_attribute_type typecast repr
                servertype false false (st_attributes servertype) ([], [])
                (stripped d)) as [Hkeep _].
  rewrite Hval in Hdict, Hother. simpl in Hdict, Hother.
  rewrite validate_attributes_stripped, bind_run in Hval.
  destruct (check_attributes lookups check_attribute_type typecast repr
              servertype false false (stripped d))
    as [[violations | e] d1] eqn:Hrun; [ | done ].
  simpl in Hdict. subst d1. unfold check_attributes in Hrun.
  rewrite Hrun in Hkeep. simpl in Hkeep.
  destruct (stripped d !! k) as [ v' | ] eqn:Hstripped.
  - left. rewrite (Hkeep _ _ Hstripped) in Hv. injection Hv as ->.
    rewrite lookup_stripped in Hstripped.
    by destruct (decide (k ∈ reserved_keys)).
  - right. split; [ done | ].
    destruct (decide (k ∈ attr_pk <$> st_attributes servertype))
      as [ Hin | Hno ]; [ | rewrite Hother in Hv by done; congruence ].
    apply list_elem_of_fmap in Hin as (a & -> & Ha).
    exists a. split_and!; [ done | done | ].
    destruct (check_loop_filled _ _ _ _ _ _ _ _ _ _ _ _ Hnodup Hrun a Ha)
      as (sa & _ & Hfilled).
    specialize (Hfilled Hstripped).
    unfold filled_value, filling_of in Hfilled.
    destruct (attr_multi a); [ done | ].
    destruct (sta_required sa); simpl in Hfilled; congruence.
Qed.

(** C8 (amended). When the change holds a snapshot with the requested
    hostname, [restore_deleted] runs [create_server] on that snapshot with
    [skip_validation] set and both fill flags unset, reports a
    [CommitError] as an error message and redirects. The restore returns
    and reports success whenever no object has the hostname, the stages
    before the insert succeed and every attribute of the validated set is
    in the registry, a multi one with a value that can be iterated. If
    [create_server] returns, one object is added: under an id that no
    object had, at a hostname that no object had, with the hostname, the
    servertype and the project of the snapshot, with the internal IP of
    the snapshot as an address object and with the segment of the snapshot
    or, without one, the segment looked up for that address. The values
    stored for it are exactly those of the validated attribute set: every
    attribute of the snapshot outside the reserved keys is in it with the
    value of the snapshot and is stored, element by element for a multi
    attribute; it holds nothing else but what the loop fills in for the
    multi attributes that the snapshot lacks, so nothing is stored for
    what the snapshot holds under a reserved key, its [comment]
    included. If an object with the hostname exists
    already, no object and no attribute value is added, and the call fails
    with the [CommitError] of the hostname check unless an earlier step
    has failed before; that [CommitError] becomes the error message of the
    response. *)
Theorem restore_creates_or_rejects post_hostname change_id σ
    change others snapshot found :
  filter (λ c, change_pk c = change_id) (changes (db σ)) = change :: others →
  deleted_with_hostname (change_deleted change) (post_get post_hostname)
  = Ok (snapshot :: found) →
  (∀ o, o ∈ server_objects (db σ) → (server_id o < next_server_id (db σ))%Z) →
  let σ1 := set_heap (heap σ ++ [snapshot]) σ in
  let out := create_server lookups check_attribute_type typecast ip_address
               repr json_dumps (length (heap σ)) true false false None None
               σ1 in
  let restored := restore_deleted lookups check_attribute_type typecast
                    ip_address repr json_dumps post_hostname change_id σ in
  let real_attributes servertype :=
    (validate_attributes lookups check_attribute_type typecast repr
       servertype true false false snapshot).2 in
  snapshot !! "hostname" = Some (post_get post_hostname)
  ∧ restored
    = match out.1 with
      | Ok _ =>
          (Ok (Redirect "serverdb_changes"),
           set_db (db_add_message (MsgSuccess "Server restored.") (db out.2))
             out.2)
      | Raise (CommitError msg) =>
          (Ok (Redirect "serverdb_changes"),
           set_db (db_add_message (MsgError msg) (db out.2)) out.2)
      | Raise e => (Raise e, out.2)
      end
  ∧ (hostname_exists (post_get post_hostname) (db σ) = false →
     ∀ servertype hostname intern_ip segment_id project_id,
       before_insert lookups check_attribute_type typecast ip_address repr
         (length (heap σ)) true false false σ1
       = Ok (servertype, hostname, intern_ip, segment_id, project_id) →
       Forall (λ item : string * value,
                 ∃ attribute,
                   attributes lookups !! item.1 = Some attribute
                   ∧ (attr_multi attribute = true →
                      ∃ vals, py_iter item.2 = Ok vals))
         (map_to_list (real_attributes servertype)) →
       out.1 = Ok (next_server_id (db σ))
       ∧ restored.1 = Ok (Redirect "serverdb_changes")
       ∧ messages (db restored.2)
         = messages (db σ) ++ [MsgSuccess "Server restored."])
  ∧ (∀ id, out.1 = Ok id →
       ∃ server servertype s given,
         server_objects (db restored.2) = server_objects (db σ) ++ [server]
         ∧ server_id server = id
         ∧ (∀ o, o ∈ server_objects (db σ) →
                 server_id o ≠ id ∧ so_hostname o ≠ so_hostname server)
         ∧ snapshot !! "hostname" = Some (so_hostname server)
         ∧ snapshot !! "servertype" = Some (VStr s)
         ∧ servertypes lookups !! s = Some servertype
         ∧ so_servertype_id server = st_pk servertype
         ∧ so_project_id server = default VNone (snapshot !! "project")
         ∧ snapshot !! "intern_ip" = Some given
         ∧ is_ip_object (so_intern_ip server) = true
         ∧ (if is_ip_object given then so_intern_ip server = given
            else ∃ ip, ip_address given = Some ip
                       ∧ so_intern_ip server = VIPAddress ip)
         ∧ segment_of check_attribute_type snapshot (so_intern_ip server)
             (db σ) = Ok (so_segment_id server)
         ∧ attribute_values (db restored.2)
           = attribute_values (db σ)
             ++ flat_map (item_rows lookups id)
                  (map_to_list (real_attributes servertype))
         ∧ (∀ k v, snapshot !! k = Some v → k ∉ reserved_keys →
              real_attributes servertype !! k = Some v
              ∧ ∃ attribute,
                  attributes lookups !! k = Some attribute
                  ∧ if attr_multi attribute
                    then ∃ vals, py_iter v = Ok vals
                           ∧ ∀ x, x ∈ vals →
                               (id, attr_pk attribute, x)
                               ∈ attribute_values (db restored.2)
                    else (id, attr_pk attribute, v)
                         ∈ attribute_values (db restored.2))
         ∧ (NoDup (attr_pk <$> st_attributes servertype) →
            (∀ k v, real_attributes servertype !! k = Some v →
               (snapshot !! k = Some v ∧ k ∉ reserved_keys)
               ∨ (stripped snapshot !! k = None
                  ∧ ∃ a, a ∈ st_attributes servertype ∧ attr_pk a = k
                         ∧ attr_multi a = true))
            ∧ ∀ k, k ∈ reserved_keys →
                (∀ a, a ∈ st_attributes servertype → attr_pk a = k →
                      attr_multi a = false) →
                real_attributes servertype !! k = None)
         ∧ messages (db restored.2)
           = messages (db σ) ++ [MsgSuccess "Server restored."])
  ∧ (hostname_exists (post_get post_hostname) (db σ) = true →
       server_objects (db restored.2) = server_objects (db σ)
       ∧ attribute_values (db restored.2) = attribute_values (db σ)
       ∧ out.1
         = match before_insert lookups check_attribute_type typecast
                   ip_address repr (length (heap σ)) true false false σ1 with
           | Raise e => Raise e
           | Ok _ =>
               Raise (CommitError "Server with that hostname already exists")
           end
       ∧ (∀ fields,
            before_insert lookups check_attribute_type typecast ip_address
              repr (length (heap σ)) true false false σ1 = Ok fields →
            restored.1 = Ok (Redirect "serverdb_changes")
            ∧ messages (db restored.2)
              = messages (db σ)
                ++ [MsgError "Server with that hostname already exists"])).
Proof.
  intros Hchange Hsnap Hids. simpl.
  destruct (deleted_with_hostname_ok _ _ _ Hsnap snapshot) as [_ Hhost];
    [ by left | ].
  assert (deref (length (heap σ)) (set_heap (heap σ ++ [snapshot]) σ)
          = snapshot) as Hderef by apply deref_snoc.
  rewrite restore_deleted_run. unfold restore_outcome.
  rewrite Hchange, Hsnap. rewrite !create_server_run.
  split_and!; [ done | done | | | ].
  - intros Hfree servertype hostname intern_ip segment_id project_id Hbefore
      Hitems.
    unfold before_insert in Hbefore. unfold create_server_outcome.
    rewrite Hderef in Hbefore |- *. simpl in *.
    destruct (identity_fields lookups check_attribute_type ip_address
                (db σ) snapshot).1
      as [ [[[[servertype' hostname'] intern_ip'] segment_id'] project_id']
         | e ] eqn:Hid; [ | done ].
    simpl in Hbefore.
    destruct (validate_attributes lookups check_attribute_type typecast repr
                servertype' true false false snapshot)
      as [[[] | e] d'] eqn:Hval; simpl in Hbefore; [ | done ].
    injection Hbefore as -> -> -> -> ->.
    rewrite Hval in Hitems. simpl in Hitems |- *.
    apply identity_fields_ok in Hid as (_ & Hh & _).
    assert (hostname = post_get post_hostname) as -> by congruence.
    rewrite Hfree.
    pose proof (insert_attributes_total
                  (new_server (post_get post_hostname) intern_ip segment_id
                     (st_pk servertype) project_id (db σ))
                  (map_to_list d')
                  (db_insert_server
                     (new_server (post_get post_hostname) intern_ip
                        segment_id (st_pk servertype) project_id (db σ))
                     (db σ)) Hitems) as Htotal.
    pose proof (insert_attributes_values lookups
                  (new_server (post_get post_hostname) intern_ip segment_id
                     (st_pk servertype) project_id (db σ))
                  (map_to_list d')
                  (db_insert_server
                     (new_server (post_get post_hostname) intern_ip
                        segment_id (st_pk servertype) project_id (db σ))
                     (db σ))) as Hvalues.
    destruct (for_ _ _ _) as [[[] | e] D']; simpl in Htotal; [ | done ].
    destruct Hvalues as (_ & _ & _ & _ & _ & _ & Hmessages & _).
    simpl in Hmessages |- *. by rewrite Hmessages.
  - intros id Hok.
    destruct (create_server_ok _ _ _ _ _ _ _ _ _ _ _ _ _ _ Hok)
      as (servertype & hostname & intern_ip & segment_id & project_id & d'
          & D' & Hid & Hval & Hfree & Hins & -> & Hdb).
    rewrite Hok. simpl. rewrite Hdb. simpl.
    rewrite Hderef in Hid, Hval. simpl in *.
    apply identity_fields_ok in Hid as (Hst & Hh & Hip & Hseg & Hproj).
    apply resolve_servertype_ok in Hst as (s & Hs & Hst).
    pose proof (resolve_intern_ip_ok _ _ _ Hip) as [Hobject _].
    unfold resolve_intern_ip, getitem in Hip. rewrite bind_run in Hip.
    destruct (snapshot !! "intern_ip") as [ given | ] eqn:Hgiven; [ | done ].
    pose proof (insert_attributes_values lookups
                  (new_server hostname intern_ip segment_id (st_pk servertype)
                     project_id (db σ)) (map_to_list d')
                  (db_insert_server
                     (new_server hostname intern_ip segment_id
                        (st_pk servertype) project_id (db σ)) (db σ)))
      as Hvalues.
    rewrite Hins in Hvalues. simpl in Hvalues.
    destruct Hvalues as (Hobjects & _ & _ & _ & _ & _ & Hmessages & _).
    pose proof (insert_attributes_rows lookups _ _ _ _ Hins) as Hrows.
    simpl in Hrows.
    exists (new_server hostname intern_ip segment_id (st_pk servertype)
              project_id (db σ)), servertype, s, given.
    rewrite Hval. simpl.
    split_and!; try done.
    + intros o Ho. split.
      * specialize (Hids o Ho). lia.
      * simpl. intros Heq.
        assert (hostname_exists hostname (db σ) = true) as Htaken
          by (apply hostname_exists_spec; eauto).
        congruence.
    + destruct (is_ip_object given); [ by injection Hip as <- | ].
      destruct (ip_address given) as [ ip | ]; [ | done ].
      injection Hip as <-. by exists ip.
    + intros k v Hk Hres.
      pose proof (validate_attributes_frame lookups check_attribute_type
                    typecast repr servertype true false false snapshot)
        as [Hkeep _].
      rewrite Hval in Hkeep. simpl in Hkeep.
      specialize (Hkeep k v Hk Hres). split; [ done | ].
      destruct (insert_attributes_ok lookups _ _ _ _ Hins (k, v))
        as (attribute & Hattr & Hstored).
      { by apply elem_of_map_to_list. }
      exists attribute. split; [ done | ]. exact Hstored.
    + intros Hnodup. split.
      * intros k v Hk. by eapply restored_only_snapshot.
      * intros k Hk Hscalar. by eapply restored_without_reserved.
    + by rewrite Hmessages.
  - intros Htaken.
    destruct (create_server_taken lookups check_attribute_type typecast
                ip_address repr json_dumps (length (heap σ)) true false false
                None None (set_heap (heap σ ++ [snapshot]) σ)
                (post_get post_hostname)) as [Hdb Hout];
      [ by rewrite Hderef | done | ].
    simpl in Hdb, Hout. rewrite Hout.
    destruct (before_insert _ _ _ _ _ _ _ _ _ _) as [ fields | e ].
    + simpl. rewrite Hdb. by split_and!.
    + destruct e; simpl; rewrite ?Hdb; by split_and!.
Qed.

End restore_claim.

(** ** More on restoring a deleted object *)

Section restore_outcomes.

Variable lookups : Lookups.
Variable check_attribute_type : string → value → option exception.
Variable typecast : Attribute → string → bool → result value.
Variable ip_address : value → option Z.
Variable repr : value → string.
Variable json_dumps : gmap string value → string.

Lemma create_server_side_tables attributes skip_validation fill_defaults
    fill_defaults_all user app σ :
  let out := create_server lookups check_attribute_type typecast ip_address
               repr json_dumps attributes skip_validation fill_defaults
               fill_defaults_all user app σ in
  ip_ranges (db out.2) = ip_ranges (db σ)
  ∧ changes (db out.2) = changes (db σ)
  ∧ messages (db out.2) = messages (db σ).
Proof.
  intros out.
  destruct (create_server_effect lookups check_attribute_type typecast
              ip_address repr json_dumps attributes skip_validation
              fill_defaults fill_defaults_all user app σ)
    as [[Hdb _] | (server & D' & _ & _ & Hvalues & Hout)];
    fold out in Hdb || fold out in Hout.
  - by rewrite Hdb.
  - destruct Hvalues as (_ & _ & Hranges & _ & _ & Hchanges & Hmessages & _).
    simpl in *.
    by destruct Hout as [[-> _] | (commit & record & -> & _)].
Qed.

Lemma deleted_with_hostname_none deleted hostname :
  (∀ sobj, sobj ∈ deleted →
     ∃ h, sobj !! "hostname" = Some h ∧ h ≠ hostname) →
  deleted_with_hostname deleted hostname = Ok [].
Proof.
  induction deleted as [ | s0 deleted IH ]; intros Hall; simpl; [ done | ].
  destruct (Hall s0) as (h & -> & Hne); [ by left | ].
  rewrite IH by (intros sobj Hin; apply Hall; by right).
  destruct (value_eqb h hostname) eqn:Heq; [ | done ].
  by apply value_eqb_eq in Heq.
Qed.

Lemma deleted_with_hostname_broken deleted hostname sobj :
  sobj ∈ deleted → sobj !! "hostname" = None →
  deleted_with_hostname deleted hostname = Raise (KeyError "hostname").
Proof.
  induction deleted as [ | s0 deleted IH ]; intros Hin Hnone;
    [ by apply elem_of_nil in Hin | ].
  simpl. destruct (s0 !! "hostname") as [ h | ] eqn:Hh; [ | done ].
  apply elem_of_cons in Hin as [ -> | Hin ]; [ congruence | ].
  by rewrite IH.
Qed.

(** X8. A restore that finds nothing answers 404 and changes nothing: when no
    change has the id given, or when every snapshot of the change carries
    another hostname than the one posted (a request without [hostname]
    posts [None], which no hostname equals). *)
Theorem restore_deleted_not_found post_hostname change_id σ :
  (∀ change, change ∈ changes (db σ) → change_pk change = change_id →
     ∀ sobj, sobj ∈ change_deleted change →
       ∃ h, sobj !! "hostname" = Some h ∧ h ≠ post_get post_hostname) →
  restore_deleted lookups check_attribute_type typecast ip_address repr
    json_dumps post_hostname change_id σ
  = (Raise Http404, σ).
Proof.
  intros Hnone. rewrite restore_deleted_run. unfold restore_outcome.
  destruct (filter _ (changes (db σ))) as [ | change others ] eqn:Hfilter;
    [ done | ].
  assert (change ∈ filter (λ c, change_pk c = change_id) (changes (db σ)))
    as [Hpk Hin]%list_elem_of_filter by (rewrite Hfilter; by left).
  by rewrite (deleted_with_hostname_none _ _ (Hnone _ Hin Hpk)).
Qed.

(** X9. One snapshot without a hostname breaks the restore of every object of
    its change: the comprehension reads the hostname of each snapshot, so
    the view fails with [KeyError] and changes nothing, even when another
    snapshot of the change has the hostname posted. *)
Theorem restore_deleted_broken_snapshot post_hostname change_id σ change
    others sobj :
  filter (λ c, change_pk c = change_id) (changes (db σ)) = change :: others →
  sobj ∈ change_deleted change →
  sobj !! "hostname" = None →
  restore_deleted lookups check_attribute_type typecast ip_address repr
    json_dumps post_hostname change_id σ
  = (Raise (KeyError "hostname"), σ).
Proof.
  intros Hfilter Hin Hbroken. rewrite restore_deleted_run.
  unfold restore_outcome. rewrite Hfilter.
  by rewrite (deleted_with_hostname_broken _ _ _ Hin Hbroken).
Qed.

(** X10. The view never fails with a [CommitError]: each one becomes an error
    message. A restore that answers redirects to the list of changes and
    has added exactly one message; one that fails has added none. *)
Theorem restore_deleted_reports_commit_errors post_hostname change_id σ :
  let out := restore_deleted lookups check_attribute_type typecast ip_address
               repr json_dumps post_hostname change_id σ in
  match out.1 with
  | Ok answer =>
      answer = Redirect "serverdb_changes"
      ∧ ∃ m, messages (db out.2) = messages (db σ) ++ [m]
  | Raise e =>
      (∀ msg, e ≠ CommitError msg)
      ∧ messages (db out.2) = messages (db σ)
  end.
Proof.
  simpl. rewrite restore_deleted_run. unfold restore_outcome.
  destruct (filter _ (changes (db σ))) as [ | change others ]; [ done | ].
  destruct (deleted_with_hostname _ _) as [ [ | snapshot found ] | e ] eqn:Hfound;
    [ done | | ].
  - pose proof (create_server_side_tables (length (heap σ)) true false false
                  None None (set_heap (heap σ ++ [snapshot]) σ))
      as (_ & _ & Hmessages).
    simpl in Hmessages.
    destruct (create_server _ _ _ _ _ _ _ _ _ _ _ _ _) as [[id | e] σ'];
      simpl in *.
    + split; [ done | ]. rewrite Hmessages. eauto.
    + destruct e; simpl; try (split; [ done | exact Hmessages ]).
      split; [ done | ]. rewrite Hmessages. eauto.
  - assert (∀ msg, e ≠ CommitError msg) as Hno.
    { clear -Hfound. revert e Hfound.
      induction (change_deleted change) as [ | s0 deleted IH ]; intros e;
        simpl; [ done | ].
      destruct (s0 !! "hostname"); [ | by intros [= <-] ].
      destruct (deleted_with_hostname deleted _) as [ rest | e' ];
        [ done | ].
      intros [= <-]. by apply IH. }
    destruct e; simpl; done.
Qed.

Lemma identity_fields_ranges D1 D2 d :
  ip_ranges D1 = ip_ranges D2 →
  identity_fields lookups check_attribute_type ip_address D1 d
  = identity_fields lookups check_attribute_type ip_address D2 d.
Proof. intros Hranges. unfold identity_fields, segment_of. by rewrite Hranges. Qed.

Lemma snoc_ne {A} (l : list A) (x : A) : l ≠ l ++ [x].
Proof.
  intros Heq. apply (f_equal length) in Heq.
  rewrite length_app in Heq. simpl in Heq. lia.
Qed.

Lemma restore_deleted_success post_hostname change_id σ :
  let once := restore_deleted lookups check_attribute_type typecast
                ip_address repr json_dumps post_hostname change_id σ in
  messages (db once.2) = messages (db σ) ++ [MsgSuccess "Server restored."] →
  ∃ change others snapshot found id σ',
    filter (λ c, change_pk c = change_id) (changes (db σ)) = change :: others
    ∧ deleted_with_hostname (change_deleted change) (post_get post_hostname)
      = Ok (snapshot :: found)
    ∧ create_server lookups check_attribute_type typecast ip_address repr
        json_dumps (length (heap σ)) true false false None None
        (set_heap (heap σ ++ [snapshot]) σ) = (Ok id, σ')
    ∧ once.2
      = set_db (db_add_message (MsgSuccess "Server restored.") (db σ')) σ'.
Proof.
  simpl. rewrite restore_deleted_run. unfold restore_outcome.
  destruct (filter _ (changes (db σ))) as [ | change others ] eqn:Hfilter.
  { intros Hbad. by apply snoc_ne in Hbad. }
  destruct (deleted_with_hostname _ _) as [ [ | snapshot found ] | e ]
    eqn:Hfound.
  { intros Hbad. by apply snoc_ne in Hbad. }
  2: { intros Hbad. destruct e; by apply snoc_ne in Hbad. }
  pose proof (create_server_side_tables (length (heap σ)) true false false
                None None (set_heap (heap σ ++ [snapshot]) σ))
    as (_ & _ & Hmessages).
  destruct (create_server _ _ _ _ _ _ _ _ _ _ _ _ _) as [[id | e] σ'] eqn:Hout;
    simpl in Hmessages |- *.
  2: { intros Hbad. destruct e; simpl in Hbad; rewrite ?Hmessages in Hbad;
         try (by apply snoc_ne in Hbad).
       by apply app_inj_tail in Hbad as [_ ?]. }
  intros _. by exists change, others, snapshot, found, id, σ'.
Qed.

(** X11. A restore is not repeatable: after a restore that reported success, the
    same request again adds no object, no attribute value and no change
    record; it answers with the redirect and the error message of the
    hostname check. *)
Theorem restore_deleted_not_repeatable post_hostname change_id σ :
  let once := restore_deleted lookups check_attribute_type typecast
                ip_address repr json_dumps post_hostname change_id σ in
  let twice := restore_deleted lookups check_attribute_type typecast
                 ip_address repr json_dumps post_hostname change_id once.2 in
  messages (db once.2) = messages (db σ) ++ [MsgSuccess "Server restored."] →
  twice.1 = Ok (Redirect "serverdb_changes")
  ∧ server_objects (db twice.2) = server_objects (db once.2)
  ∧ attribute_values (db twice.2) = attribute_values (db once.2)
  ∧ change_commits (db twice.2) = change_commits (db once.2)
  ∧ change_adds (db twice.2) = change_adds (db once.2)
  ∧ messages (db twice.2)
    = messages (db once.2)
      ++ [MsgError "Server with that hostname already exists"].
Proof.
  intros once twice Hsuccess. subst twice.
  apply restore_deleted_success in Hsuccess
    as (change & others & snapshot & found & id & σ' & Hfilter & Hfound
        & Hout & Honce).
  subst once. rewrite Honce. clear Honce.
  set (σ1 := set_heap (heap σ ++ [snapshot]) σ) in *.
  pose proof (create_server_side_tables (length (heap σ)) true false false
                None None σ1) as (Hranges & Hchanges & Hmessages).
  pose proof (create_server_run lookups check_attribute_type typecast
                ip_address repr json_dumps (length (heap σ)) true false false
                None None σ1) as Hrun.
  rewrite Hout in Hranges, Hchanges, Hmessages, Hrun.
  simpl in Hranges, Hchanges, Hmessages.
  assert ((create_server_outcome lookups check_attribute_type typecast
             ip_address repr json_dumps (length (heap σ)) true false false
             None None σ1).1 = Ok id) as Hok by (by rewrite <- Hrun).
  apply create_server_ok in Hok
    as (servertype & hostname & intern_ip & segment_id & project_id & d' & D'
        & Hid & Hval & _ & Hins & _ & Hdb).
  rewrite <- Hrun in Hdb. simpl in Hdb.
  assert (deref (length (heap σ)) σ1 = snapshot) as Hsnapshot
    by apply deref_snoc.
  rewrite Hsnapshot in Hid, Hval.
  pose proof (insert_attributes_values lookups
                (new_server hostname intern_ip segment_id (st_pk servertype)
                   project_id (db σ1)) (map_to_list d')
                (db_insert_server
                   (new_server hostname intern_ip segment_id (st_pk servertype)
                      project_id (db σ1)) (db σ1))) as Hvalues.
  rewrite Hins in Hvalues. destruct Hvalues as (Hobjs & _). simpl in Hobjs.
  set (once := set_db (db_add_message (MsgSuccess "Server restored.") (db σ'))
                 σ').
  rewrite restore_deleted_run. unfold restore_outcome.
  replace (changes (db once)) with (changes (db σ)) by (by rewrite <- Hchanges).
  rewrite Hfilter, Hfound.
  set (σ2 := set_heap (heap once ++ [snapshot]) once).
  assert (deref (length (heap once)) σ2 = snapshot) as Hsnapshot2
    by apply deref_snoc.
  assert (snapshot !! "hostname" = Some hostname) as Hhostname.
  { by apply identity_fields_ok in Hid as (_ & ? & _). }
  assert (hostname_exists hostname (db σ2) = true) as Htaken.
  { apply hostname_exists_spec.
    exists (new_server hostname intern_ip segment_id (st_pk servertype)
              project_id (db σ1)).
    split; [ | done ]. simpl. rewrite Hdb. simpl. rewrite Hobjs.
    apply elem_of_app. right. by left. }
  rewrite <- Hsnapshot2 in Hhostname.
  pose proof (create_server_taken lookups check_attribute_type typecast
                ip_address repr json_dumps (length (heap once)) true false
                false None None σ2 hostname Hhostname Htaken)
    as [Hsame Hresult].
  rewrite <- create_server_run in Hsame, Hresult.
  unfold before_insert in Hresult. rewrite Hsnapshot2 in Hresult.
  rewrite (identity_fields_ranges (db σ2) (db σ1)) in Hresult
    by (simpl; by rewrite Hranges).
  rewrite Hid in Hresult. simpl in Hresult. rewrite Hval in Hresult.
  simpl in Hresult.
  destruct (create_server _ _ _ _ _ _ _ _ _ _ _ _ σ2) as [r2 σ2'].
  simpl in Hsame, Hresult. subst r2. simpl. rewrite Hsame. done.
Qed.

End restore_outcomes.

(** ** The schema views: what they write, and when *)

Section schema_views.

Import schema.

Variable servertype_form : request → option string.
Variable attribute_form : request → option Attribute.
Variable link_form_data : request → option link_form.

(** The look-ups at the head of [manage_servertype_attr] read only. *)
Lemma manage_instance_run servertype_name attrib_name w :
  ∃ instance,
    (match given_name attrib_name with
     | Some name =>
         attrib ← get_attribute name;
         stype_attr ← get_link servertype_name (attr_pk attrib);
         mret (Some stype_attr)
     | None => mret None
     end) w = (instance, w)
    ∧ (instance = Raise Http404 ∨ ∃ found, instance = Ok found).
Proof.
  destruct (given_name attrib_name) as [ name | ]; [ | eexists; split; eauto ].
  rewrite bind_run. unfold get_attribute.
  destruct (filter _ (attribute_rows (store w))) as [ | a rest ];
    [ eexists; split; eauto | ].
  rewrite bind_run. unfold get_link.
  destruct (filter _ (link_rows (store w))); eexists; split; eauto.
Qed.

(** X12. After each of the five views that call [_clear_lookups], the registry
    serves what the store holds: read next, it returns the tables as the
    view has left them, whether the view wrote or not. *)
Theorem schema_writes_reach_registry req servertype_name attrib_name
    attribute_name w :
  coherent w →
  let served (w' : world) := (read_lookups w').1 = Ok (store w') in
  served (add_servertype servertype_form req w).2
  ∧ served (delete_servertype req servertype_name w).2
  ∧ served (manage_servertype_attr link_form_data req servertype_name
              attrib_name w).2
  ∧ served (delete_attribute req attribute_name w).2
  ∧ served (add_attribute attribute_form req w).2.
Proof.
  intros Hw served. subst served. simpl.
  split_and!; apply read_lookups_coherent.
  - by apply add_servertype_coherent.
  - by apply delete_servertype_coherent.
  - by apply manage_servertype_attr_coherent.
  - by apply delete_attribute_coherent.
  - by apply add_attribute_coherent.
Qed.

(** X13. No view writes on a request that is not a POST: the store, the cache
    and the messages are as before. *)
Theorem schema_views_write_on_post_only req servertype_name attrib_name
    attribute_name w :
  is_post req = false →
  (add_servertype servertype_form req w).2 = w
  ∧ (delete_servertype req servertype_name w).2 = w
  ∧ (manage_servertype_attr link_form_data req servertype_name attrib_name
       w).2 = w
  ∧ (delete_servertype_attr req servertype_name attribute_name w).2 = w
  ∧ (delete_attribute req attribute_name w).2 = w
  ∧ (add_attribute attribute_form req w).2 = w.
Proof.
  intros Hget. split_and!.
  - unfold add_servertype. by rewrite Hget.
  - unfold delete_servertype. rewrite bind_run. unfold get_servertype.
    case_bool_decide; [ | done ]. by rewrite Hget.
  - unfold manage_servertype_attr. rewrite bind_run. unfold get_servertype.
    case_bool_decide; [ | done ]. rewrite bind_run.
    destruct (manage_instance_run servertype_name attrib_name w)
      as (instance & -> & _).
    destruct instance; [ | done ]. by rewrite Hget.
  - unfold delete_servertype_attr. rewrite bind_run. unfold get_link.
    destruct (filter _ (link_rows (store w))); [ done | ]. by rewrite Hget.
  - unfold delete_attribute. rewrite bind_run. unfold get_attribute.
    destruct (filter _ (attribute_rows (store w))); [ done | ].
    by rewrite Hget.
  - unfold add_attribute. by rewrite Hget.
Qed.

(** X14. Nothing is deleted without [confirm] in the form: the two views that
    test it together with the method change nothing at all, and
    [delete_servertype] leaves the store and the cache as they are and
    answers a POST with the error message and the way back to the
    servertype. *)
Theorem schema_deletes_need_confirmation req servertype_name attribute_name w :
  confirmed req = false →
  (delete_servertype_attr req servertype_name attribute_name w).2 = w
  ∧ (delete_attribute req attribute_name w).2 = w
  ∧ store (delete_servertype req servertype_name w).2 = store w
  ∧ cache_version (delete_servertype req servertype_name w).2
    = cache_version w
  ∧ (is_post req = true →
     servertype_name ∈ servertype_rows (store w) →
     (delete_servertype req servertype_name w).1
     = Ok (redirect "serverdb_view_servertype" [servertype_name])
     ∧ flash (delete_servertype req servertype_name w).2
       = flash w
         ++ [MsgError
               "Please confirm the usage of weapons of mass destruction."]).
Proof.
  intros Hno.
  assert (∀ r, (delete_servertype req servertype_name w) = r →
            store r.2 = store w ∧ cache_version r.2 = cache_version w
            ∧ (is_post req = true →
               servertype_name ∈ servertype_rows (store w) →
               r.1 = Ok (redirect "serverdb_view_servertype" [servertype_name])
               ∧ flash r.2
                 = flash w
                   ++ [MsgError
                     "Please confirm the usage of weapons of mass destruction."]))
    as Hdelete.
  { intros r <-. unfold delete_servertype. rewrite bind_run.
    unfold get_servertype. case_bool_decide; [ | done ].
    rewrite Hno. destruct (is_post req); [ | done ].
    rewrite !bind_run. simpl. done. }
  destruct (Hdelete _ eq_refl) as (? & ? & ?).
  split_and!; try done.
  - unfold delete_servertype_attr. rewrite bind_run. unfold get_link.
    destruct (filter _ (link_rows (store w))); [ done | ].
    by rewrite Hno, andb_false_r.
  - unfold delete_attribute. rewrite bind_run. unfold get_attribute.
    destruct (filter _ (attribute_rows (store w))); [ done | ].
    by rewrite Hno, andb_false_r.
Qed.

Lemma filter_none {A} (P : A → Prop) `{!∀ x, Decision (P x)} (l : list A) :
  (∀ x, x ∈ l → ¬ P x) → filter P l = [].
Proof.
  induction l as [ | x l IH ]; intros Hall; [ done | ].
  rewrite filter_cons_False by (apply Hall; by left).
  apply IH. intros y Hy. apply Hall. by right.
Qed.

(** X15. A view asked for a servertype, an attribute or a link that the store
    does not hold answers 404, whatever the method of the request, and
    changes nothing; [manage_servertype_attr] looks the link up only for a
    name that is not empty, an empty name takes it to the form that adds a
    link. *)
Theorem schema_views_unknown_is_404 req servertype_name attrib_name w :
  (servertype_name ∉ servertype_rows (store w) →
   delete_servertype req servertype_name w = (Raise Http404, w)
   ∧ ∀ edited,
       manage_servertype_attr link_form_data req servertype_name edited w
       = (Raise Http404, w))
  ∧ ((∀ a, a ∈ attribute_rows (store w) → attr_pk a ≠ attrib_name) →
     delete_attribute req attrib_name w = (Raise Http404, w))
  ∧ ((∀ l, l ∈ link_rows (store w) →
           ¬ is_link servertype_name attrib_name l) →
     delete_servertype_attr req servertype_name attrib_name w
     = (Raise Http404, w)
     ∧ (attrib_name ≠ "" →
        manage_servertype_attr link_form_data req servertype_name
          (Some attrib_name) w
        = (Raise Http404, w)))
  ∧ manage_servertype_attr link_form_data req servertype_name (Some "") w
    = manage_servertype_attr link_form_data req servertype_name None w.
Proof.
  split_and!.
  - intros Hunknown. split.
    + unfold delete_servertype. rewrite bind_run. unfold get_servertype.
      by rewrite bool_decide_eq_false_2.
    + intros edited. unfold manage_servertype_attr. rewrite bind_run.
      unfold get_servertype. by rewrite bool_decide_eq_false_2.
  - intros Hunknown. unfold delete_attribute. rewrite bind_run.
    unfold get_attribute. by rewrite filter_none.
  - intros Hunknown. split.
    + unfold delete_servertype_attr. rewrite bind_run. unfold get_link.
      by rewrite filter_none.
    + intros Hname. unfold manage_servertype_attr. rewrite bind_run.
      unfold get_servertype. case_bool_decide; [ | done ].
      rewrite !bind_run. unfold given_name.
      apply String.eqb_neq in Hname. rewrite Hname. rewrite !bind_run.
      unfold get_attribute.
      destruct (filter _ (attribute_rows (store w))) as [ | a rest ] eqn:Hfilter;
        [ done | ].
      assert (a ∈ filter (λ a, attr_pk a = attrib_name)
                    (attribute_rows (store w)))
        as [Hpk _]%list_elem_of_filter by (rewrite Hfilter; by left).
      rewrite bind_run. unfold get_link. rewrite Hpk.
      by rewrite filter_none.
  - done.
Qed.

(** X16. A confirmed delete is final: the same request again answers 404,
    whether the first one has deleted the servertype, the attribute or the
    link, or has found nothing to delete. *)
Theorem schema_delete_is_final req servertype_name attrib_name w :
  is_post req = true → confirmed req = true →
  (delete_servertype req servertype_name
     (delete_servertype req servertype_name w).2).1 = Raise Http404
  ∧ (delete_attribute req attrib_name
       (delete_attribute req attrib_name w).2).1 = Raise Http404
  ∧ (delete_servertype_attr req servertype_name attrib_name
       (delete_servertype_attr req servertype_name attrib_name w).2).1
    = Raise Http404.
Proof.
  intros Hpost Hconfirm. split_and!.
  - unfold delete_servertype at 2. rewrite bind_run. unfold get_servertype.
    case_bool_decide as Hknown.
    + rewrite Hpost, Hconfirm, !bind_run. simpl.
      unfold delete_servertype. rewrite bind_run. unfold get_servertype.
      rewrite bool_decide_eq_false_2; [ done | ]. simpl.
      by intros [? _]%list_elem_of_filter.
    + simpl. unfold delete_servertype. rewrite bind_run.
      unfold get_servertype. by rewrite bool_decide_eq_false_2.
  - unfold delete_attribute at 2. rewrite bind_run. unfold get_attribute.
    destruct (filter _ (attribute_rows (store w))) as [ | a rest ] eqn:Hfilter.
    + simpl. unfold delete_attribute. rewrite bind_run.
      unfold get_attribute. by rewrite Hfilter.
    + assert (a ∈ filter (λ a, attr_pk a = attrib_name)
                    (attribute_rows (store w)))
        as [Hpk _]%list_elem_of_filter by (rewrite Hfilter; by left).
      rewrite Hpost, Hconfirm. simpl. rewrite ?bind_run. simpl.
      unfold delete_attribute. rewrite bind_run. unfold get_attribute.
      simpl. rewrite Hpk. rewrite filter_none; [ done | ].
      by intros x [? _]%list_elem_of_filter.
  - unfold delete_servertype_attr at 2. rewrite bind_run. unfold get_link.
    destruct (filter _ (link_rows (store w))) as [ | l rest ] eqn:Hfilter.
    + simpl. unfold delete_servertype_attr. rewrite bind_run.
      unfold get_link. by rewrite Hfilter.
    + assert (l ∈ filter (is_link servertype_name attrib_name)
                    (link_rows (store w)))
        as [[Hst Hat] _]%list_elem_of_filter by (rewrite Hfilter; by left).
      rewrite Hpost, Hconfirm. simpl. rewrite ?bind_run. simpl.
      unfold delete_servertype_attr. rewrite bind_run. unfold get_link.
      simpl. rewrite Hst, Hat. rewrite filter_none; [ done | ].
      by intros x [? _]%list_elem_of_filter.
Qed.

End schema_views.

(** ** Calling an API function *)

Section api_call_outcomes.

Import api.

Variable S : Type.
Variable splitlines : string → list string.
Variable text : json → string.
Variable AVAILABLE_API_FUNCTIONS :
  gmap string (gmap string (list json → gmap string json → Run S json)).

Lemma run_bind {A B} (m : Run S A) (f : A → Run S B) (s : S) :
  (m ≫= f) s = match m s with
               | (Return a, s') => f a s'
               | (Throw e, s') => (Throw e, s')
               end.
Proof. reflexivity. Qed.

Lemma all_in_object keys m :
  all_in keys (JObject m)
  = Return (forallb (λ k, bool_decide (is_Some (m !! k))) keys).
Proof.
  induction keys as [ | k keys IH ]; simpl; [ done | ].
  by destruct (bool_decide (is_Some (m !! k))).
Qed.

(** X17. A request whose body is an object without one of [group], [name],
    [args] and [kwargs] is refused as a [SuspiciousOperation], for a
    superuser application as for any other; no API function runs. *)
Theorem api_call_needs_all_keys app m key s :
  key ∈ ["group"; "name"; "args"; "kwargs"] →
  m !! key = None →
  api_call S splitlines text AVAILABLE_API_FUNCTIONS app (JObject m) s
  = (Throw (SuspiciousOperation "Invalid API call"), s).
Proof.
  intros Hkey Hmissing. unfold api_call, catch. rewrite run_bind.
  unfold lift at 1. rewrite all_in_object.
  assert (forallb (λ k, bool_decide (is_Some (m !! k)))
            ["group"; "name"; "args"; "kwargs"] = false) as ->; [ | done ].
  apply not_true_is_false. rewrite forallb_forall. intros Hall.
  specialize (Hall key). rewrite <- list_elem_of_In in Hall.
  specialize (Hall Hkey). apply bool_decide_eq_true in Hall as [v Hv].
  congruence.
Qed.

Lemma all_in_complete m group name args kwargs :
  m !! "group" = Some group → m !! "name" = Some name →
  m !! "args" = Some args → m !! "kwargs" = Some kwargs →
  all_in ["group"; "name"; "args"; "kwargs"] (JObject m) = Return true.
Proof.
  intros Hg Hn Ha Hk. rewrite all_in_object. simpl.
  by rewrite Hg, Hn, Ha, Hk.
Qed.

(** X18. The permission test comes before the look-up of the function: an
    application that is no superuser and does not list [group.name] among
    its allowed methods is refused with [PermissionDenied], whether such a
    function exists or not; no API function runs. *)
Theorem api_call_permission_gate app m group name args kwargs s :
  m !! "group" = Some group → m !! "name" = Some name →
  m !! "args" = Some args → m !! "kwargs" = Some kwargs →
  superuser app = false →
  method_name text group name ∉ splitlines (allowed_methods app) →
  api_call S splitlines text AVAILABLE_API_FUNCTIONS app (JObject m) s
  = (Throw (PermissionDenied
              ("Method " +:+ method_name text group name +:+ " not allowed")),
     s).
Proof.
  intros Hg Hn Ha Hk Huser Hdenied. unfold api_call, catch.
  rewrite run_bind. unfold lift at 1.
  rewrite (all_in_complete _ _ _ _ _ Hg Hn Ha Hk). simpl.
  rewrite !run_bind. unfold lift. simpl. rewrite Hg, Hn, Huser. simpl.
  rewrite !run_bind. by rewrite bool_decide_eq_false_2.
Qed.

(** The call on a body with the four keys. *)
Lemma api_call_complete app m group name args kwargs s :
  m !! "group" = Some group → m !! "name" = Some name →
  m !! "args" = Some args → m !! "kwargs" = Some kwargs →
  api_call S splitlines text AVAILABLE_API_FUNCTIONS app (JObject m) s
  = catch
      (when (negb (superuser app)
             && negb (bool_decide (method_name text group name
                                   ∈ splitlines (allowed_methods app))))
         (throw (PermissionDenied
                   ("Method " +:+ method_name text group name
                    +:+ " not allowed")));;
       fn ← catch
              (functions ← lift (subscript AVAILABLE_API_FUNCTIONS group);
               lift (subscript functions name))
              (λ e, match e with
                    | KeyError => Some (throw (ApiError "No such function"))
                    | _ => None
                    end);
       args ← lift (star_args args);
       kwargs ← lift (star_kwargs kwargs);
       retval ← fn args kwargs;
       mret {[ "status" := JStr "success"; "retval" := retval ]})
      (λ e, match e with
            | ApiError msg =>
                Some (mret {[ "status" := JStr "error";
                              "type" := JStr "ApiError";
                              "message" := JStr msg ]})
            | _ => None
            end) s.
Proof.
  intros Hg Hn Ha Hk. unfold api_call, getitem.
  rewrite (all_in_complete _ _ _ _ _ Hg Hn Ha Hk), Hg, Hn, Ha, Hk.
  reflexivity.
Qed.

(** The look-up of lines 174-177 for a group and a name that are texts. *)
Lemma find_function_run g n s {A} (k : _ → Run S A) h :
  catch
    (when false
       (throw (PermissionDenied
                 ("Method " +:+ method_name text (JStr g) (JStr n)
                  +:+ " not allowed")));;
     fn ← catch
            (functions ← lift (subscript AVAILABLE_API_FUNCTIONS (JStr g));
             lift (subscript functions (JStr n)))
            (λ e, match e with
                  | KeyError => Some (throw (ApiError "No such function"))
                  | _ => None
                  end);
     k fn) h s
  = catch
      (fn ← lift (match AVAILABLE_API_FUNCTIONS !! g
                        ≫= λ functions, functions !! n with
                  | Some fn => Return fn
                  | None => Throw (ApiError "No such function")
                  end);
       k fn) h s.
Proof.
  unfold catch, lift, subscript. rewrite !run_bind. simpl.
  rewrite !run_bind.
  destruct (AVAILABLE_API_FUNCTIONS !! g) as [ functions | ]; simpl; [ | done ].
  by destruct (functions !! n).
Qed.

Lemma permitted_passes app g n :
  superuser app = true
  ∨ g +:+ "." +:+ n ∈ splitlines (allowed_methods app) →
  negb (superuser app)
  && negb (bool_decide (method_name text (JStr g) (JStr n)
                        ∈ splitlines (allowed_methods app))) = false.
Proof.
  intros [ -> | Hin ]; [ done | ].
  unfold method_name. simpl. rewrite bool_decide_eq_true_2 by done.
  by rewrite andb_false_r.
Qed.

(** X19. A permitted call of a function that the registry does not hold, under
    a group and a name that are texts, is answered with the error record of
    [ApiError] and the message [No such function]; nothing runs and nothing
    is raised. *)
Theorem api_call_no_such_function app m g n args kwargs s :
  m !! "group" = Some (JStr g) → m !! "name" = Some (JStr n) →
  m !! "args" = Some args → m !! "kwargs" = Some kwargs →
  superuser app = true
  ∨ g +:+ "." +:+ n ∈ splitlines (allowed_methods app) →
  (AVAILABLE_API_FUNCTIONS !! g ≫= λ functions, functions !! n) = None →
  api_call S splitlines text AVAILABLE_API_FUNCTIONS app (JObject m) s
  = (Return {[ "status" := JStr "error";
               "type" := JStr "ApiError";
               "message" := JStr "No such function" ]}, s).
Proof.
  intros Hg Hn Ha Hk Hallowed Hunknown.
  rewrite (api_call_complete _ _ _ _ _ _ _ Hg Hn Ha Hk).
  rewrite (permitted_passes _ _ _ Hallowed).
  rewrite (find_function_run _ _ s). by rewrite Hunknown.
Qed.

(** X20. A permitted call of a function of the registry, with a list for [args]
    and an object for [kwargs], runs that function on them, once: what the
    function returns is the [retval] of a success record; an [ApiError]
    that it raises becomes an error record with its message, and what the
    function has done until then stays done; any other exception goes
    through. *)
Theorem api_call_dispatches app m g n l kw functions fn s :
  m !! "group" = Some (JStr g) → m !! "name" = Some (JStr n) →
  m !! "args" = Some (JList l) → m !! "kwargs" = Some (JObject kw) →
  superuser app = true
  ∨ g +:+ "." +:+ n ∈ splitlines (allowed_methods app) →
  AVAILABLE_API_FUNCTIONS !! g = Some functions →
  functions !! n = Some fn →
  api_call S splitlines text AVAILABLE_API_FUNCTIONS app (JObject m) s
  = match fn l kw s with
    | (Return retval, s') =>
        (Return {[ "status" := JStr "success"; "retval" := retval ]}, s')
    | (Throw (ApiError msg), s') =>
        (Return {[ "status" := JStr "error";
                   "type" := JStr "ApiError";
                   "message" := JStr msg ]}, s')
    | (Throw e, s') => (Throw e, s')
    end.
Proof.
  intros Hg Hn Ha Hk Hallowed Hfunctions Hfn.
  rewrite (api_call_complete _ _ _ _ _ _ _ Hg Hn Ha Hk).
  rewrite (permitted_passes _ _ _ Hallowed).
  rewrite (find_function_run _ _ s).
  replace (AVAILABLE_API_FUNCTIONS !! g ≫= λ functions, functions !! n)
    with (Some fn) by (by rewrite Hfunctions).
  unfold catch, lift. rewrite !run_bind. simpl. rewrite ?run_bind.
  destruct (fn l kw s) as [[retval | e] s']; [ done | ].
  by destruct e.
Qed.

End api_call_outcomes.

(** ** The further properties at work on the small installation *)

Lemma create_server_keeps_hostnames_unique_witness :
  let σ := {| heap := [example.snapshot];
              db := example.database_after_delete |} in
  NoDup (so_hostname <$> server_objects (db σ))
  ∧ NoDup (so_hostname <$>
             server_objects
               (db (example.create_server 0 true false false None None σ).2)).
Proof.
  simpl.
  assert (NoDup (so_hostname <$>
                   server_objects example.database_after_delete)) as H
    by apply NoDup_singleton.
  split; [ exact H | ].
  exact (create_server_keeps_hostnames_unique example.lookups
           example.check_attribute_type example.typecast example.ip_address
           example.repr example.json_dumps 0 true false false None None
           {| heap := [example.snapshot];
              db := example.database_after_delete |} H).
Defined.

Lemma create_server_requires_identity_witness :
  let σ := {| heap := [{[ "hostname" := VStr "a.example" ]}];
              db := example.empty_database |} in
  missing_identity (deref 0 σ) = Some "Servertype is required"
  ∧ example.create_server 0 false true false None None σ
    = (Raise (CommitError "Servertype is required"), σ).
Proof.
  simpl.
  assert (missing_identity
            (deref 0 {| heap := [{[ "hostname" := VStr "a.example" ]}];
                        db := example.empty_database |})
          = Some "Servertype is required") as H by (vm_compute; reflexivity).
  split; [ exact H | ].
  exact (create_server_requires_identity example.lookups
           example.check_attribute_type example.typecast example.ip_address
           example.repr example.json_dumps 0 false true false None None
           {| heap := [{[ "hostname" := VStr "a.example" ]}];
              db := example.empty_database |} _ H).
Defined.

Lemma create_server_unknown_servertype_witness :
  let σ := {| heap := [<["servertype" := VStr "db"]> example.input];
              db := example.empty_database |} in
  missing_identity (deref 0 σ) = None
  ∧ (∀ k v, k ∈ ["hostname"; "servertype"; "project"; "intern_ip"] →
            deref 0 σ !! k = Some v →
            example.check_attribute_type k v = None)
  ∧ deref 0 σ !! "servertype" = Some (VStr "db")
  ∧ servertypes example.lookups !! "db" = None
  ∧ example.create_server 0 false true false None None σ
    = (Raise (CommitError "Unknown servertype: db"), σ).
Proof.
  simpl.
  set (σ := {| heap := [<["servertype" := VStr "db"]> example.input];
               db := example.empty_database |}).
  assert (missing_identity (deref 0 σ) = None) as H1
    by (vm_compute; reflexivity).
  assert (∀ k v, k ∈ ["hostname"; "servertype"; "project"; "intern_ip"] →
                 deref 0 σ !! k = Some v →
                 example.check_attribute_type k v = None) as H2 by done.
  assert (deref 0 σ !! "servertype" = Some (VStr "db")) as H3
    by (vm_compute; reflexivity).
  assert (servertypes example.lookups !! "db" = None) as H4
    by (vm_compute; reflexivity).
  split; [ exact H1 | ]. split; [ exact H2 | ]. split; [ exact H3 | ].
  split; [ exact H4 | ].
  exact (create_server_unknown_servertype example.lookups
           example.check_attribute_type example.typecast example.ip_address
           example.repr example.json_dumps 0 false true false None None
           σ "db" H1 H2 H3 H4).
Defined.

Lemma create_server_stores_identity_witness :
  let σ := {| heap := [example.input]; db := example.empty_database |} in
  (example.create_server 0 true false false None None σ).1 = Ok 1%Z
  ∧ ltac:(let T := type of
            (create_server_stores_identity example.lookups
               example.check_attribute_type example.typecast
               example.ip_address example.repr example.json_dumps
               0 true false false None None
               {| heap := [example.input]; db := example.empty_database |}
               1%Z) in conclusion_of T).
Proof.
  simpl.
  assert ((create_server example.lookups example.check_attribute_type
             example.typecast example.ip_address example.repr
             example.json_dumps 0 true false false None None
             {| heap := [example.input]; db := example.empty_database |}).1
          = Ok 1%Z) as H by (vm_compute; reflexivity).
  split; [ exact H | ].
  exact (create_server_stores_identity example.lookups
           example.check_attribute_type example.typecast example.ip_address
           example.repr example.json_dumps 0 true false false None None
           {| heap := [example.input]; db := example.empty_database |}
           1%Z H).
Defined.

Lemma create_server_stores_each_value_witness :
  let σ := {| heap := [example.snapshot];
              db := example.database_after_delete |} in
  (example.create_server 0 true false false None None σ).1 = Ok 3%Z
  ∧ ltac:(let T := type of
            (create_server_stores_each_value example.lookups
               example.check_attribute_type example.typecast
               example.ip_address example.repr example.json_dumps
               0 true false false None None
               {| heap := [example.snapshot];
                  db := example.database_after_delete |}
               3%Z) in conclusion_of T).
Proof.
  simpl.
  assert ((create_server example.lookups example.check_attribute_type
             example.typecast example.ip_address example.repr
             example.json_dumps 0 true false false None None
             {| heap := [example.snapshot];
                db := example.database_after_delete |}).1
          = Ok 3%Z) as H by (vm_compute; reflexivity).
  split; [ exact H | ].
  exact (create_server_stores_each_value example.lookups
           example.check_attribute_type example.typecast example.ip_address
           example.repr example.json_dumps 0 true false false None None
           {| heap := [example.snapshot];
              db := example.database_after_delete |}
           3%Z H).
Defined.

Lemma create_server_validated_conforms_witness :
  let σ := {| heap := [example.snapshot];
              db := example.database_after_delete |} in
  deref 0 σ !! "servertype" = Some (VStr "vm")
  ∧ servertypes example.lookups !! "vm" = Some example.vm
  ∧ NoDup (attr_pk <$> st_attributes example.vm)
  ∧ (example.create_server 0 false false false None None σ).1 = Ok 3%Z
  ∧ ltac:(let T := type of
            (create_server_validated_conforms example.lookups
               example.check_attribute_type example.typecast
               example.ip_address example.repr example.json_dumps
               0 false false None None
               {| heap := [example.snapshot];
                  db := example.database_after_delete |}
               3%Z example.vm "vm") in conclusion_of T).
Proof.
  simpl.
  set (σ := {| heap := [example.snapshot];
               db := example.database_after_delete |}).
  assert (deref 0 σ !! "servertype" = Some (VStr "vm")) as H1
    by (vm_compute; reflexivity).
  assert (servertypes example.lookups !! "vm" = Some example.vm) as H2
    by (vm_compute; reflexivity).
  assert (NoDup (attr_pk <$> st_attributes example.vm)) as H3
    by (apply (bool_decide_unpack _); vm_compute; exact I).
  assert ((create_server example.lookups example.check_attribute_type
             example.typecast example.ip_address example.repr
             example.json_dumps 0 false false false None None σ).1
          = Ok 3%Z) as H4 by (vm_compute; reflexivity).
  split; [ exact H1 | ]. split; [ exact H2 | ]. split; [ exact H3 | ].
  split; [ exact H4 | ].
  exact (create_server_validated_conforms example.lookups
           example.check_attribute_type example.typecast example.ip_address
           example.repr example.json_dumps 0 false false None None σ
           3%Z example.vm "vm" H1 H2 H3 H4).
Defined.

Lemma restore_deleted_not_found_witness :
  let σ := {| heap := []; db := example.database_after_delete |} in
  (∀ change, change ∈ changes (db σ) → change_pk change = 7%Z →
     ∀ sobj, sobj ∈ change_deleted change →
       ∃ h, sobj !! "hostname" = Some h
            ∧ h ≠ post_get (Some "c.example"))
  ∧ restore_deleted example.lookups example.check_attribute_type
      example.typecast example.ip_address example.repr example.json_dumps
      (Some "c.example") 7%Z σ
    = (Raise Http404, σ).
Proof.
  simpl.
  set (σ := {| heap := []; db := example.database_after_delete |}).
  assert (∀ change, change ∈ changes (db σ) → change_pk change = 7%Z →
            ∀ sobj, sobj ∈ change_deleted change →
              ∃ h, sobj !! "hostname" = Some h
                   ∧ h ≠ post_get (Some "c.example")) as H.
  { intros change Hchange _ sobj Hsobj. simpl in Hchange.
    apply list_elem_of_singleton in Hchange as ->. simpl in Hsobj.
    apply list_elem_of_singleton in Hsobj as ->.
    exists (VStr "b.example"). split; [ by vm_compute | done ]. }
  split; [ exact H | ].
  exact (restore_deleted_not_found example.lookups
           example.check_attribute_type example.typecast example.ip_address
           example.repr example.json_dumps (Some "c.example") 7%Z σ H).
Defined.

Lemma restore_deleted_broken_snapshot_witness :
  let change := {| change_pk := 7;
                   change_deleted := [example.snapshot; ∅] |} in
  let σ := {| heap := [];
              db := {| server_objects := [];
                       next_server_id := 1;
                       attribute_values := [];
                       ip_ranges := [];
                       change_commits := [];
                       change_adds := [];
                       changes := [change];
                       messages := [] |} |} in
  filter (λ c, change_pk c = 7%Z) (changes (db σ)) = [change]
  ∧ (∅ : gmap string value) ∈ change_deleted change
  ∧ (∅ : gmap string value) !! "hostname" = None
  ∧ restore_deleted example.lookups example.check_attribute_type
      example.typecast example.ip_address example.repr example.json_dumps
      (Some "b.example") 7%Z σ
    = (Raise (KeyError "hostname"), σ).
Proof.
  simpl.
  set (change := {| change_pk := 7;
                    change_deleted := [example.snapshot; ∅] |}).
  set (σ := {| heap := [];
               db := {| server_objects := [];
                        next_server_id := 1;
                        attribute_values := [];
                        ip_ranges := [];
                        change_commits := [];
                        change_adds := [];
                        changes := [change];
                        messages := [] |} |}).
  assert (filter (λ c, change_pk c = 7%Z) (changes (db σ)) = [change]) as H1
    by (vm_compute; reflexivity).
  assert ((∅ : gmap string value) ∈ change_deleted change) as H2
    by (simpl; constructor 2; constructor 1).
  assert ((∅ : gmap string value) !! "hostname" = None) as H3
    by reflexivity.
  split; [ exact H1 | ]. split; [ exact H2 | ]. split; [ exact H3 | ].
  exact (restore_deleted_broken_snapshot example.lookups
           example.check_attribute_type example.typecast example.ip_address
           example.repr example.json_dumps (Some "b.example") 7%Z σ change
           [] ∅ H1 H2 H3).
Defined.

Lemma restore_deleted_not_repeatable_witness :
  let σ := {| heap := []; db := example.database_after_delete |} in
  let once := restore_deleted example.lookups example.check_attribute_type
                example.typecast example.ip_address example.repr
                example.json_dumps (Some "b.example") 7%Z σ in
  messages (db once.2) = messages (db σ) ++ [MsgSuccess "Server restored."]
  ∧ ltac:(let T := type of
            (restore_deleted_not_repeatable example.lookups
               example.check_attribute_type example.typecast
               example.ip_address example.repr example.json_dumps
               (Some "b.example") 7%Z
               {| heap := []; db := example.database_after_delete |}) in
          conclusion_of T).
Proof.
  simpl.
  set (σ := {| heap := []; db := example.database_after_delete |}).
  assert (messages
            (db (restore_deleted example.lookups example.check_attribute_type
                   example.typecast example.ip_address example.repr
                   example.json_dumps (Some "b.example") 7%Z σ).2)
          = messages (db σ) ++ [MsgSuccess "Server restored."]) as H
    by (vm_compute; reflexivity).
  split; [ exact H | ].
  exact (restore_deleted_not_repeatable example.lookups
           example.check_attribute_type example.typecast example.ip_address
           example.repr example.json_dumps (Some "b.example") 7%Z σ H).
Defined.

Lemma schema_writes_reach_registry_witness :
  schema.coherent schema_example.loaded
  ∧ ltac:(let T := type of
            (schema_writes_reach_registry schema_example.servertype_form
               schema_example.attribute_form schema_example.link_form_data
               schema_example.confirm_request "vm" (Some "ram") "ram"
               schema_example.loaded) in conclusion_of T).
Proof.
  assert (schema.coherent schema_example.loaded) as H by (by intros v).
  split; [ exact H | ].
  exact (schema_writes_reach_registry schema_example.servertype_form
           schema_example.attribute_form schema_example.link_form_data
           schema_example.confirm_request "vm" (Some "ram") "ram"
           schema_example.loaded H).
Defined.

Lemma schema_views_write_on_post_only_witness :
  schema.is_post schema_example.get_request = false
  ∧ ltac:(let T := type of
            (schema_views_write_on_post_only schema_example.servertype_form
               schema_example.attribute_form schema_example.link_form_data
               schema_example.get_request "vm" (Some "ram") "ram"
               schema_example.loaded) in conclusion_of T).
Proof.
  assert (schema.is_post schema_example.get_request = false) as H
    by reflexivity.
  split; [ exact H | ].
  exact (schema_views_write_on_post_only schema_example.servertype_form
           schema_example.attribute_form schema_example.link_form_data
           schema_example.get_request "vm" (Some "ram") "ram"
           schema_example.loaded H).
Defined.

Lemma schema_deletes_need_confirmation_witness :
  schema.confirmed schema_example.post_request = false
  ∧ ltac:(let T := type of
            (schema_deletes_need_confirmation schema_example.post_request
               "vm" "ram" schema_example.loaded) in conclusion_of T).
Proof.
  assert (schema.confirmed schema_example.post_request = false) as H
    by (vm_compute; reflexivity).
  split; [ exact H | ].
  exact (schema_deletes_need_confirmation schema_example.post_request
           "vm" "ram" schema_example.loaded H).
Defined.

Lemma schema_delete_is_final_witness :
  schema.is_post schema_example.confirm_request = true
  ∧ schema.confirmed schema_example.confirm_request = true
  ∧ ltac:(let T := type of
            (schema_delete_is_final schema_example.confirm_request
               "vm" "ram" schema_example.loaded) in conclusion_of T).
Proof.
  assert (schema.is_post schema_example.confirm_request = true) as H1
    by reflexivity.
  assert (schema.confirmed schema_example.confirm_request = true) as H2
    by (vm_compute; reflexivity).
  split; [ exact H1 | ]. split; [ exact H2 | ].
  exact (schema_delete_is_final schema_example.confirm_request
           "vm" "ram" schema_example.loaded H1 H2).
Defined.

Lemma api_call_needs_all_keys_witness :
  "kwargs" ∈ ["group"; "name"; "args"; "kwargs"]
  ∧ delete "kwargs" (api_example.body "count") !! "kwargs" = None
  ∧ api_example.api_call api_example.application
      (api.JObject (delete "kwargs" (api_example.body "count"))) 0
    = (api.Throw (api.SuspiciousOperation "Invalid API call"), 0).
Proof.
  assert ("kwargs" ∈ ["group"; "name"; "args"; "kwargs"]) as H1
    by (do 3 constructor 2; constructor 1).
  assert (delete "kwargs" (api_example.body "count") !! "kwargs" = None)
    as H2 by apply lookup_delete_eq.
  split; [ exact H1 | ]. split; [ exact H2 | ].
  exact (api_call_needs_all_keys nat api_example.splitlines api_example.text
           api_example.AVAILABLE_API_FUNCTIONS api_example.application
           (delete "kwargs" (api_example.body "count")) "kwargs" 0 H1 H2).
Defined.

Lemma api_call_permission_gate_witness :
  let m := api_example.body "fail" in
  m !! "group" = Some (api.JStr "dataset")
  ∧ m !! "name" = Some (api.JStr "fail")
  ∧ m !! "args" = Some (api.JList [api.JNull; api.JNull])
  ∧ m !! "kwargs" = Some (api.JObject ∅)
  ∧ api.superuser api_example.application = false
  ∧ (api.method_name api_example.text (api.JStr "dataset") (api.JStr "fail")
     ∉ api_example.splitlines
         (api.allowed_methods api_example.application))
  ∧ api_example.api_call api_example.application (api.JObject m) 0
    = (api.Throw (api.PermissionDenied "Method dataset.fail not allowed"), 0).
Proof.
  simpl.
  set (m := api_example.body "fail").
  assert (m !! "group" = Some (api.JStr "dataset")) as H1
    by (vm_compute; reflexivity).
  assert (m !! "name" = Some (api.JStr "fail")) as H2
    by (vm_compute; reflexivity).
  assert (m !! "args" = Some (api.JList [api.JNull; api.JNull])) as H3
    by (vm_compute; reflexivity).
  assert (m !! "kwargs" = Some (api.JObject ∅)) as H4
    by (vm_compute; reflexivity).
  assert (api.superuser api_example.application = false) as H5
    by reflexivity.
  assert (api.method_name api_example.text (api.JStr "dataset")
            (api.JStr "fail")
          ∉ api_example.splitlines
              (api.allowed_methods api_example.application)) as H6.
  { intros Hin. apply list_elem_of_singleton in Hin. discriminate. }
  split; [ exact H1 | ]. split; [ exact H2 | ]. split; [ exact H3 | ].
  split; [ exact H4 | ]. split; [ exact H5 | ]. split; [ exact H6 | ].
  exact (api_call_permission_gate nat api_example.splitlines api_example.text
           api_example.AVAILABLE_API_FUNCTIONS api_example.application
           m _ _ _ _ 0 H1 H2 H3 H4 H5 H6).
Defined.

Lemma api_call_no_such_function_witness :
  let app := {| api.allowed_methods := ""; api.superuser := true |} in
  let m := api_example.body "drop" in
  m !! "group" = Some (api.JStr "dataset")
  ∧ m !! "name" = Some (api.JStr "drop")
  ∧ m !! "args" = Some (api.JList [api.JNull; api.JNull])
  ∧ m !! "kwargs" = Some (api.JObject ∅)
  ∧ (api.superuser app = true
     ∨ "dataset" +:+ "." +:+ "drop"
       ∈ api_example.splitlines (api.allowed_methods app))
  ∧ (api_example.AVAILABLE_API_FUNCTIONS !! "dataset"
       ≫= λ functions, functions !! "drop") = None
  ∧ api_example.api_call app (api.JObject m) 0
    = (api.Return {[ "status" := api.JStr "error";
                     "type" := api.JStr "ApiError";
                     "message" := api.JStr "No such function" ]}, 0).
Proof.
  simpl.
  set (app := {| api.allowed_methods := ""; api.superuser := true |}).
  set (m := api_example.body "drop").
  assert (m !! "group" = Some (api.JStr "dataset")) as H1
    by (vm_compute; reflexivity).
  assert (m !! "name" = Some (api.JStr "drop")) as H2
    by (vm_compute; reflexivity).
  assert (m !! "args" = Some (api.JList [api.JNull; api.JNull])) as H3
    by (vm_compute; reflexivity).
  assert (m !! "kwargs" = Some (api.JObject ∅)) as H4
    by (vm_compute; reflexivity).
  assert (api.superuser app = true
          ∨ "dataset" +:+ "." +:+ "drop"
            ∈ api_example.splitlines (api.allowed_methods app)) as H5
    by (by left).
  assert ((api_example.AVAILABLE_API_FUNCTIONS !! "dataset"
             ≫= λ functions, functions !! "drop") = None) as H6
    by (vm_compute; reflexivity).
  split; [ exact H1 | ]. split; [ exact H2 | ]. split; [ exact H3 | ].
  split; [ exact H4 | ]. split; [ exact H5 | ]. split; [ exact H6 | ].
  exact (api_call_no_such_function nat api_example.splitlines api_example.text
           api_example.AVAILABLE_API_FUNCTIONS app m "dataset" "drop" _ _ 0
           H1 H2 H3 H4 H5 H6).
Defined.

Lemma api_call_dispatches_witness :
  let m := api_example.body "count" in
  let functions : gmap string (list api.json → gmap string api.json
                               → api.Run nat api.json) :=
    {[ "count" := api_example.count; "fail" := api_example.fail ]} in
  m !! "group" = Some (api.JStr "dataset")
  ∧ m !! "name" = Some (api.JStr "count")
  ∧ m !! "args" = Some (api.JList [api.JNull; api.JNull])
  ∧ m !! "kwargs" = Some (api.JObject ∅)
  ∧ (api.superuser api_example.application = true
     ∨ "dataset" +:+ "." +:+ "count"
       ∈ api_example.splitlines
           (api.allowed_methods api_example.application))
  ∧ api_example.AVAILABLE_API_FUNCTIONS !! "dataset" = Some functions
  ∧ functions !! "count" = Some api_example.count
  ∧ api_example.api_call api_example.application (api.JObject m) 0
    = (api.Return {[ "status" := api.JStr "success";
                     "retval" := api.JNum 2 ]}, 1).
Proof.
  simpl.
  set (m := api_example.body "count").
  set (functions := ({[ "count" := api_example.count;
                        "fail" := api_example.fail ]}
                     : gmap string (list api.json → gmap string api.json
                                    → api.Run nat api.json))).
  assert (m !! "group" = Some (api.JStr "dataset")) as H1
    by (vm_compute; reflexivity).
  assert (m !! "name" = Some (api.JStr "count")) as H2
    by (vm_compute; reflexivity).
  assert (m !! "args" = Some (api.JList [api.JNull; api.JNull])) as H3
    by (vm_compute; reflexivity).
  assert (m !! "kwargs" = Some (api.JObject ∅)) as H4
    by (vm_compute; reflexivity).
  assert (api.superuser api_example.application = true
          ∨ "dataset" +:+ "." +:+ "count"
            ∈ api_example.splitlines
                (api.allowed_methods api_example.application)) as H5
    by (right; constructor 1).
  assert (api_example.AVAILABLE_API_FUNCTIONS !! "dataset" = Some functions)
    as H6 by (vm_compute; reflexivity).
  assert (functions !! "count" = Some api_example.count) as H7
    by (vm_compute; reflexivity).
  split; [ exact H1 | ]. split; [ exact H2 | ]. split; [ exact H3 | ].
  split; [ exact H4 | ]. split; [ exact H5 | ]. split; [ exact H6 | ].
  split; [ exact H7 | ].
  exact (api_call_dispatches nat api_example.splitlines api_example.text
           api_example.AVAILABLE_API_FUNCTIONS api_example.application
           m "dataset" "count" _ _ functions api_example.count 0
           H1 H2 H3 H4 H5 H6 H7).
Defined.

Lemma create_server_type_check_not_skipped_witness :
  let σ := {| heap := [example.snapshot];
              db := example.database_after_delete |} in
  deref 0 σ !! "servertype" = Some (VStr "vm")
  ∧ servertypes example.lookups !! "vm" = Some example.vm
  ∧ NoDup (attr_pk <$> st_attributes example.vm)
  ∧ example.ram ∈ st_attributes example.vm
  ∧ (attr_pk example.ram ∉ reserved_keys)
  ∧ deref 0 σ !! attr_pk example.ram = Some (VStr "2048")
  ∧ integer_ram (attr_pk example.ram) (VStr "2048")
    = Some (ValueError "ram is not a number")
  ∧ ltac:(let T := type of
            (create_server_type_check_not_skipped example.lookups
               integer_ram example.typecast example.ip_address example.repr
               example.json_dumps 0 true false false None None
               {| heap := [example.snapshot];
                  db := example.database_after_delete |}
               example.vm "vm" example.ram (VStr "2048")
               (ValueError "ram is not a number")) in conclusion_of T).
Proof.
  simpl.
  set (σ := {| heap := [example.snapshot];
               db := example.database_after_delete |}).
  assert (deref 0 σ !! "servertype" = Some (VStr "vm")) as H1
    by (vm_compute; reflexivity).
  assert (servertypes example.lookups !! "vm" = Some example.vm) as H2
    by (vm_compute; reflexivity).
  assert (NoDup (attr_pk <$> st_attributes example.vm)) as H3
    by (apply (bool_decide_unpack _); vm_compute; exact I).
  assert (example.ram ∈ st_attributes example.vm) as H4
    by (simpl; constructor 1).
  assert (attr_pk example.ram ∉ reserved_keys) as H5
    by (apply (bool_decide_unpack _); vm_compute; exact I).
  assert (deref 0 σ !! attr_pk example.ram = Some (VStr "2048")) as H6
    by (vm_compute; reflexivity).
  assert (integer_ram (attr_pk example.ram) (VStr "2048")
          = Some (ValueError "ram is not a number")) as H7
    by reflexivity.
  split; [ exact H1 | ]. split; [ exact H2 | ]. split; [ exact H3 | ].
  split; [ exact H4 | ]. split; [ exact H5 | ]. split; [ exact H6 | ].
  split; [ exact H7 | ].
  exact (create_server_type_check_not_skipped example.lookups
           integer_ram example.typecast example.ip_address example.repr
           example.json_dumps 0 true false false None None σ
           example.vm "vm" example.ram (VStr "2048")
           (ValueError "ram is not a number") H1 H2 H3 H4 H5 H6 H7).
Defined.

(** The restore of [b.example] on the small installation returns: the
    hostname is free, the stages before the insert succeed and both
    attributes of the snapshot are in the registry. *)
Lemma restore_creates_or_rejects_witness :
  let σ := {| heap := []; db := example.database_after_delete |} in
  let change := {| change_pk := 7; change_deleted := [example.snapshot] |} in
  let σ1 := set_heap (heap σ ++ [example.snapshot]) σ in
  let restored := restore_deleted example.lookups example.check_attribute_type
                    example.typecast example.ip_address example.repr
                    example.json_dumps (Some "b.example") 7%Z σ in
  filter (λ c, change_pk c = 7%Z) (changes (db σ)) = [change]
  ∧ deleted_with_hostname (change_deleted change)
      (post_get (Some "b.example")) = Ok [example.snapshot]
  ∧ (∀ o, o ∈ server_objects (db σ) →
          (server_id o < next_server_id (db σ))%Z)
  ∧ hostname_exists (post_get (Some "b.example")) (db σ) = false
  ∧ before_insert example.lookups example.check_attribute_type
      example.typecast example.ip_address example.repr 0 true false false σ1
    = Ok (example.vm, VStr "b.example", VIPAddress 167772165, VStr "seg1",
          VStr "p1")
  ∧ (example.create_server 0 true false false None None σ1).1 = Ok 3%Z
  ∧ restored.1 = Ok (Redirect "serverdb_changes")
  ∧ messages (db restored.2) = [MsgSuccess "Server restored."]
  ∧ so_hostname <$> server_objects (db restored.2)
    = [VStr "a.example"; VStr "b.example"]
  ∧ attribute_values (db restored.2)
    = [(3%Z, "ram", VStr "2048"); (3%Z, "tags", VStr "a")]
  ∧ ltac:(let T := type of
            (restore_creates_or_rejects example.lookups
               example.check_attribute_type example.typecast
               example.ip_address example.repr example.json_dumps
               (Some "b.example") 7%Z
               {| heap := []; db := example.database_after_delete |}
               {| change_pk := 7; change_deleted := [example.snapshot] |}
               [] example.snapshot []) in
          match T with _ → _ → _ → ?C => exact C end).
Proof.
  simpl.
  set (σ := {| heap := []; db := example.database_after_delete |}).
  set (change := {| change_pk := 7; change_deleted := [example.snapshot] |}).
  assert (filter (λ c, change_pk c = 7%Z) (changes (db σ)) = [change])
    as H1 by (vm_compute; reflexivity).
  assert (deleted_with_hostname (change_deleted change) (VStr "b.example")
          = Ok [example.snapshot]) as H2 by (vm_compute; reflexivity).
  assert (∀ o, o ∈ server_objects (db σ) →
               (server_id o < next_server_id (db σ))%Z) as H3.
  { intros o Ho. simpl in Ho. apply elem_of_cons in Ho as [ -> | Ho ].
    - simpl. lia.
    - by apply elem_of_nil in Ho. }
  assert (hostname_exists (VStr "b.example") (db σ) = false) as Hfree
    by (vm_compute; reflexivity).
  assert (before_insert example.lookups example.check_attribute_type
            example.typecast example.ip_address example.repr 0 true false
            false (set_heap (heap σ ++ [example.snapshot]) σ)
          = Ok (example.vm, VStr "b.example", VIPAddress 167772165,
                VStr "seg1", VStr "p1")) as Hbefore
    by (vm_compute; reflexivity).
  assert (Forall (λ item : string * value,
                    ∃ attribute,
                      attributes example.lookups !! item.1 = Some attribute
                      ∧ (attr_multi attribute = true →
                         ∃ vals, py_iter item.2 = Ok vals))
            (map_to_list
               (validate_attributes example.lookups
                  example.check_attribute_type example.typecast example.repr
                  example.vm true false false example.snapshot).2))
    as Hitems.
  { replace (map_to_list _)
      with [("ram", VStr "2048"); ("tags", VList [VStr "a"])]
      by (vm_compute; reflexivity).
    apply Forall_cons. split.
    - exists example.ram. split; [ vm_compute; reflexivity | done ].
    - apply Forall_cons. split; [ | by apply Forall_nil ].
      exists example.tags. split; [ vm_compute; reflexivity | ].
      intros _. by eexists. }
  pose proof (restore_creates_or_rejects example.lookups
                example.check_attribute_type example.typecast
                example.ip_address example.repr example.json_dumps
                (Some "b.example") 7%Z σ change [] example.snapshot []
                H1 H2 H3) as Hrestore.
  destruct Hrestore as (_ & _ & Hreturns & _).
  destruct (Hreturns Hfree _ _ _ _ _ Hbefore Hitems)
    as (Hout & Hanswer & Hmessages).
  split; [ exact H1 | ]. split; [ exact H2 | ]. split; [ exact H3 | ].
  split; [ exact Hfree | ]. split; [ exact Hbefore | ].
  split; [ exact Hout | ]. split; [ exact Hanswer | ].
  split; [ exact Hmessages | ].
  split; [ vm_compute; reflexivity | ].
  split; [ vm_compute; reflexivity | ].
  exact (restore_creates_or_rejects example.lookups
           example.check_attribute_type example.typecast example.ip_address
           example.repr example.json_dumps (Some "b.example") 7%Z σ change
           [] example.snapshot [] H1 H2 H3).
Defined.

(** C8, as stated, fails for a snapshot with a comment: the restore reports
    success, but the comment of the deleted object is stripped with the
    reserved keys and no value is stored for it, although the servertype
    has the attribute; the object that comes back does not have the
    attributes of the snapshot. *)
Lemma restore_drops_comment :
  let σ := {| heap := []; db := commented.database |} in
  let restored := restore_deleted commented.lookups
                    example.check_attribute_type example.typecast
                    example.ip_address example.repr example.json_dumps
                    (Some "b.example") 7%Z σ in
  commented.snapshot !! "comment" = Some (VStr "primary")
  ∧ attributes commented.lookups !! "comment" = Some commented.comment
  ∧ commented.comment ∈ st_attributes commented.vm
  ∧ restored.1 = Ok (Redirect "serverdb_changes")
  ∧ messages (db restored.2) = [MsgSuccess "Server restored."]
  ∧ so_hostname <$> server_objects (db restored.2)
    = [VStr "a.example"; VStr "b.example"]
  ∧ attribute_values (db restored.2)
    = [(3%Z, "ram", VStr "2048"); (3%Z, "tags", VStr "a")].
Proof.
  simpl. split_and!; try (vm_compute; reflexivity).
  do 3 constructor 2. constructor 1.
Qed.
